(** * Incremental identity clustering of [Scripts/face_recognizer_insightface.py]

    A shallow embedding of the identity engine of the photo tool: the two
    SQLite tables it works on ([faces], [persons]), the batch clusterer
    [cluster_faces], the single incremental pass [cluster_new_faces], the
    convergence loop [cluster_new_faces_loop] and the two curation
    operations [label_person] and [delete_unconfirmed_people].

    Conventions of the embedding.
    - A table is the list of its rows in rowid order, which is the order in
      which SQLite scans it; [id INTEGER PRIMARY KEY AUTOINCREMENT] is the
      rowid, and the [sqlite_sequence] entry of [persons] is kept next to
      the tables.
    - A nullable column is an [option]; an embedding blob is identified with
      the vector [np.frombuffer] decodes it to.
    - The wall-clock columns [created_at] and [updated_at] are written but
      never read by the engine and are left out; so is everything printed.
    - numpy and scikit-learn are an interface ([Numerics]): the engine is
      verified for every implementation of [cosine_similarity], [np.mean],
      the halved sum and [DBSCAN.fit_predict].  Similarities are rationals,
      compared exactly.  The module is modelled with its imports available
      ([INSIGHTFACE_AVAILABLE = True]). *)

From Stdlib Require Import List ZArith QArith Bool String Lia Arith.
From Stdlib Require Import DecimalString Lqa Sorted.
Import ListNotations.

Set Implicit Arguments.

(** ** The numeric libraries *)

Class Numerics := {
  (** a decoded embedding, [np.frombuffer(blob, dtype=np.float32)] *)
  vec : Type;
  (** [cosine_similarity([a], [b])[0][0]] *)
  cosine_similarity : vec -> vec -> Q;
  (** [np.mean(embeddings, axis=0)] *)
  np_mean : list vec -> vec;
  (** [(old_centroid + face_embedding) / 2] *)
  halved_sum : vec -> vec -> vec;
  (** [DBSCAN(eps, min_samples, metric='cosine').fit_predict(X)]: one label
      per sample, [-1] for noise *)
  DBSCAN : Q -> Z -> list vec -> list Z
}.

(** [a > b] on similarities *)
Definition Qgtb (a b : Q) : bool := negb (Qle_bool a b).

(** [f"Person {n}"] *)
Definition person_label (n : Z) : string :=
  ("Person " ++ NilZero.string_of_int (Z.to_int n))%string.

Section Model.
Context {N : Numerics}.

(** ** Rows and tables (Scripts/create_db.py) *)

Record face := mkFace {
  f_id : Z;
  f_image_id : Z;
  f_person_id : option Z;
  f_x : Z;
  f_y : Z;
  f_width : Z;
  f_height : Z;
  f_confidence : option Q;
  f_embedding : option vec;
  f_ignored : bool
}.

Record person := mkPerson {
  p_id : Z;
  p_name : option string;
  p_confirmed : bool
}.

Record db := mkDb {
  faces : list face;
  persons : list person;
  (** [sqlite_sequence] of [persons]: the largest id ever handed out *)
  persons_seq : Z
}.

(** ** SQL statements used by the engine *)

Definition set_person_id (pid : option Z) (f : face) : face :=
  mkFace (f_id f) (f_image_id f) pid (f_x f) (f_y f) (f_width f) (f_height f)
         (f_confidence f) (f_embedding f) (f_ignored f).

Definition opt_Z_eqb (a : option Z) (b : Z) : bool :=
  match a with
  | Some v => Z.eqb v b
  | None => false
  end.

(** [UPDATE faces SET person_id = ? WHERE id = ?] *)
Definition update_face_person (pid : Z) (fid : Z) (d : db) : db :=
  mkDb (map (fun f => if Z.eqb (f_id f) fid then set_person_id (Some pid) f else f)
            (faces d))
       (persons d) (persons_seq d).

(** [UPDATE faces SET person_id = ? WHERE person_id = ?] *)
Definition repoint_faces (new_pid old_pid : Z) (d : db) : db :=
  mkDb (map (fun f => if opt_Z_eqb (f_person_id f) old_pid
                      then set_person_id (Some new_pid) f else f)
            (faces d))
       (persons d) (persons_seq d).

(** [UPDATE faces SET person_id = NULL] *)
Definition clear_all_person_ids (d : db) : db :=
  mkDb (map (set_person_id None) (faces d)) (persons d) (persons_seq d).

(** [DELETE FROM persons] *)
Definition delete_all_persons (d : db) : db :=
  mkDb (faces d) [] (persons_seq d).

(** [DELETE FROM persons WHERE id = ?] *)
Definition delete_person (pid : Z) (d : db) : db :=
  mkDb (faces d) (filter (fun p => negb (Z.eqb (p_id p) pid)) (persons d))
       (persons_seq d).

Definition max_person_id (ps : list person) : Z :=
  fold_right (fun p m => Z.max (p_id p) m) 0%Z ps.

(** [INSERT INTO persons (name, confirmed, created_at) VALUES (?, 0, ...)]
    followed by [cursor.lastrowid].  AUTOINCREMENT hands out one more than
    the largest rowid the table ever held. *)
Definition insert_person (name : string) (d : db) : db * Z :=
  let new_id := (Z.max (persons_seq d) (max_person_id (persons d)) + 1)%Z in
  (mkDb (faces d) (persons d ++ [mkPerson new_id (Some name) false]) new_id,
   new_id).

(** [UPDATE persons SET name = ?, confirmed = 1 WHERE id = ?] *)
Definition rename_confirm (name : string) (pid : Z) (d : db) : db :=
  mkDb (faces d)
       (map (fun p => if Z.eqb (p_id p) pid
                      then mkPerson (p_id p) (Some name) true else p)
            (persons d))
       (persons_seq d).

Definition name_is (name : string) (p : person) : bool :=
  match p_name p with
  | Some s => String.eqb s name
  | None => false
  end.

(** ** [label_person] *)

Definition label_person (person_id : Z) (name : string) (d : db) : db :=
  (* SELECT id, name FROM persons WHERE id = ? *)
  match find (fun p => Z.eqb (p_id p) person_id) (persons d) with
  | None => d
  | Some _ =>
      (* SELECT id FROM persons WHERE name = ? AND id != ? ; fetchone() *)
      match find (fun p => name_is name p && negb (Z.eqb (p_id p) person_id))
                 (persons d) with
      | Some existing_person =>
          let existing_person_id := p_id existing_person in
          delete_person person_id
            (repoint_faces existing_person_id person_id d)
      | None => rename_confirm name person_id d
      end
  end.

(** ** [delete_unconfirmed_people] *)

(** [person_id IN (SELECT id FROM persons WHERE confirmed = 0)] *)
Definition in_unconfirmed (ps : list person) (f : face) : bool :=
  match f_person_id f with
  | Some pid => existsb (fun p => negb (p_confirmed p) && Z.eqb (p_id p) pid) ps
  | None => false
  end.

(** [UPDATE faces SET person_id = NULL WHERE person_id IN (...)] *)
Definition clear_unconfirmed_faces (d : db) : db :=
  mkDb (map (fun f => if in_unconfirmed (persons d) f
                      then set_person_id None f else f)
            (faces d))
       (persons d) (persons_seq d).

(** [DELETE FROM persons WHERE confirmed = 0] *)
Definition delete_unconfirmed_persons (d : db) : db :=
  mkDb (faces d) (filter (fun p => p_confirmed p) (persons d)) (persons_seq d).

Definition delete_unconfirmed_people (d : db) : db :=
  (* SELECT COUNT( * ) FROM persons WHERE confirmed = 0 *)
  let unconfirmed_count :=
    List.length (filter (fun p => negb (p_confirmed p)) (persons d)) in
  if Nat.eqb unconfirmed_count 0 then d
  else delete_unconfirmed_persons (clear_unconfirmed_faces d).

(** ** Queries of the clustering operations *)

(** [SELECT id, embedding FROM faces WHERE embedding IS NOT NULL] *)
Definition select_embedded (d : db) : list (Z * vec) :=
  flat_map (fun f => match f_embedding f with
                     | Some e => [(f_id f, e)]
                     | None => []
                     end)
           (faces d).

(** [SELECT id, embedding FROM faces
     WHERE embedding IS NOT NULL AND person_id IS NULL] *)
Definition select_new_faces (d : db) : list (Z * vec) :=
  flat_map (fun f => match f_embedding f, f_person_id f with
                     | Some e, None => [(f_id f, e)]
                     | _, _ => []
                     end)
           (faces d).

(** [SELECT p.id, p.name, f.embedding FROM persons p
     JOIN faces f ON p.id = f.person_id WHERE f.embedding IS NOT NULL].
    The statement has no ORDER BY.  With the schema of create_db.py SQLite
    runs it as a scan of [faces] with a primary-key lookup into [persons],
    so the rows come out in face order; that is the order modelled. *)
Definition select_existing (d : db) : list (Z * option string * vec) :=
  flat_map (fun f => match f_embedding f, f_person_id f with
                     | Some e, Some pid =>
                         map (fun p => (p_id p, p_name p, e))
                             (filter (fun p => Z.eqb (p_id p) pid) (persons d))
                     | _, _ => []
                     end)
           (faces d).

(** ** Python dicts keyed by person id: insertion-ordered *)

Fixpoint dict_get {V : Type} (k : Z) (m : list (Z * V)) : option V :=
  match m with
  | [] => None
  | (k', v) :: m' => if Z.eqb k' k then Some v else dict_get k m'
  end.

Fixpoint dict_set {V : Type} (k : Z) (v : V) (m : list (Z * V)) : list (Z * V) :=
  match m with
  | [] => [(k, v)]
  | (k', v') :: m' =>
      if Z.eqb k' k then (k, v) :: m' else (k', v') :: dict_set k v m'
  end.

(** ** [cluster_new_faces], phase 0: centroids *)

Definition collect_embedding (acc : list (Z * list vec))
           (row : Z * option string * vec) : list (Z * list vec) :=
  let '(person_id, _, embedding) := row in
  match dict_get person_id acc with
  | None => dict_set person_id [embedding] acc
  | Some l => dict_set person_id (l ++ [embedding]) acc
  end.

Definition person_centroids_of (existing_data : list (Z * option string * vec))
  : list (Z * vec) :=
  map (fun kv => (fst kv, np_mean (snd kv)))
      (fold_left collect_embedding existing_data []).

(** ** [cluster_new_faces], phase 1: match against existing people *)

Definition closer (similarity_threshold : Q) (face_embedding : vec)
           (best : option Z * Q) (item : Z * vec) : option Z * Q :=
  let '(best_person_id, best_similarity) := best in
  let '(person_id, centroid) := item in
  let similarity := cosine_similarity face_embedding centroid in
  if Qgtb similarity best_similarity && Qgtb similarity similarity_threshold
  then (Some person_id, similarity)
  else (best_person_id, best_similarity).

Definition closest_person (similarity_threshold : Q) (face_embedding : vec)
           (person_centroids : list (Z * vec)) : option Z * Q :=
  fold_left (closer similarity_threshold face_embedding) person_centroids
            (None, 0%Q).

Record pass_state := mkPass {
  st_db : db;
  st_centroids : list (Z * vec);
  st_assigned : nat;
  st_unmatched : list (Z * vec)
}.

(** [if best_person_id:] is false for [None] and for the integer [0] *)
Definition truthy (best_person_id : option Z) : option Z :=
  match best_person_id with
  | Some pid => if Z.eqb pid 0 then None else Some pid
  | None => None
  end.

Definition match_face (similarity_threshold : Q) (st : pass_state)
           (face_row : Z * vec) : pass_state :=
  let '(face_id, face_embedding) := face_row in
  match truthy (fst (closest_person similarity_threshold face_embedding
                                    (st_centroids st))) with
  | Some best_person_id =>
      mkPass (update_face_person best_person_id face_id (st_db st))
             (match dict_get best_person_id (st_centroids st) with
              | Some old_centroid =>
                  dict_set best_person_id
                           (halved_sum old_centroid face_embedding)
                           (st_centroids st)
              | None => st_centroids st
              end)
             (S (st_assigned st))
             (st_unmatched st)
  | None =>
      mkPass (st_db st) (st_centroids st) (st_assigned st)
             (st_unmatched st ++ [(face_id, face_embedding)])
  end.

Definition match_faces (similarity_threshold : Q) (new_faces : list (Z * vec))
           (st : pass_state) : pass_state :=
  fold_left (match_face similarity_threshold) new_faces st.

(** ** Cluster labels *)

Fixpoint insert_label (c : Z) (s : list Z) : list Z :=
  match s with
  | [] => [c]
  | c' :: s' =>
      if Z.ltb c c' then c :: s
      else if Z.eqb c c' then s
      else c' :: insert_label c s'
  end.

(** [set(label for label in cluster_labels if label != -1)], in the order
    CPython iterates a set of small non-negative integers: ascending *)
Definition unique_clusters (cluster_labels : list Z) : list Z :=
  fold_right insert_label []
             (filter (fun l => negb (Z.eqb l (-1))) cluster_labels).

(** [[ids[i] for i, label in enumerate(cluster_labels) if label == cluster_id]];
    [fit_predict] returns one label per sample, so indexing is pairing *)
Definition members (ids : list Z) (cluster_labels : list Z) (cluster_id : Z)
  : list Z :=
  map fst (filter (fun il => Z.eqb (snd il) cluster_id)
                  (combine ids cluster_labels)).

Definition assign_all (pid : Z) (face_ids : list Z) (d : db) : db :=
  fold_left (fun d' fid => update_face_person pid fid d') face_ids d.

(** ** [cluster_new_faces], phase 2: new people from the unmatched faces *)

Definition mint_person (n_centroids : nat) (unmatched_ids cluster_labels : list Z)
           (acc : db * nat) (cluster_id : Z) : db * nat :=
  let '(d, new_people_count) := acc in
  let next_person_num := Z.of_nat (n_centroids + new_people_count + 1) in
  let '(d1, new_person_id) := insert_person (person_label next_person_num) d in
  (assign_all new_person_id (members unmatched_ids cluster_labels cluster_id) d1,
   S new_people_count).

Definition mine_new_people (min_samples_new : Z) (n_centroids : nat)
           (unmatched_faces : list (Z * vec)) (d : db) : db * nat :=
  if Z.geb (Z.of_nat (List.length unmatched_faces)) min_samples_new then
    let unmatched_embeddings := map snd unmatched_faces in
    let unmatched_ids := map fst unmatched_faces in
    let cluster_labels := DBSCAN (4 # 10) min_samples_new unmatched_embeddings in
    fold_left (mint_person n_centroids unmatched_ids cluster_labels)
              (unique_clusters cluster_labels) (d, 0%nat)
  else (d, 0%nat).

(** ** [cluster_new_faces] *)

Definition cluster_new_faces (similarity_threshold : Q) (min_samples_new : Z)
           (d : db) : db * option (nat * nat) :=
  match select_new_faces d with
  | [] => (d, None)
  | new_faces =>
      match select_existing d with
      | [] => (d, None)
      | existing_data =>
          let person_centroids := person_centroids_of existing_data in
          let st := match_faces similarity_threshold new_faces
                                (mkPass d person_centroids 0 []) in
          let '(d2, new_people_count) :=
            mine_new_people min_samples_new (List.length (st_centroids st))
                            (st_unmatched st) (st_db st) in
          (d2, Some (st_assigned st, new_people_count))
      end
  end.

(** ** [cluster_new_faces_loop] *)

(** How a run of the loop ends: it returns its totals ([converged] tells
    whether it left through [break]), or the tuple assignment fails on the
    [None] a pass returned. *)
Inductive loop_outcome :=
| Returned (total_assigned total_new_people iteration : nat)
           (converged : bool) (d : db)
| TypeError (iteration : nat) (d : db).

(** [remaining] counts the turns [while iteration < max_iterations] still
    allows *)
Fixpoint loop_from (similarity_threshold : Q) (min_samples_new : Z)
         (remaining total_assigned total_new_people iteration : nat) (d : db)
  : loop_outcome :=
  match remaining with
  | O => Returned total_assigned total_new_people iteration false d
  | S remaining' =>
      let iteration := S iteration in
      match cluster_new_faces similarity_threshold min_samples_new d with
      | (d', None) => TypeError iteration d'
      | (d', Some (assigned, new_people)) =>
          let total_assigned := (total_assigned + assigned)%nat in
          let total_new_people := (total_new_people + new_people)%nat in
          if Nat.eqb assigned 0 && Nat.eqb new_people 0
          then Returned total_assigned total_new_people iteration true d'
          else loop_from similarity_threshold min_samples_new remaining'
                         total_assigned total_new_people iteration d'
      end
  end.

Definition cluster_new_faces_loop (similarity_threshold : Q)
           (min_samples_new max_iterations : Z) (d : db) : loop_outcome :=
  loop_from similarity_threshold min_samples_new (Z.to_nat max_iterations)
            0 0 0 d.

(** ** [cluster_faces] *)

Definition create_person_for (face_ids cluster_labels : list Z) (d : db)
           (cluster_id : Z) : db :=
  let '(d1, person_id) := insert_person (person_label (cluster_id + 1)) d in
  assign_all person_id (members face_ids cluster_labels cluster_id) d1.

Definition cluster_faces (eps : Q) (min_samples : Z) (d : db) : db :=
  let face_data := select_embedded d in
  if Z.ltb (Z.of_nat (List.length face_data)) min_samples then d
  else
    let face_ids := map fst face_data in
    let embeddings := map snd face_data in
    let cluster_labels := DBSCAN eps min_samples embeddings in
    fold_left (create_person_for face_ids cluster_labels)
              (unique_clusters cluster_labels)
              (delete_all_persons (clear_all_person_ids d)).

End Model.

Arguments face {N}.
Arguments db {N}.
Arguments pass_state {N}.
Arguments loop_outcome {N}.

(** ** An exact instance of the numeric interface

    Vectors of rationals.  The cosine is exact on vectors whose norms are
    rational; the examples below only use such vectors.  The clustering is
    density clustering over the cosine distance: a point with at least
    [min_samples] points within [eps] (itself included) is a core point, a
    cluster is what is density-reachable from a core point, the rest is
    noise. *)

Module QVec.

Definition qvec := list Q.

Fixpoint dot (a b : qvec) : Q :=
  match a, b with
  | x :: a', y :: b' => x * y + dot a' b'
  | _, _ => 0
  end.

(** exact on the squares of rationals *)
Definition qsqrt (q : Q) : Q :=
  Qmake (Z.sqrt (Qnum q * Z.pos (Qden q))) (Qden q).

Definition cosine (a b : qvec) : Q :=
  Qred (dot a b / (qsqrt (dot a a) * qsqrt (dot b b))).

Fixpoint vadd (a b : qvec) : qvec :=
  match a, b with
  | x :: a', y :: b' => Qred (x + y) :: vadd a' b'
  | _, _ => []
  end.

Definition vscale (k : Q) (a : qvec) : qvec := map (fun x => Qred (k * x)) a.

Definition mean (l : list qvec) : qvec :=
  match l with
  | [] => []
  | v :: vs =>
      vscale (Qmake 1 (Pos.of_nat (List.length l))) (fold_left vadd vs v)
  end.

Definition halved (a b : qvec) : qvec := vscale (1 # 2) (vadd a b).

Definition within (eps : Q) (X : list qvec) (i j : nat) : bool :=
  Qle_bool (1 - cosine (nth i X []) (nth j X [])) eps.

Definition neighbourhood (eps : Q) (X : list qvec) (i : nat) : list nat :=
  filter (within eps X i) (seq 0 (List.length X)).

Definition is_core (eps : Q) (min_samples : Z) (X : list qvec) (i : nat) : bool :=
  Z.geb (Z.of_nat (List.length (neighbourhood eps X i))) min_samples.

Fixpoint set_nth (i : nat) (c : Z) (labels : list Z) : list Z :=
  match labels, i with
  | [], _ => []
  | _ :: t, O => c :: t
  | h :: t, S i' => h :: set_nth i' c t
  end.

Fixpoint expand (fuel : nat) (eps : Q) (min_samples : Z) (X : list qvec)
         (c : Z) (stack : list nat) (labels : list Z) : list Z :=
  match fuel with
  | O => labels
  | S fuel' =>
      match stack with
      | [] => labels
      | i :: rest =>
          if Z.eqb (nth i labels 0%Z) (-1) then
            let labels' := set_nth i c labels in
            if is_core eps min_samples X i
            then expand fuel' eps min_samples X c
                        (filter (fun v => Z.eqb (nth v labels' 0%Z) (-1))
                                (neighbourhood eps X i) ++ rest)
                        labels'
            else expand fuel' eps min_samples X c rest labels'
          else expand fuel' eps min_samples X c rest labels
      end
  end.

Definition visit (eps : Q) (min_samples : Z) (X : list qvec)
           (acc : list Z * Z) (i : nat) : list Z * Z :=
  let '(labels, label_num) := acc in
  if negb (Z.eqb (nth i labels 0%Z) (-1)) || negb (is_core eps min_samples X i)
  then acc
  else
    let n := List.length X in
    (expand (n * n + n + 1) eps min_samples X label_num [i] labels,
     (label_num + 1)%Z).

Definition dbscan (eps : Q) (min_samples : Z) (X : list qvec) : list Z :=
  fst (fold_left (visit eps min_samples X) (seq 0 (List.length X))
                 (map (fun _ => (-1)%Z) X, 0%Z)).

End QVec.

#[export] Instance QNumerics : Numerics := {|
  vec := QVec.qvec;
  cosine_similarity := QVec.cosine;
  np_mean := QVec.mean;
  halved_sum := QVec.halved;
  DBSCAN := QVec.dbscan
|}.

Definition qface (id : Z) (pid : option Z) (e : option (list Q)) (ign : bool)
  : @face QNumerics :=
  mkFace id 1 pid 0 0 10 10 (Some (9 # 10)) e ign.

(** ** Vocabulary of the statements *)

Section Vocabulary.
Context {N : Numerics}.

(** every column of a face row but [person_id] *)
Definition same_detection (f f' : face) : Prop :=
  f_id f' = f_id f /\ f_image_id f' = f_image_id f /\
  f_x f' = f_x f /\ f_y f' = f_y f /\
  f_width f' = f_width f /\ f_height f' = f_height f /\
  f_confidence f' = f_confidence f /\ f_embedding f' = f_embedding f /\
  f_ignored f' = f_ignored f.

Definition assigned_to_unconfirmed (d : db) (f : face) : Prop :=
  exists p, In p (persons d) /\ p_confirmed p = false /\
            f_person_id f = Some (p_id p).

(** the primary keys, and the AUTOINCREMENT bookkeeping of [persons] *)
Record wf_db (d : db) : Prop := {
  wf_face_ids : NoDup (map f_id (faces d));
  wf_person_ids : NoDup (map p_id (persons d));
  wf_persons_seq : Forall (fun p => (p_id p <= persons_seq d)%Z) (persons d)
}.

(** the two queries of [cluster_new_faces] have something to return *)
Definition has_new_face (d : db) : Prop :=
  exists f, In f (faces d) /\ f_embedding f <> None /\ f_person_id f = None.

Definition has_embedded_person (d : db) : Prop :=
  exists p f, In p (persons d) /\ In f (faces d) /\
              f_person_id f = Some (p_id p) /\ f_embedding f <> None.

(** the store after [k] passes of [cluster_new_faces], and what pass
    number [k + 1] returns *)
Fixpoint db_after (thr : Q) (msn : Z) (k : nat) (d : db) : db :=
  match k with
  | O => d
  | S k' => db_after thr msn k' (fst (cluster_new_faces thr msn d))
  end.

Definition pass_result (thr : Q) (msn : Z) (k : nat) (d : db)
  : option (nat * nat) :=
  snd (cluster_new_faces thr msn (db_after thr msn k d)).

Definition progress (r : option (nat * nat)) : Prop :=
  exists a n, r = Some (a, n) /\ (a <> 0 \/ n <> 0)%nat.

(** the [person_id] column of the face row with a given id *)
Definition person_of (fid : Z) (d : db) : option (option Z) :=
  option_map f_person_id (find (fun f => Z.eqb (f_id f) fid) (faces d)).

(** a face row that kept its detection columns and either kept its
    [person_id] or was given a [fresh] one *)
Definition repointed (fresh : Z -> Prop) (f f' : face) : Prop :=
  same_detection f f' /\
  (f_person_id f' = f_person_id f \/
   exists pid, f_person_id f' = Some pid /\ fresh pid).

(** [d'] is [d] with [news] appended to [persons], all of them unconfirmed
    with ids above [s0], and with faces repointed to them only *)
Definition extends (s0 : Z) (news : list person) (d d' : db) : Prop :=
  persons d' = persons d ++ news /\
  Forall (fun p => (s0 < p_id p <= persons_seq d')%Z /\ p_confirmed p = false) news /\
  NoDup (map p_id news) /\
  (persons_seq d <= persons_seq d')%Z /\
  Forall2 (repointed (fun pid => (s0 < pid)%Z /\ In pid (map p_id news)))
          (faces d) (faces d').

(** the [ignored] column rewritten: face [i] gets the flag [g i] *)
Definition set_ignored (b : bool) (f : face) : face :=
  mkFace (f_id f) (f_image_id f) (f_person_id f) (f_x f) (f_y f) (f_width f)
         (f_height f) (f_confidence f) (f_embedding f) b.

Definition reflag (g : Z -> bool) (d : db) : db :=
  mkDb (map (fun f => set_ignored (g (f_id f)) f) (faces d))
       (persons d) (persons_seq d).

(** the state in which phase 1 of [cluster_new_faces] starts *)
Definition pass_start (d : db) : pass_state :=
  mkPass d (person_centroids_of (select_existing d)) 0 [].

Definition iterations_run (o : loop_outcome) : nat :=
  match o with
  | Returned _ _ i _ _ => i
  | TypeError i _ => i
  end.

End Vocabulary.

(** ** Example stores (over the exact instance) *)

Module Stores.

Definition east : list Q := [1; 0].
Definition north : list Q := [0; 1].
Definition east_twice : list Q := [2; 0].
Definition north_twice : list Q := [0; 2].
Definition west : list Q := [-1; 0].
Definition south : list Q := [0; -1].
(** at similarity 3/5 from [east] and 4/5 from [north] *)
Definition steep : list Q := [3 # 5; 4 # 5].
(** at similarity 7/25 from [east]; the mean of the two has a rational norm *)
Definition steeper : list Q := [7 # 25; 24 # 25].

(** three unconfirmed people with ten faces in all, one confirmed person
    with five *)
Definition curated : @db QNumerics :=
  mkDb (map (fun i => qface i (Some 1%Z) (Some east) false) [1; 2; 3; 4]%Z ++
        map (fun i => qface i (Some 2%Z) (Some east) false) [5; 6; 7]%Z ++
        map (fun i => qface i (Some 3%Z) (Some east) false) [8; 9; 10]%Z ++
        map (fun i => qface i (Some 4%Z) (Some north) false) [11; 12; 13; 14; 15]%Z)
       [mkPerson 1 (Some "Person 1"%string) false;
        mkPerson 2 (Some "Person 2"%string) false;
        mkPerson 3 (Some "Person 3"%string) false;
        mkPerson 4 (Some "Alice"%string) true]
       4.

(** Person 5 ("Bob", three faces, unconfirmed) and Person 7 ("Alice", four
    faces, confirmed) *)
Definition bob_and_alice : @db QNumerics :=
  mkDb (map (fun i => qface i (Some 5%Z) (Some east) false) [1; 2; 3]%Z ++
        map (fun i => qface i (Some 7%Z) (Some north) false) [4; 5; 6; 7]%Z)
       [mkPerson 5 (Some "Bob"%string) false;
        mkPerson 7 (Some "Alice"%string) true]
       7.

(** two people that both carry the placeholder "Person 3": the first from a
    batch run, the second minted later by an incremental pass that counted
    two people with faces *)
Definition two_person_3 : @db QNumerics :=
  mkDb [qface 1 (Some 1%Z) (Some east) false;
        qface 2 (Some 3%Z) (Some north) false;
        qface 3 (Some 4%Z) (Some west) false;
        qface 4 (Some 5%Z) (Some south) false]
       [mkPerson 1 (Some "Ann"%string) true;
        mkPerson 3 (Some "Person 3"%string) false;
        mkPerson 4 (Some "Person 3"%string) false;
        mkPerson 5 (Some "Person 4"%string) false]
       5.

(** one person, and one new face whose similarity to it is exactly 3/5 *)
Definition on_threshold : @db QNumerics :=
  mkDb [qface 1 (Some 1%Z) (Some east) false;
        qface 2 None (Some steep) false]
       [mkPerson 1 (Some "Person 1"%string) false]
       1.

(** two people whose centroids point the same way; the person with the
    higher id owns the earlier face *)
Definition tied : @db QNumerics :=
  mkDb [qface 1 (Some 2%Z) (Some east) false;
        qface 2 (Some 1%Z) (Some east_twice) false;
        qface 3 None (Some east) false]
       [mkPerson 1 (Some "Person 1"%string) false;
        mkPerson 2 (Some "Person 2"%string) false]
       2.

(** two people at a right angle to the new face: similarity zero to both *)
Definition orthogonal : @db QNumerics :=
  mkDb [qface 1 (Some 1%Z) (Some north) false;
        qface 2 (Some 2%Z) (Some north_twice) false;
        qface 3 None (Some east) false]
       [mkPerson 1 (Some "Person 1"%string) false;
        mkPerson 2 (Some "Person 2"%string) false]
       2.

(** an ignored, unassigned face that looks like Person 1 *)
Definition with_ignored : @db QNumerics :=
  mkDb [qface 1 (Some 1%Z) (Some east) false;
        qface 2 None (Some east) true]
       [mkPerson 1 (Some "Person 1"%string) false]
       1.

(** one person and [n] new faces, alike among themselves and unlike the
    person *)
Definition newcomers (n : nat) : @db QNumerics :=
  mkDb (qface 1 (Some 1%Z) (Some east) false ::
        map (fun i => qface (Z.of_nat i) None (Some north) false) (seq 2 n))
       [mkPerson 1 (Some "Person 1"%string) false]
       1.

(** face 3 matches Person 1 at once; face 2 only matches the centroid that
    contains face 3; in [slow_start_rest] a face 4 never matches *)
Definition slow_start : @db QNumerics :=
  mkDb [qface 1 (Some 1%Z) (Some east) false;
        qface 2 None (Some north) false;
        qface 3 None (Some steeper) false]
       [mkPerson 1 (Some "Person 1"%string) false]
       1.

(** [slow_start] after one pass, and after two *)
Definition slow_start_once : @db QNumerics :=
  mkDb [qface 1 (Some 1%Z) (Some east) false;
        qface 2 None (Some north) false;
        qface 3 (Some 1%Z) (Some steeper) false]
       [mkPerson 1 (Some "Person 1"%string) false]
       1.

Definition slow_start_done : @db QNumerics :=
  mkDb [qface 1 (Some 1%Z) (Some east) false;
        qface 2 (Some 1%Z) (Some north) false;
        qface 3 (Some 1%Z) (Some steeper) false]
       [mkPerson 1 (Some "Person 1"%string) false]
       1.

Definition slow_start_rest : @db QNumerics :=
  mkDb (faces slow_start ++ [qface 4 None (Some west) false])
       (persons slow_start) 1.

Definition slow_start_rest_done : @db QNumerics :=
  mkDb [qface 1 (Some 1%Z) (Some east) false;
        qface 2 (Some 1%Z) (Some north) false;
        qface 3 (Some 1%Z) (Some steeper) false;
        qface 4 None (Some west) false]
       [mkPerson 1 (Some "Person 1"%string) false]
       1.

(** a confirmed and an unconfirmed person before a batch run *)
Definition before_batch : @db QNumerics :=
  mkDb [qface 1 (Some 1%Z) (Some east) false;
        qface 2 (Some 2%Z) (Some east) false;
        qface 3 None (Some north) false;
        qface 4 (Some 2%Z) (Some north) false;
        qface 5 None None false]
       [mkPerson 1 (Some "Alice"%string) true;
        mkPerson 2 (Some "Person 2"%string) false]
       2.

End Stores.

(** decidable form of [NoDup] on ids, for concrete stores *)
Fixpoint distinct (l : list Z) : bool :=
  match l with
  | [] => true
  | a :: l' => negb (existsb (Z.eqb a) l') && distinct l'
  end.

(** * The rest of the engine and its callers

    The remaining operations of [face_recognizer_insightface.py] that work
    on the two tables, and the operations of [face_api_server.py] that read
    and write the same rows. *)

From Stdlib Require Import Permutation.

Section Surroundings.
Context {N : Numerics}.

(** ** [clear_mediapipe_data] *)

(** [DELETE FROM faces], [DELETE FROM persons]; [sqlite_sequence] stays *)
Definition clear_mediapipe_data (d : db) : db :=
  mkDb [] [] (persons_seq d).

(** ** [get_people_stats] *)

Record people_stat := mkStat {
  s_id : Z;
  s_name : option string;
  s_confirmed : bool;
  s_face_count : nat;
  s_image_count : nat;
  s_avg_confidence : Q
}.

(** the rows [LEFT JOIN faces f ON p.id = f.person_id] pairs with a person *)
Definition faces_of (pid : Z) (d : db) : list face :=
  filter (fun f => opt_Z_eqb (f_person_id f) pid) (faces d).

(** [AVG(f.confidence)]: the mean of the non-NULL values, NULL without any *)
Definition sql_avg (values : list (option Q)) : option Q :=
  match flat_map (fun v => match v with Some q => [q] | None => [] end) values with
  | [] => None
  | q :: qs =>
      Some (fold_left Qplus qs q / inject_Z (Z.of_nat (S (List.length qs))))
  end.

(** [row['avg_confidence'] or 0.0] *)
Definition or_zero (v : option Q) : Q :=
  match v with
  | Some q => if Qeq_bool q 0 then 0 else q
  | None => 0
  end.

Fixpoint distinct_count (l : list Z) : nat :=
  match l with
  | [] => 0
  | a :: l' => if existsb (Z.eqb a) l' then distinct_count l'
               else S (distinct_count l')
  end.

(** one group of [GROUP BY p.id, p.name, p.confirmed]; [id] is the primary
    key, so a group is a person row *)
Definition stat_of (d : db) (p : person) : people_stat :=
  let joined := faces_of (p_id p) d in
  mkStat (p_id p) (p_name p) (p_confirmed p)
         (List.length joined)
         (distinct_count (map f_image_id joined))
         (or_zero (sql_avg (map f_confidence joined))).

Fixpoint insert_by {A : Type} (before : A -> A -> bool) (a : A) (l : list A)
  : list A :=
  match l with
  | [] => [a]
  | b :: l' => if before a b then a :: l else b :: insert_by before a l'
  end.

(** [ORDER BY]: rows that compare equal keep the order they came in (SQL
    leaves their order open) *)
Definition order_by {A : Type} (before : A -> A -> bool) (l : list A) : list A :=
  fold_right (insert_by before) [] l.

(** [ORDER BY face_count DESC] *)
Definition more_faces (a b : people_stat) : bool :=
  Nat.leb (s_face_count b) (s_face_count a).

Definition get_people_stats (d : db) : list people_stat :=
  order_by more_faces (map (stat_of d) (persons d)).

(** ** [face_api_server.py]: [assign_face_to_person], [ignore_face] *)

(** [not x] for a request parameter that is [None] or an integer *)
Definition falsy (x : option Z) : bool :=
  match x with
  | Some v => Z.eqb v 0
  | None => true
  end.

Definition assign_face_to_person (face_id person_id : option Z) (d : db)
  : db * bool :=
  if falsy face_id || falsy person_id then (d, false)
  else
    match face_id, person_id with
    | Some fid, Some pid =>
        (* SELECT id, image_id FROM faces WHERE id = ? *)
        match find (fun f => Z.eqb (f_id f) fid) (faces d) with
        | None => (d, false)
        | Some _ =>
            (* SELECT id, name FROM persons WHERE id = ? *)
            match find (fun p => Z.eqb (p_id p) pid) (persons d) with
            | None => (d, false)
            | Some _ => (update_face_person pid fid d, true)
            end
        end
    | _, _ => (d, false)
    end.

Definition mark_ignored (f : face) : face :=
  mkFace (f_id f) (f_image_id f) (f_person_id f) (f_x f) (f_y f) (f_width f)
         (f_height f) (f_confidence f) (f_embedding f) true.

Definition ignore_face (face_id : option Z) (d : db) : db * bool :=
  if falsy face_id then (d, false)
  else
    match face_id with
    | Some fid =>
        match find (fun f => Z.eqb (f_id f) fid) (faces d) with
        | None => (d, false)
        | Some _ =>
            (* UPDATE faces SET ignored = 1 WHERE id = ? *)
            (mkDb (map (fun f => if Z.eqb (f_id f) fid then mark_ignored f else f)
                       (faces d))
                  (persons d) (persons_seq d),
             true)
        end
    | None => (d, false)
    end.

(** ** [face_api_server.py]: [get_all_people], [get_faces_for_image] *)

Record person_entry := mkEntry {
  e_id : Z;
  e_name : string;
  e_confirmed : bool;
  e_face_count : nat
}.

(** [LEFT JOIN faces f ON p.id = f.person_id AND
     (f.ignored IS NULL OR f.ignored = 0)]; the flag is never NULL here *)
Definition shown_faces_of (pid : Z) (d : db) : list face :=
  filter (fun f => opt_Z_eqb (f_person_id f) pid && negb (f_ignored f)) (faces d).

(** [WHERE p.name IS NOT NULL AND p.name != ''] *)
Definition entry_of (d : db) (p : person) : list person_entry :=
  match p_name p with
  | Some name =>
      if String.eqb name EmptyString then []
      else [mkEntry (p_id p) name (p_confirmed p)
                    (List.length (shown_faces_of (p_id p) d))]
  | None => []
  end.

(** [ORDER BY p.name ASC], bytewise *)
Definition name_first (a b : person_entry) : bool :=
  String.leb (e_name a) (e_name b).

Definition get_all_people (d : db) : list person_entry :=
  order_by name_first (flat_map (entry_of d) (persons d)).

Record face_entry := mkFaceEntry {
  fe_id : Z;
  fe_x : Z;
  fe_y : Z;
  fe_width : Z;
  fe_height : Z;
  fe_confidence : option Q;
  fe_person_id : option Z;
  fe_person_name : option string;
  fe_confirmed : bool;
  fe_ignored : bool
}.

(** [LEFT JOIN persons p ON f.person_id = p.id]: the person row, if any *)
Definition person_row (f : face) (d : db) : option person :=
  match f_person_id f with
  | Some pid => find (fun p => Z.eqb (p_id p) pid) (persons d)
  | None => None
  end.

Definition face_entry_of (d : db) (f : face) : face_entry :=
  let p := person_row f d in
  mkFaceEntry (f_id f) (f_x f) (f_y f) (f_width f) (f_height f)
              (f_confidence f) (f_person_id f)
              (match p with Some r => p_name r | None => None end)
              (match p with Some r => p_confirmed r | None => false end)
              (f_ignored f).

(** [ORDER BY f.confidence DESC]; NULL sorts last *)
Definition more_confident (a b : face_entry) : bool :=
  match fe_confidence a, fe_confidence b with
  | _, None => true
  | None, Some _ => false
  | Some x, Some y => Qle_bool y x
  end.

Definition get_faces_for_image (image_id : Z) (d : db) : list face_entry :=
  order_by more_confident
           (map (face_entry_of d)
                (filter (fun f => Z.eqb (f_image_id f) image_id
                                  && negb (f_ignored f))
                        (faces d))).

End Surroundings.

(** ** [get_processing_image_path]

    The file system and the two library calls on strings are parameters:
    [os.path.exists], [str.upper] and [str(Path(p).with_suffix(ext))].
    [Path.with_suffix] raises [ValueError] for a path without a file name;
    that is the [None] of [with_suffix], and of the function. *)

Record image_row := mkImage {
  i_id : Z;
  i_path : string;
  i_filename : option string;
  i_raw_proxy_type : option string
}.

(** [f"{image_id}"] *)
Definition str_int (n : Z) : string := NilZero.string_of_int (Z.to_int n).

(** [s.endswith(suffix)] *)
Definition endswith (s suffix : string) : bool :=
  let n := String.length s in
  let m := String.length suffix in
  Nat.leb m n && String.eqb (substring (n - m) m s) suffix.

(** [for ext in ['.webp', '.jpg']: for base_path in [...]:
     f"{base_path}/{image_id}{ext}"] *)
Definition heic_candidates (image_id : Z) : list string :=
  flat_map (fun ext =>
              map (fun base_path =>
                     (base_path ++ "/" ++ str_int image_id ++ ext)%string)
                  ["HEIC Proxies"; "../HEIC Proxies"]%string)
           [".webp"; ".jpg"]%string.

Definition raw_candidates (image_id : Z) : list string :=
  map (fun base_path => (base_path ++ "/" ++ str_int image_id ++ ".jpg")%string)
      ["RAW Proxies"; "../RAW Proxies"]%string.

Definition adjacent_suffixes : list string :=
  [".jpg"; ".jpeg"; ".JPG"; ".JPEG"]%string.

Section ImagePath.
Variable path_exists : string -> bool.
Variable upper : string -> string.
Variable with_suffix : string -> string -> option string.

(** [for ...: if os.path.exists(p): return p] and, after the loop, the
    original path *)
Definition first_existing (candidates : list string) (otherwise : string)
  : string :=
  match find path_exists candidates with
  | Some p => p
  | None => otherwise
  end.

(** [for ext in [...]: adjacent_jpg = original_path_obj.with_suffix(ext);
     if adjacent_jpg.exists(): return str(adjacent_jpg)] *)
Fixpoint first_adjacent (original_path : string) (suffixes : list string)
  : option string :=
  match suffixes with
  | [] => Some original_path
  | ext :: suffixes' =>
      match with_suffix original_path ext with
      | None => None
      | Some adjacent_jpg =>
          if path_exists adjacent_jpg then Some adjacent_jpg
          else first_adjacent original_path suffixes'
      end
  end.

Definition is_heic (filename : option string) : bool :=
  match filename with
  | Some s => negb (String.eqb s EmptyString) && endswith (upper s) ".HEIC"
  | None => false
  end.

Definition get_processing_image_path (image_row : image_row) : option string :=
  let original_path := i_path image_row in
  let image_id := i_id image_row in
  if is_heic (i_filename image_row)
  then Some (first_existing (heic_candidates image_id) original_path)
  else
    match i_raw_proxy_type image_row with
    | Some t =>
        if String.eqb t "custom_generated"
        then Some (first_existing (raw_candidates image_id) original_path)
        else if String.eqb t "original_jpg"
             then first_adjacent original_path adjacent_suffixes
             else Some original_path
    | None => Some original_path
    end.

End ImagePath.

(** [result] is what a search through [candidates] returns: the first one
    that exists, or [otherwise] when none does *)
Definition first_hit (path_exists : string -> bool) (candidates : list string)
           (otherwise result : string) : Prop :=
  exists tried rest,
    candidates = tried ++ rest /\
    Forall (fun c => path_exists c = false) tried /\
    match rest with
    | [] => result = otherwise
    | c :: _ => result = c /\ path_exists c = true
    end.

(** ** Vocabulary of the further statements *)

Section FurtherVocabulary.
Context {N : Numerics}.

(** a face row that kept its detection columns and, if it changed at all,
    has its id in [ids] and now points to a [fresh] person *)
Definition touched (ids : list Z) (fresh : Z -> Prop) (f f' : face) : Prop :=
  same_detection f f' /\
  (f' = f \/
   (In (f_id f) ids /\ exists pid, f_person_id f' = Some pid /\ fresh pid)).

(** a face row is as it was, or it was embedded and unassigned and now
    points to a person row of [d'] *)
Definition newly_assigned (d' : db) (f f' : face) : Prop :=
  same_detection f f' /\
  (f' = f \/
   (f_person_id f = None /\ f_embedding f <> None /\
    exists p, In p (persons d') /\ f_person_id f' = Some (p_id p))).

(** no face points to a person that is not in the table *)
Definition refs_ok (d : db) : Prop :=
  forall f pid, In f (faces d) -> f_person_id f = Some pid ->
                In pid (map p_id (persons d)).

Definition outcome_db (o : loop_outcome) : db :=
  match o with
  | Returned _ _ _ _ d => d
  | TypeError _ d => d
  end.

(** what the first [k] passes assigned and created, added up *)
Fixpoint totals (thr : Q) (msn : Z) (k : nat) (d : db) : nat * nat :=
  match k with
  | O => (0, 0)%nat
  | S k' =>
      match cluster_new_faces thr msn d with
      | (d', Some (a, n)) =>
          let '(ta, tn) := totals thr msn k' d' in ((a + ta)%nat, (n + tn)%nat)
      | (_, None) => (0, 0)%nat
      end
  end.

(** the embeddings of the faces that point to person [pid], in face order *)
Definition member_embeddings (pid : Z) (d : db) : list vec :=
  flat_map (fun f => match f_person_id f, f_embedding f with
                     | Some q, Some e => if Z.eqb q pid then [e] else []
                     | _, _ => []
                     end)
           (faces d).

(** the person row made for a cluster: [(cluster_id, person_id)] *)
Definition cluster_person (cp : Z * Z) : person :=
  mkPerson (snd cp) (Some (person_label (fst cp + 1))) false.

(** a request [assign_face_to_person] can serve: two non-zero integers that
    name a face row and a person row *)
Definition assignable (face_id person_id : option Z) (d : db) : Prop :=
  exists fid pid, face_id = Some fid /\ person_id = Some pid /\
                  fid <> 0%Z /\ pid <> 0%Z /\
                  In fid (map f_id (faces d)) /\
                  In pid (map p_id (persons d)).

(** [IS NOT NULL] *)
Definition is_assigned (f : face) : bool :=
  match f_person_id f with
  | Some _ => true
  | None => false
  end.

(** [a] may stand before [b] under [ORDER BY confidence DESC]: a known
    confidence of [b] is matched by one of [a] that is at least as high *)
Definition at_least_as_confident (a b : face_entry) : Prop :=
  forall y, fe_confidence b = Some y ->
            exists x, fe_confidence a = Some x /\ y <= x.

(** the rows [get_faces_for_image] selects *)
Definition shown_in (image_id : Z) (f : face) : bool :=
  Z.eqb (f_image_id f) image_id && negb (f_ignored f).

(** the faces that point to person [pid] *)
Definition face_count (pid : Z) (d : db) : nat :=
  List.length (faces_of pid d).

End FurtherVocabulary.

(** * Properties *)

Section Properties.
Context {N : Numerics}.
Implicit Types (d : db) (f : face) (p : person).

Ltac conjs := repeat match goal with |- _ /\ _ => split end.

Lemma Qgtb_true (a b : Q) : Qgtb a b = true <-> (b < a)%Q.
Proof.
  unfold Qgtb. rewrite negb_true_iff, <- not_true_iff_false, Qle_bool_iff.
  split; [apply Qnot_le_lt | apply Qlt_not_le].
Qed.

Lemma Qgtb_false (a b : Q) : Qgtb a b = false <-> (a <= b)%Q.
Proof.
  unfold Qgtb. rewrite negb_false_iff. apply Qle_bool_iff.
Qed.

Lemma Forall2_map_self (A B : Type) (R : A -> B -> Prop) (g : A -> B) (l : list A) :
  (forall a, In a l -> R a (g a)) -> Forall2 R l (map g l).
Proof.
  induction l as [|a l IH]; simpl; intros H; constructor.
  - apply H. now left.
  - apply IH. intros b Hb. apply H. now right.
Qed.

Lemma same_detection_refl f : same_detection f f.
Proof. repeat split. Qed.

Lemma same_detection_set pid f : same_detection f (set_person_id pid f).
Proof. repeat split. Qed.

(** ** [delete_unconfirmed_people] *)

Lemma in_unconfirmed_iff (ps : list person) f :
  in_unconfirmed ps f = true <->
  exists p, In p ps /\ p_confirmed p = false /\ f_person_id f = Some (p_id p).
Proof.
  unfold in_unconfirmed. destruct (f_person_id f) as [pid|].
  - rewrite existsb_exists. split.
    + intros (p & Hin & H). apply andb_true_iff in H as [Hc He].
      apply negb_true_iff in Hc. apply Z.eqb_eq in He. subst pid. eauto.
    + intros (p & Hin & Hc & He). injection He as ->. exists p. split; auto.
      rewrite Hc, Z.eqb_refl. reflexivity.
  - split; [discriminate | intros (p & _ & _ & H); discriminate].
Qed.

Lemma filter_none_length (A : Type) (g : A -> bool) (l : list A) :
  List.length (filter (fun a => negb (g a)) l) = 0%nat -> filter g l = l.
Proof.
  induction l as [|a l IH]; simpl; auto.
  destruct (g a); simpl; [intros H; f_equal; auto | discriminate].
Qed.

Lemma filter_none_all (A : Type) (g : A -> bool) (l : list A) :
  List.length (filter (fun a => negb (g a)) l) = 0%nat ->
  forall a, In a l -> g a = true.
Proof.
  intros H a Ha. apply filter_none_length in H. rewrite <- H in Ha.
  apply filter_In in Ha. tauto.
Qed.

Lemma delete_unconfirmed_people_rows d :
  persons (delete_unconfirmed_people d) = filter p_confirmed (persons d) /\
  faces (delete_unconfirmed_people d) =
  map (fun f => if in_unconfirmed (persons d) f then set_person_id None f else f)
      (faces d).
Proof.
  unfold delete_unconfirmed_people.
  destruct (Nat.eqb _ 0) eqn:E; simpl; [|split; reflexivity].
  apply Nat.eqb_eq in E. split.
  - symmetry. now apply filter_none_length.
  - rewrite <- (map_id (faces d)) at 1. apply map_ext_in. intros f _.
    destruct (in_unconfirmed (persons d) f) eqn:U; auto.
    apply in_unconfirmed_iff in U as (p & Hin & Hc & _).
    rewrite (filter_none_all _ _ E p Hin) in Hc. discriminate.
Qed.

(** C7.  [delete_unconfirmed_people] deletes exactly the unconfirmed person
    rows; a face row keeps every detection column (bounding box, confidence,
    embedding), loses its [person_id] when it pointed to an unconfirmed
    person and keeps it otherwise; a confirmed person and every face
    assigned to it are left as they were. *)
Theorem delete_unconfirmed_people_frame d :
  NoDup (map p_id (persons d)) ->
  let d' := delete_unconfirmed_people d in
  persons d' = filter p_confirmed (persons d) /\
  (forall p, In p (persons d') <-> In p (persons d) /\ p_confirmed p = true) /\
  Forall2 (fun f f' =>
             same_detection f f' /\
             (assigned_to_unconfirmed d f -> f_person_id f' = None) /\
             (~ assigned_to_unconfirmed d f -> f' = f))
          (faces d) (faces d') /\
  (forall p f, In p (persons d) -> p_confirmed p = true ->
               In f (faces d) -> f_person_id f = Some (p_id p) ->
               In p (persons d') /\ In f (faces d')).
Proof.
  intros Hnd d'. destruct (delete_unconfirmed_people_rows d) as [Hp Hf].
  fold d' in Hp, Hf. split; [exact Hp|]. split; [|split].
  - intros p. rewrite Hp. apply filter_In.
  - rewrite Hf. apply Forall2_map_self. intros f _.
    destruct (in_unconfirmed (persons d) f) eqn:U.
    + split; [apply same_detection_set|]. split; [reflexivity|].
      intros Hn. exfalso. apply Hn. now apply in_unconfirmed_iff.
    + split; [apply same_detection_refl|]. split; [|reflexivity].
      intros Ha. apply in_unconfirmed_iff in Ha. congruence.
  - intros p f Hin Hc Hfin Hfp. split.
    + rewrite Hp. apply filter_In. auto.
    + rewrite Hf. apply in_map_iff. exists f. split; auto.
      destruct (in_unconfirmed (persons d) f) eqn:U; auto.
      apply in_unconfirmed_iff in U as (q & Hq & Hqc & Hqf).
      rewrite Hfp in Hqf. injection Hqf as Hid.
      assert (p = q); [|congruence].
      clear - Hnd Hin Hq Hid. induction (persons d) as [|a l IH]; [easy|].
      simpl in Hnd. inversion Hnd as [|? ? Hni Hnd']; subst.
      destruct Hin as [->|Hin], Hq as [->|Hq]; auto.
      * exfalso. apply Hni. rewrite Hid. now apply in_map.
      * exfalso. apply Hni. rewrite <- Hid. now apply in_map.
Qed.

(** ** [label_person] *)

Lemma name_is_iff (name : string) p :
  name_is name p = true <-> p_name p = Some name.
Proof.
  unfold name_is. destruct (p_name p) as [s|].
  - rewrite String.eqb_eq. split; congruence.
  - split; discriminate.
Qed.

Lemma opt_Z_eqb_iff (a : option Z) (b : Z) : opt_Z_eqb a b = true <-> a = Some b.
Proof.
  destruct a as [v|]; simpl; [rewrite Z.eqb_eq|]; split; congruence.
Qed.

Lemma find_first (A : Type) (g : A -> bool) (l : list A) (a : A) :
  find g l = Some a ->
  exists l1 l2, l = l1 ++ a :: l2 /\ g a = true /\
                forall b, In b l1 -> g b = false.
Proof.
  induction l as [|b l IH]; simpl; [discriminate|].
  destruct (g b) eqn:E.
  - intros [= ->]. exists [], l. simpl. tauto.
  - intros H. destruct (IH H) as (l1 & l2 & -> & Ha & Hl1).
    exists (b :: l1), l2. simpl. repeat split; auto.
    intros c [<-|Hc]; auto.
Qed.

Lemma find_is_some (A : Type) (g : A -> bool) (l : list A) (a : A) :
  In a l -> g a = true -> exists b, find g l = Some b.
Proof.
  intros Hin Hg. destruct (find g l) as [b|] eqn:E; [eauto|].
  rewrite (find_none _ _ E a Hin) in Hg. discriminate.
Qed.

Lemma filter_twice (A : Type) (g h : A -> bool) (l : list A) :
  filter g (filter h l) = filter (fun a => g a && h a) l.
Proof.
  induction l as [|a l IH]; simpl; auto.
  destruct (h a); simpl; rewrite ?andb_true_r, ?andb_false_r;
    [destruct (g a)|]; simpl; congruence.
Qed.

(** C4, as the code has it.  When [person_id] exists and another person
    bears [name], [label_person] moves every face of [person_id] to the
    first such person in table order, removes the row of [person_id], and
    the bearers of [name] afterwards are exactly the other bearers from
    before: one bearer when there was one, several when there were
    several. *)
Theorem label_person_merge d (person_id : Z) (name : string) :
  (exists p, In p (persons d) /\ p_id p = person_id) ->
  (exists q, In q (persons d) /\ p_name q = Some name /\ p_id q <> person_id) ->
  let d' := label_person person_id name d in
  exists q before after,
    persons d = before ++ q :: after /\
    p_name q = Some name /\ p_id q <> person_id /\
    (forall r, In r before -> ~ (p_name r = Some name /\ p_id r <> person_id)) /\
    Forall2 (fun f f' =>
               same_detection f f' /\
               (f_person_id f = Some person_id -> f_person_id f' = Some (p_id q)) /\
               (f_person_id f <> Some person_id -> f' = f))
            (faces d) (faces d') /\
    (forall p, In p (persons d') <-> In p (persons d) /\ p_id p <> person_id) /\
    In q (persons d') /\
    filter (name_is name) (persons d') =
    filter (fun p => name_is name p && negb (Z.eqb (p_id p) person_id)) (persons d).
Proof.
  intros (p & Hp & Hpid) (q0 & Hq0 & Hq0n & Hq0id) d'.
  assert (E1 : exists b, find (fun p => Z.eqb (p_id p) person_id) (persons d) = Some b).
  { apply find_is_some with p; auto. now apply Z.eqb_eq. }
  assert (E2 : exists q, find (fun p => name_is name p && negb (Z.eqb (p_id p) person_id))
                              (persons d) = Some q).
  { apply find_is_some with q0; auto. apply andb_true_iff. split.
    - now apply name_is_iff.
    - apply negb_true_iff. now apply Z.eqb_neq. }
  destruct E1 as (b & E1), E2 as (q & E2).
  assert (Hd' : d' = delete_person person_id (repoint_faces (p_id q) person_id d)).
  { unfold d', label_person. now rewrite E1, E2. }
  destruct (find_first _ _ E2) as (before & after & Hsplit & Hq & Hbefore).
  apply andb_true_iff in Hq as [Hqn Hqid].
  apply name_is_iff in Hqn. apply negb_true_iff, Z.eqb_neq in Hqid.
  assert (Hpers : forall r, In r (persons d') <-> In r (persons d) /\ p_id r <> person_id).
  { intros r. rewrite Hd'. simpl. rewrite filter_In, negb_true_iff, Z.eqb_neq. tauto. }
  exists q, before, after.
  split; [exact Hsplit|]. split; [exact Hqn|]. split; [exact Hqid|].
  split; [|split; [|split; [exact Hpers|split]]].
  - intros r Hr [Hrn Hrid]. specialize (Hbefore r Hr).
    apply andb_false_iff in Hbefore as [H|H].
    + apply name_is_iff in Hrn. congruence.
    + apply negb_false_iff, Z.eqb_eq in H. contradiction.
  - rewrite Hd'. simpl. apply Forall2_map_self. intros f _.
    destruct (opt_Z_eqb (f_person_id f) person_id) eqn:E.
    + split; [apply same_detection_set|]. split; [reflexivity|].
      apply opt_Z_eqb_iff in E. contradiction.
    + split; [apply same_detection_refl|]. split; [|reflexivity].
      intros H. apply opt_Z_eqb_iff in H. congruence.
  - apply Hpers. split; auto. rewrite Hsplit. apply in_elt.
  - rewrite Hd'. simpl. apply filter_twice.
Qed.

(** ** [cluster_new_faces]: the two early returns *)

Lemma flat_map_nil (A B : Type) (g : A -> list B) (l : list A) :
  flat_map g l = [] <-> forall a, In a l -> g a = [].
Proof.
  induction l as [|a l IH]; simpl.
  - split; [intros _ ? [] | reflexivity].
  - split.
    + intros H. apply app_eq_nil in H as [Ha Hl]. intros b [<-|Hb]; auto.
      now apply IH.
    + intros H. rewrite (H a (or_introl eq_refl)). simpl. apply IH. auto.
Qed.

Lemma select_new_faces_nil d : select_new_faces d = [] <-> ~ has_new_face d.
Proof.
  unfold select_new_faces, has_new_face. rewrite flat_map_nil. split.
  - intros H (f & Hin & He & Hp). specialize (H f Hin). rewrite Hp in H.
    destruct (f_embedding f); [discriminate | contradiction].
  - intros H f Hin. destruct (f_embedding f) eqn:He; auto.
    destruct (f_person_id f) eqn:Hp; auto.
    exfalso. apply H. exists f. rewrite He, Hp. repeat split; auto. discriminate.
Qed.

Lemma select_existing_nil d : select_existing d = [] <-> ~ has_embedded_person d.
Proof.
  unfold select_existing, has_embedded_person. rewrite flat_map_nil. split.
  - intros H (p & f & Hp & Hf & Hfp & He). specialize (H f Hf).
    rewrite Hfp in H. destruct (f_embedding f); [|contradiction].
    apply map_eq_nil in H.
    assert (Hin : In p (filter (fun q => Z.eqb (p_id q) (p_id p)) (persons d))).
    { apply filter_In. split; auto. apply Z.eqb_refl. }
    rewrite H in Hin. contradiction.
  - intros H f Hf. destruct (f_embedding f) eqn:He; auto.
    destruct (f_person_id f) as [pid|] eqn:Hp; auto.
    destruct (filter (fun q => Z.eqb (p_id q) pid) (persons d)) as [|q l] eqn:E; auto.
    exfalso. apply H. exists q, f.
    assert (Hq : In q (filter (fun q => Z.eqb (p_id q) pid) (persons d))).
    { rewrite E. now left. }
    apply filter_In in Hq as [Hq Hid]. apply Z.eqb_eq in Hid.
    rewrite He, Hp, Hid. repeat split; auto. discriminate.
Qed.

Lemma cluster_new_faces_result (thr : Q) (msn : Z) d :
  (select_new_faces d = [] \/ select_existing d = [] ->
   cluster_new_faces thr msn d = (d, None)) /\
  (select_new_faces d <> [] -> select_existing d <> [] ->
   exists d' a n, cluster_new_faces thr msn d = (d', Some (a, n))).
Proof.
  unfold cluster_new_faces.
  destruct (select_new_faces d) as [|nf nfs]; [split; [auto | congruence]|].
  destruct (select_existing d) as [|ex exs]; [split; [auto | congruence]|].
  split.
  - intros [H|H]; discriminate.
  - intros _ _. destruct (mine_new_people _ _ _ _) as [d2 n]. eauto.
Qed.

(** C10.  [cluster_new_faces] returns [None] exactly when no face is both
    embedded and unassigned, or no person has an embedded face; the store is
    then left as it was; and a loop whose pass starts in such a store gets
    no pair to unpack and ends in [TypeError]. *)
Theorem cluster_new_faces_none (thr : Q) (msn : Z) d :
  (snd (cluster_new_faces thr msn d) = None <->
   ~ has_new_face d \/ ~ has_embedded_person d) /\
  (snd (cluster_new_faces thr msn d) = None ->
   fst (cluster_new_faces thr msn d) = d) /\
  (snd (cluster_new_faces thr msn d) = None ->
   forall max_iterations, (0 < max_iterations)%Z ->
     cluster_new_faces_loop thr msn max_iterations d = TypeError 1 d).
Proof.
  destruct (cluster_new_faces_result thr msn d) as [Hnone Hsome].
  rewrite <- select_new_faces_nil, <- select_existing_nil.
  assert (Hiff : snd (cluster_new_faces thr msn d) = None <->
                 select_new_faces d = [] \/ select_existing d = []).
  { split.
    - intros H. destruct (select_new_faces d) eqn:E1; auto.
      destruct (select_existing d) eqn:E2; auto.
      destruct Hsome as (d' & a & n & E); try discriminate.
      rewrite E in H. discriminate.
    - intros H. now rewrite (Hnone H). }
  split; [exact Hiff|]. split.
  - intros H. apply Hiff in H. now rewrite (Hnone H).
  - intros H max_iterations Hpos. apply Hiff in H.
    unfold cluster_new_faces_loop.
    destruct (Z.to_nat max_iterations) as [|r] eqn:E; [lia|].
    simpl. now rewrite (Hnone H).
Qed.

(** ** [cluster_new_faces_loop] *)

Lemma loop_from_run (thr : Q) (msn : Z) (remaining : nat) :
  forall ta tn it d,
    let o := loop_from thr msn remaining ta tn it d in
    (it <= iterations_run o <= it + remaining)%nat /\
    (forall j, (it + S j < iterations_run o)%nat ->
               progress (pass_result thr msn j d)) /\
    (forall k, (k < remaining)%nat ->
               pass_result thr msn k d = Some (0, 0)%nat ->
               (forall j, (j < k)%nat -> progress (pass_result thr msn j d)) ->
               exists ta' tn',
                 o = Returned ta' tn' (it + S k) true (db_after thr msn (S k) d)).
Proof.
  induction remaining as [|r IH]; intros ta tn it d; simpl.
  - split; [lia|]. split; [intros j Hj; lia | intros k Hk; lia].
  - unfold pass_result.
    destruct (cluster_new_faces thr msn d) as [d' [[a n]|]] eqn:E.
    + destruct (Nat.eqb a 0 && Nat.eqb n 0) eqn:Z0.
      * apply andb_true_iff in Z0 as [Ha Hn].
        apply Nat.eqb_eq in Ha, Hn. subst a n. simpl.
        split; [lia|]. split; [intros j Hj; lia|].
        intros k Hk Hres Hprog. destruct k as [|k].
        -- exists (ta + 0)%nat, (tn + 0)%nat. now rewrite Nat.add_1_r.
        -- destruct (Hprog 0%nat) as (a & n & Hr & Hne); [lia|].
           simpl in Hr. rewrite E in Hr. simpl in Hr.
           injection Hr as <- <-. lia.
      * specialize (IH (ta + a)%nat (tn + n)%nat (S it) d').
        destruct IH as (Hb & Hp & Hs). split; [lia|]. split.
        -- intros j Hj. destruct j as [|j].
           ++ simpl. rewrite E. simpl. exists a, n.
              split; auto. apply andb_false_iff in Z0 as [H|H];
                apply Nat.eqb_neq in H; auto.
           ++ simpl. rewrite E. simpl. apply Hp. lia.
        -- intros k Hk Hres Hprog. destruct k as [|k].
           ++ simpl in Hres. rewrite E in Hres.
              simpl in Hres. injection Hres as -> ->. discriminate.
           ++ destruct (Hs k) as (ta' & tn' & Ho); [lia| | |].
              ** simpl in Hres. now rewrite E in Hres.
              ** intros j Hj. specialize (Hprog (S j)).
                 simpl in Hprog. rewrite E in Hprog. apply Hprog. lia.
              ** exists ta', tn'. rewrite Ho. f_equal. lia.
    + simpl. split; [lia|]. split; [intros j Hj; lia|].
      intros k Hk Hres Hprog. destruct k as [|k].
      * simpl in Hres. rewrite E in Hres. discriminate.
      * destruct (Hprog 0%nat) as (a & n & Hr & _); [lia|].
        simpl in Hr. rewrite E in Hr. discriminate.
Qed.

(** C9.  A run of [cluster_new_faces_loop] makes at most [max_iterations]
    passes; every pass before its last one made progress; and the first
    pass that assigns nothing and creates nobody is the last one: the loop
    returns there through [break]. *)
Theorem cluster_new_faces_loop_stops (thr : Q) (msn max_iterations : Z) d :
  let o := cluster_new_faces_loop thr msn max_iterations d in
  (Z.of_nat (iterations_run o) <= Z.max 0 max_iterations)%Z /\
  (forall j, (S j < iterations_run o)%nat -> progress (pass_result thr msn j d)) /\
  (forall k, (Z.of_nat k < max_iterations)%Z ->
             pass_result thr msn k d = Some (0, 0)%nat ->
             (forall j, (j < k)%nat -> progress (pass_result thr msn j d)) ->
             exists total_assigned total_new_people,
               o = Returned total_assigned total_new_people (S k) true
                            (db_after thr msn (S k) d)).
Proof.
  intros o. unfold o, cluster_new_faces_loop.
  destruct (loop_from_run thr msn (Z.to_nat max_iterations) 0 0 0 d)
    as (Hb & Hp & Hs).
  split; [lia|]. split.
  - intros j Hj. apply Hp. simpl. exact Hj.
  - intros k Hk Hres Hprog. apply (Hs k); auto. lia.
Qed.

(** ** The closest person *)

Section Closest.
Variables (thr : Q) (e : vec).

Let sim (item : Z * vec) : Q := cosine_similarity e (snd item).

Lemma closer_cases (best : option Z * Q) (item : Z * vec) :
  (snd best < sim item /\ thr < sim item /\
   closer thr e best item = (Some (fst item), sim item)) \/
  ((sim item <= snd best \/ sim item <= thr) /\ closer thr e best item = best).
Proof.
  destruct best as [b s], item as [q c]. unfold closer, sim. simpl.
  destruct (Qgtb (cosine_similarity e c) s) eqn:E1;
    destruct (Qgtb (cosine_similarity e c) thr) eqn:E2; simpl;
    rewrite ?Qgtb_true, ?Qgtb_false in *; auto.
Qed.

(** items that do not beat the current best leave it in place *)
Lemma closest_keep (cs : list (Z * vec)) (b : option Z) (s : Q) :
  (forall x, In x cs -> sim x <= s) ->
  fold_left (closer thr e) cs (b, s) = (b, s).
Proof.
  induction cs as [|x cs IH]; intros H; cbn [fold_left]; [reflexivity|].
  destruct (closer_cases (b, s) x) as [(H1 & _)|(_ & ->)].
  - simpl in H1. specialize (H x (or_introl eq_refl)). lra.
  - apply IH. intros y Hy. apply H. now right.
Qed.

(** items below [m] keep the best similarity below [m] *)
Lemma closest_below (cs : list (Z * vec)) (m : Q) :
  forall b s, s < m -> (forall x, In x cs -> sim x < m) ->
              snd (fold_left (closer thr e) cs (b, s)) < m.
Proof.
  induction cs as [|x cs IH]; intros b s Hs H; cbn [fold_left]; [exact Hs|].
  destruct (closer_cases (b, s) x) as [(_ & _ & ->)|(_ & ->)]; apply IH; auto;
    try (intros y Hy; apply H; now right).
  apply H. now left.
Qed.

(** what the scan of the centroids returns *)
Lemma closest_person_spec (cs : list (Z * vec)) :
  match closest_person thr e cs with
  | (None, s) => s = 0 /\ forall x, In x cs -> sim x <= 0 \/ sim x <= thr
  | (Some p, s) =>
      exists l1 c l2,
        cs = l1 ++ (p, c) :: l2 /\ s = cosine_similarity e c /\
        thr < s /\ 0 < s /\
        (forall x, In x l1 -> sim x < s) /\ (forall x, In x l2 -> sim x <= s)
  end.
Proof.
  unfold closest_person.
  set (inv := fun (seen : list (Z * vec)) (best : option Z * Q) =>
    match best with
    | (None, s) => s = 0 /\ forall x, In x seen -> sim x <= 0 \/ sim x <= thr
    | (Some p, s) =>
        exists l1 c l2,
          seen = l1 ++ (p, c) :: l2 /\ s = cosine_similarity e c /\
          thr < s /\ 0 < s /\
          (forall x, In x l1 -> sim x < s) /\ (forall x, In x l2 -> sim x <= s)
    end).
  assert (G : forall rest seen best,
             inv seen best -> inv (seen ++ rest) (fold_left (closer thr e) rest best)).
  { induction rest as [|x rest IH]; intros seen best Hinv; cbn [fold_left].
    - now rewrite app_nil_r.
    - replace (seen ++ x :: rest) with ((seen ++ [x]) ++ rest)
        by (rewrite <- app_assoc; reflexivity).
      apply IH.
      destruct (closer_cases best x) as [(H1 & H2 & ->)|(H1 & ->)];
        destruct best as [[p|] s]; simpl in *.
      + destruct Hinv as (l1 & c & l2 & -> & -> & Ht & H0 & Hl1 & Hl2).
        destruct x as [q c']. exists (l1 ++ (p, c) :: l2), c', []. simpl.
        repeat split; try (unfold sim in *; simpl in *; lra).
        * intros x Hx. apply in_app_or in Hx as [Hx|[<-|Hx]].
          -- specialize (Hl1 x Hx). lra.
          -- exact H1.
          -- specialize (Hl2 x Hx). lra.
        * intros x [].
      + destruct Hinv as [-> Hall]. destruct x as [q c']. exists seen, c', []. simpl.
        repeat split; try (unfold sim in *; simpl in *; lra).
        * intros x Hx. destruct (Hall x Hx); lra.
        * intros x [].
      + destruct Hinv as (l1 & c & l2 & -> & -> & Ht & H0 & Hl1 & Hl2).
        exists l1, c, (l2 ++ [x]). rewrite <- app_assoc. simpl.
        repeat split; auto.
        intros y Hy. apply in_app_or in Hy as [Hy|[<-|[]]]; auto.
        destruct H1; lra.
      + destruct Hinv as [-> Hall]. split; auto.
        intros y Hy. apply in_app_or in Hy as [Hy|[<-|[]]]; auto. }
  specialize (G cs [] (None, 0)). simpl in G. apply G. split; auto.
  intros x [].
Qed.

(** a centroid that is the first to reach the largest similarity, with that
    similarity above the threshold and above zero, is the one returned *)
Lemma closest_person_first_max (before after : list (Z * vec)) (p : Z) (c : vec) :
  thr < cosine_similarity e c -> 0 < cosine_similarity e c ->
  (forall x, In x before -> sim x < cosine_similarity e c) ->
  (forall x, In x after -> sim x <= cosine_similarity e c) ->
  closest_person thr e (before ++ (p, c) :: after) = (Some p, cosine_similarity e c).
Proof.
  intros Ht H0 Hb Ha. unfold closest_person. rewrite fold_left_app.
  cbn [fold_left].
  pose proof (closest_below before (None : option Z) H0 Hb) as Hs.
  destruct (fold_left (closer thr e) before (None, 0)) as [b s]. simpl in Hs.
  destruct (closer_cases (b, s) (p, c)) as [(_ & _ & ->)|(H & _)].
  - simpl. apply closest_keep. exact Ha.
  - unfold sim in H. simpl in H. destruct H; lra.
Qed.

End Closest.

(** ** Face rows under the updates *)

Lemma find_map_stable (A : Type) (pred : A -> bool) (g : A -> A) (l : list A) :
  (forall a, pred (g a) = pred a) ->
  find pred (map g l) = option_map g (find pred l).
Proof.
  intros H. induction l as [|a l IH]; simpl; auto.
  rewrite H. destruct (pred a); auto.
Qed.

Lemma person_of_update (pid fid' fid : Z) d :
  person_of fid (update_face_person pid fid' d) =
  if Z.eqb fid' fid then option_map (fun _ => Some pid) (person_of fid d)
  else person_of fid d.
Proof.
  unfold person_of, update_face_person. cbn [faces].
  rewrite find_map_stable.
  2:{ intros a. destruct (Z.eqb (f_id a) fid'); reflexivity. }
  destruct (find (fun f => Z.eqb (f_id f) fid) (faces d)) as [f|] eqn:E;
    cbn [option_map]; [|destruct (Z.eqb fid' fid); reflexivity].
  apply find_some in E as [_ E]. apply Z.eqb_eq in E. rewrite E.
  rewrite (Z.eqb_sym fid fid'). destruct (Z.eqb fid' fid); reflexivity.
Qed.

Lemma assign_all_rows (pid : Z) (ids : list Z) :
  forall d, assign_all pid ids d =
            mkDb (map (fun f => if existsb (Z.eqb (f_id f)) ids
                                then set_person_id (Some pid) f else f)
                      (faces d))
                 (persons d) (persons_seq d).
Proof.
  unfold assign_all. induction ids as [|i ids IH]; intros d; cbn [fold_left].
  - destruct d as [fs ps sq]. cbn. f_equal. symmetry. apply map_id.
  - rewrite IH. unfold update_face_person. cbn [faces persons persons_seq].
    f_equal. rewrite map_map. apply map_ext. intros f. cbn [existsb].
    destruct (Z.eqb (f_id f) i); cbn [orb f_id set_person_id]; [|reflexivity].
    destruct (existsb (Z.eqb (f_id f)) ids); reflexivity.
Qed.

Lemma assign_all_frame (pid : Z) (ids : list Z) d :
  persons (assign_all pid ids d) = persons d /\
  persons_seq (assign_all pid ids d) = persons_seq d /\
  Forall2 same_detection (faces d) (faces (assign_all pid ids d)).
Proof.
  rewrite assign_all_rows. cbn [faces persons persons_seq]. repeat split.
  apply Forall2_map_self. intros f _.
  destruct (existsb _ ids); [apply same_detection_set | apply same_detection_refl].
Qed.

Lemma person_of_assign_all (pid fid : Z) (ids : list Z) :
  forall d, person_of fid (assign_all pid ids d) =
            if existsb (Z.eqb fid) ids
            then option_map (fun _ => Some pid) (person_of fid d)
            else person_of fid d.
Proof.
  unfold assign_all. induction ids as [|i ids IH]; intros d;
    cbn [fold_left existsb]; [reflexivity|].
  rewrite IH, person_of_update. rewrite (Z.eqb_sym fid i).
  destruct (Z.eqb i fid), (existsb (Z.eqb fid) ids); cbn [orb]; auto.
  now destruct (person_of fid d).
Qed.

Lemma person_of_unassigned (fid : Z) (e : vec) d :
  NoDup (map f_id (faces d)) ->
  In (fid, e) (select_new_faces d) ->
  person_of fid d = Some None.
Proof.
  unfold select_new_faces, person_of. intros Hnd Hin.
  apply in_flat_map in Hin as (f & Hf & Hin).
  destruct (f_embedding f) eqn:He; [|contradiction].
  destruct (f_person_id f) eqn:Hp; [contradiction|].
  destruct Hin as [[= Hid _]|[]].
  induction (faces d) as [|a l IH]; [contradiction|].
  cbn [map] in Hnd. inversion Hnd as [|? ? Hni Hnd']; subst.
  cbn [find]. destruct (Z.eqb (f_id a) (f_id f)) eqn:E.
  - apply Z.eqb_eq in E. destruct Hf as [->|Hf]; [simpl; now rewrite Hp|].
    exfalso. apply Hni. rewrite E. now apply in_map.
  - destruct Hf as [->|Hf]; [rewrite Z.eqb_refl in E; discriminate|auto].
Qed.

Lemma select_new_faces_NoDup d :
  NoDup (map f_id (faces d)) -> NoDup (map fst (select_new_faces d)).
Proof.
  unfold select_new_faces. induction (faces d) as [|a l IH]; cbn [map flat_map];
    intros Hnd; [constructor|].
  inversion Hnd as [|? ? Hni Hnd']; subst.
  assert (Hsub : forall i, In i (map fst
            (flat_map (fun f => match f_embedding f, f_person_id f with
                                | Some e, None => [(f_id f, e)]
                                | _, _ => []
                                end) l)) -> In i (map f_id l)).
  { intros i Hi. apply in_map_iff in Hi as ([i' e'] & <- & Hi).
    apply in_flat_map in Hi as (f & Hf & Hi).
    destruct (f_embedding f); [|contradiction].
    destruct (f_person_id f); [contradiction|].
    destruct Hi as [[= <- _]|[]]. cbn [fst]. now apply in_map. }
  destruct (f_embedding a); [|auto]. destruct (f_person_id a); [auto|].
  cbn [app map fst]. constructor; auto.
Qed.

(** ** Phase 1 of [cluster_new_faces] *)

Lemma same_detection_trans f g h :
  same_detection f g -> same_detection g h -> same_detection f h.
Proof.
  unfold same_detection. intros H1 H2.
  decompose [and] H1. decompose [and] H2. repeat split; congruence.
Qed.

Lemma Forall2_same_refl (l : list face) : Forall2 same_detection l l.
Proof. induction l; constructor; auto using same_detection_refl. Qed.

Lemma Forall2_same_trans (l1 l2 l3 : list face) :
  Forall2 same_detection l1 l2 -> Forall2 same_detection l2 l3 ->
  Forall2 same_detection l1 l3.
Proof.
  intros H. revert l3. induction H; intros l3 H3; inversion H3; subst;
    constructor; eauto using same_detection_trans.
Qed.

Lemma update_face_person_same (pid fid : Z) d :
  Forall2 same_detection (faces d) (faces (update_face_person pid fid d)).
Proof.
  unfold update_face_person. cbn [faces]. apply Forall2_map_self. intros f _.
  destruct (Z.eqb (f_id f) fid);
    [apply same_detection_set | apply same_detection_refl].
Qed.

Lemma dict_set_keys (V : Type) (k : Z) (v v' : V) (m : list (Z * V)) :
  dict_get k m = Some v -> map fst (dict_set k v' m) = map fst m.
Proof.
  induction m as [|[k0 v0] m IH]; cbn [dict_get dict_set]; [discriminate|].
  destruct (Z.eqb k0 k) eqn:E; cbn [map fst].
  - intros _. apply Z.eqb_eq in E. now subst.
  - intros H. now rewrite IH.
Qed.

Lemma match_face_deferred (thr : Q) (st : pass_state) (fid : Z) (e : vec) :
  truthy (fst (closest_person thr e (st_centroids st))) = None ->
  match_face thr st (fid, e) =
  mkPass (st_db st) (st_centroids st) (st_assigned st)
         (st_unmatched st ++ [(fid, e)]).
Proof. unfold match_face. now intros ->. Qed.

Lemma match_face_assigned (thr : Q) (st : pass_state) (fid : Z) (e : vec) (p : Z) :
  truthy (fst (closest_person thr e (st_centroids st))) = Some p ->
  let st' := match_face thr st (fid, e) in
  st_db st' = update_face_person p fid (st_db st) /\
  st_assigned st' = S (st_assigned st) /\
  st_unmatched st' = st_unmatched st /\
  map fst (st_centroids st') = map fst (st_centroids st).
Proof.
  unfold match_face. intros ->. cbn. repeat split.
  destruct (dict_get p (st_centroids st)) eqn:E; [|reflexivity].
  eapply dict_set_keys; eauto.
Qed.

Lemma update_face_person_frame (pid fid : Z) d :
  persons (update_face_person pid fid d) = persons d /\
  persons_seq (update_face_person pid fid d) = persons_seq d.
Proof. split; reflexivity. Qed.

Lemma match_faces_inv (thr : Q) (l : list (Z * vec)) :
  forall st, NoDup (map fst l) ->
    let st' := match_faces thr l st in
    persons (st_db st') = persons (st_db st) /\
    persons_seq (st_db st') = persons_seq (st_db st) /\
    map fst (st_centroids st') = map fst (st_centroids st) /\
    Forall2 same_detection (faces (st_db st)) (faces (st_db st')) /\
    (st_assigned st <= st_assigned st')%nat /\
    (st_assigned st' = st_assigned st -> st_db st' = st_db st) /\
    (forall fid, ~ In fid (map fst l) ->
                 person_of fid (st_db st') = person_of fid (st_db st)) /\
    exists deferred,
      st_unmatched st' = st_unmatched st ++ deferred /\
      (forall x, In x deferred -> In x l) /\
      NoDup (map fst deferred) /\
      (forall x, In x deferred ->
                 person_of (fst x) (st_db st') = person_of (fst x) (st_db st)) /\
      (st_assigned st' + List.length deferred =
       st_assigned st + List.length l)%nat.
Proof.
  unfold match_faces.
  induction l as [|[fid e] l IH]; intros st Hnd; cbn [fold_left].
  - conjs; auto using Forall2_same_refl.
    exists []. rewrite app_nil_r. conjs; auto; constructor.
  - cbn [map fst] in Hnd. inversion Hnd as [|? ? Hni Hnd']; subst.
    specialize (IH (match_face thr st (fid, e)) Hnd').
    destruct IH as (Hp & Hs & Hk & Hf & Hle & Heq & Hout & def & Hun & Hin & Hdn & Hdp & Hcnt).
    destruct (truthy (fst (closest_person thr e (st_centroids st)))) as [p|] eqn:T.
    + destruct (@match_face_assigned thr st fid e p T) as (Hdb & Ha & Hu & Hkeys).
      rewrite Hp, Hs, Hk, Hdb, Hkeys. conjs; auto.
      * eapply Forall2_same_trans; [|exact Hf]. rewrite Hdb.
        apply update_face_person_same.
      * lia.
      * intros H. lia.
      * intros f Hf'. rewrite Hout by (cbn [map fst In] in Hf'; tauto).
        rewrite Hdb, person_of_update.
        destruct (Z.eqb fid f) eqn:E; auto. apply Z.eqb_eq in E.
        exfalso. apply Hf'. now left.
      * exists def. rewrite Hun, Hu. conjs; auto.
        -- intros x Hx. right. auto.
        -- intros x Hx. rewrite Hdp by auto. rewrite Hdb, person_of_update.
           destruct (Z.eqb fid (fst x)) eqn:E; auto. apply Z.eqb_eq in E.
           exfalso. apply Hni. rewrite E. apply in_map. auto.
        -- cbn [List.length]. lia.
    + rewrite (@match_face_deferred thr st fid e T) in *. cbn [st_db st_centroids
        st_assigned st_unmatched] in *. conjs; auto.
      * intros f Hf'. apply Hout. cbn [map fst In] in Hf'. tauto.
      * exists ((fid, e) :: def). rewrite Hun, <- app_assoc. conjs; auto.
        -- intros x [<-|Hx]; [now left | right; auto].
        -- cbn [map fst]. constructor; auto.
           intros H. apply Hni. apply in_map_iff in H as (x & Hx1 & Hx2).
           rewrite <- Hx1. apply in_map. auto.
        -- intros x [<-|Hx]; auto.
        -- cbn [List.length]. lia.
Qed.

(** ** New person rows *)

Lemma max_person_id_bound (ps : list person) p :
  In p ps -> (p_id p <= max_person_id ps)%Z.
Proof.
  induction ps as [|a l IH]; cbn [In max_person_id fold_right]; [tauto|].
  intros [->|H]; [lia|]. specialize (IH H). unfold max_person_id in IH. lia.
Qed.

Lemma repointed_refl (fresh : Z -> Prop) f : repointed fresh f f.
Proof. split; [apply same_detection_refl | now left]. Qed.

Lemma repointed_trans (fresh : Z -> Prop) f g h :
  repointed fresh f g -> repointed fresh g h -> repointed fresh f h.
Proof.
  intros [S1 H1] [S2 H2]. split; [eauto using same_detection_trans|].
  destruct H2 as [H2|H2]; [rewrite H2|]; auto.
Qed.

Lemma Forall2_repointed_trans (fresh fresh' : Z -> Prop) (l1 l2 l3 : list face) :
  (forall pid, fresh pid -> fresh' pid) ->
  Forall2 (repointed fresh) l1 l2 -> Forall2 (repointed fresh') l2 l3 ->
  Forall2 (repointed fresh') l1 l3.
Proof.
  intros Hm H. revert l3. induction H as [|f g l1 l2 Hfg H IH]; intros l3 H3;
    inversion H3; subst; constructor; auto.
  apply repointed_trans with g; auto.
  destruct Hfg as [S [E|(pid & E & Hfr)]]; split; eauto.
Qed.

Lemma extends_refl (s0 : Z) d : extends s0 [] d d.
Proof.
  unfold extends. rewrite app_nil_r. conjs; auto; try lia; [constructor|].
  rewrite <- (map_id (faces d)) at 2. apply Forall2_map_self.
  intros; apply repointed_refl.
Qed.

(** one [INSERT INTO persons] followed by the updates of its faces *)
Lemma extends_step (s0 : Z) (news : list person) d0 d (name : string) (ids : list Z) :
  extends s0 news d0 d -> (s0 <= persons_seq d0)%Z ->
  let new_id := snd (insert_person name d) in
  extends s0 (news ++ [mkPerson new_id (Some name) false]) d0
          (assign_all new_id ids (fst (insert_person name d))) /\
  (forall p, In p (persons d) -> (p_id p < new_id)%Z) /\
  (persons_seq d < new_id)%Z.
Proof.
  intros (Hp & Hn & Hnd & Hs & Hf) H0 new_id.
  assert (Hseq : (persons_seq d < new_id)%Z) by (unfold new_id; cbn; lia).
  assert (Hold : forall p, In p (persons d) -> (p_id p < new_id)%Z).
  { intros p Hin. apply max_person_id_bound in Hin. unfold new_id. cbn. lia. }
  split; [|split; assumption].
  unfold extends. rewrite assign_all_rows. cbn [faces persons persons_seq fst insert_person].
  fold new_id. conjs.
  - rewrite app_assoc, <- Hp. reflexivity.
  - apply Forall_app. split.
    + eapply Forall_impl; [|exact Hn]. cbn. intros p [H1 H2]. split; auto. lia.
    + constructor; [|constructor]. cbn. split; auto. lia.
  - rewrite map_app. apply NoDup_app; auto.
    + cbn. constructor; [intros []|constructor].
    + intros a Ha Hin. cbn in Hin. destruct Hin as [E|[]].
      apply in_map_iff in Ha as (q & Hq1 & Hq).
      rewrite Forall_forall in Hn. specialize (Hn q Hq). cbn in Hn. lia.
  - lia.
  - eapply Forall2_repointed_trans; [|exact Hf|].
    + cbn. intros pid [H1 H2]. split; auto. rewrite map_app. apply in_or_app. auto.
    + apply Forall2_map_self. intros f _.
      destruct (existsb (Z.eqb (f_id f)) ids); [|apply repointed_refl].
      split; [apply same_detection_set|]. right. exists new_id. cbn.
      split; auto. split; [lia|]. rewrite map_app. apply in_or_app. right.
      now left.
Qed.

Lemma mint_fold (nc : nat) (ids labels cs : list Z) :
  forall (s0 : Z) (news : list person) d0 d (k : nat),
    extends s0 news d0 d -> (s0 <= persons_seq d0)%Z ->
    exists news',
      extends s0 (news ++ news') d0
              (fst (fold_left (mint_person nc ids labels) cs (d, k))) /\
      List.length news' = List.length cs /\
      snd (fold_left (mint_person nc ids labels) cs (d, k)) =
      (k + List.length cs)%nat.
Proof.
  induction cs as [|c cs IH]; intros s0 news d0 d k He H0; cbn [fold_left].
  - exists []. rewrite app_nil_r. cbn. auto.
  - change (mint_person nc ids labels (d, k) c) with
      (assign_all (snd (insert_person (person_label (Z.of_nat (nc + k + 1))) d))
                  (members ids labels c)
                  (fst (insert_person (person_label (Z.of_nat (nc + k + 1))) d)),
       S k).
    cbn [insert_person fst snd].
    pose proof (@extends_step s0 news d0 d
                  (person_label (Z.of_nat (nc + k + 1)))
                  (members ids labels c) He H0) as (He' & _ & _).
    cbn [insert_person fst snd] in He'.
    destruct (IH _ _ _ _ (S k) He' H0) as (news' & He'' & Hl & Hk).
    exists (mkPerson (Z.max (persons_seq d) (max_person_id (persons d)) + 1)
                     (Some (person_label (Z.of_nat (nc + k + 1)))) false :: news').
    rewrite <- app_assoc in He''. cbn [app] in He''. conjs; auto.
    + cbn [List.length]. now rewrite Hl.
    + rewrite Hk. cbn [List.length]. lia.
Qed.

Lemma create_fold (ids labels cs : list Z) :
  forall (s0 : Z) (news : list person) d0 d,
    extends s0 news d0 d -> (s0 <= persons_seq d0)%Z ->
    exists news',
      extends s0 (news ++ news') d0
              (fold_left (create_person_for ids labels) cs d) /\
      List.length news' = List.length cs.
Proof.
  induction cs as [|c cs IH]; intros s0 news d0 d He H0; cbn [fold_left].
  - exists []. rewrite app_nil_r. cbn. auto.
  - change (create_person_for ids labels d c) with
      (assign_all (snd (insert_person (person_label (c + 1)) d))
                  (members ids labels c)
                  (fst (insert_person (person_label (c + 1)) d))).
    cbn [insert_person fst snd].
    pose proof (@extends_step s0 news d0 d (person_label (c + 1))
                  (members ids labels c) He H0) as (He' & _ & _).
    cbn [insert_person fst snd] in He'.
    destruct (IH _ _ _ _ He' H0) as (news' & He'' & Hl).
    exists (mkPerson (Z.max (persons_seq d) (max_person_id (persons d)) + 1)
                     (Some (person_label (c + 1))) false :: news').
    rewrite <- app_assoc in He''. cbn [app] in He''. conjs; auto.
    cbn [List.length]. now rewrite Hl.
Qed.

(** ** [cluster_faces] *)

Lemma Forall2_map_left (A B C : Type) (R : B -> C -> Prop) (g : A -> B)
      (l : list A) (l' : list C) :
  Forall2 R (map g l) l' -> Forall2 (fun a c => R (g a) c) l l'.
Proof.
  revert l'. induction l as [|a l IH]; intros l' H; inversion H; subst;
    constructor; auto.
Qed.

(** C6.  With at least [min_samples] embedded faces, [cluster_faces] leaves
    no person row from before the call (the rows afterwards are unconfirmed
    and carry ids never used before), and every face, its detection columns
    untouched, is either unassigned or assigned to one of the new rows. *)
Theorem cluster_faces_resets (eps : Q) (min_samples : Z) d :
  Forall (fun p => (p_id p <= persons_seq d)%Z) (persons d) ->
  (min_samples <= Z.of_nat (List.length (select_embedded d)))%Z ->
  let d' := cluster_faces eps min_samples d in
  (forall p, In p (persons d') ->
             ~ In (p_id p) (map p_id (persons d)) /\ p_confirmed p = false) /\
  (forall p, In p (persons d) -> ~ In p (persons d')) /\
  Forall2 (fun f f' =>
             same_detection f f' /\
             (f_person_id f' = None \/
              exists p, In p (persons d') /\ f_person_id f' = Some (p_id p) /\
                        ~ In (p_id p) (map p_id (persons d))))
          (faces d) (faces d').
Proof.
  intros Hwf Hn d'.
  assert (Hfresh : forall pid, (persons_seq d < pid)%Z ->
                               ~ In pid (map p_id (persons d))).
  { intros pid Hq Hin. apply in_map_iff in Hin as (r & Hr & Hin).
    rewrite Forall_forall in Hwf. specialize (Hwf r Hin). lia. }
  unfold d', cluster_faces.
  destruct (Z.ltb_spec (Z.of_nat (List.length (select_embedded d))) min_samples)
    as [Hlt|_]; [lia|].
  set (d0 := delete_all_persons (clear_all_person_ids d)).
  destruct (@create_fold (map fst (select_embedded d))
              (DBSCAN eps min_samples (map snd (select_embedded d)))
              (unique_clusters (DBSCAN eps min_samples (map snd (select_embedded d))))
              (persons_seq d) [] d0 d0 (extends_refl _ d0))
    as (news & (Hp & Hnews & _ & _ & Hf) & _); [cbn; lia|].
  cbn [app] in Hp, Hnews, Hf. rewrite Forall_forall in Hnews.
  set (res := fold_left _ _ d0) in *. cbn [d0 delete_all_persons persons app] in Hp.
  conjs.
  - intros p Hin. rewrite Hp in Hin. destruct (Hnews p Hin) as [Hid Hc].
    split; auto. apply Hfresh. lia.
  - intros p Hin Hin'. rewrite Hp in Hin'. destruct (Hnews p Hin') as [Hid _].
    apply (Hfresh (p_id p)); [lia | now apply in_map].
  - cbn [d0 delete_all_persons clear_all_person_ids faces] in Hf.
    apply Forall2_map_left in Hf.
    eapply Forall2_impl; [|exact Hf]. cbn.
    intros f f' [Hs [He|(pid & He & Hgt & Hin)]]; split;
      try (eapply same_detection_trans; [apply (same_detection_set None)|exact Hs]).
    + left. exact He.
    + right. apply in_map_iff in Hin as (q & <- & Hq). exists q.
      rewrite Hp. conjs; auto.
Qed.

(** ** Phase 2 of [cluster_new_faces] *)

Lemma cluster_new_faces_run (thr : Q) (msn : Z) d :
  select_new_faces d <> [] -> select_existing d <> [] ->
  cluster_new_faces thr msn d =
  let st := match_faces thr (select_new_faces d) (pass_start d) in
  let r := mine_new_people msn (List.length (st_centroids st))
                           (st_unmatched st) (st_db st) in
  (fst r, Some (st_assigned st, snd r)).
Proof.
  unfold cluster_new_faces, pass_start.
  destruct (select_new_faces d) as [|nf nfs]; [congruence|].
  destruct (select_existing d) as [|ex exs]; [congruence|]. intros _ _.
  cbv zeta. now destruct (mine_new_people _ _ _ _).
Qed.

Lemma unique_clusters_one (labels : list Z) (c : Z) :
  c <> (-1)%Z -> (forall l, In l labels -> l = c \/ l = (-1)%Z) ->
  In c labels -> unique_clusters labels = [c].
Proof.
  intros Hc Hall Hin. unfold unique_clusters.
  assert (G : fold_right insert_label []
                (filter (fun l => negb (Z.eqb l (-1))) labels) = [] \/
              fold_right insert_label []
                (filter (fun l => negb (Z.eqb l (-1))) labels) = [c]).
  { clear Hin. induction labels as [|l ls IH]; cbn [filter fold_right]; auto.
    assert (IH' := IH (fun x Hx => Hall x (or_intror Hx))).
    destruct (Hall l (or_introl eq_refl)) as [->| ->].
    - destruct (Z.eqb_spec c (-1)); [contradiction|]. cbn [negb fold_right].
      destruct IH' as [-> | ->]; cbn [insert_label]; auto.
      rewrite Z.ltb_irrefl, Z.eqb_refl. auto.
    - cbn. auto. }
  destruct G as [G|G]; auto. exfalso.
  assert (Hc' : In c (filter (fun l => negb (Z.eqb l (-1))) labels)).
  { apply filter_In. split; auto. apply negb_true_iff. now apply Z.eqb_neq. }
  clear - G Hc'. revert G.
  induction (filter (fun l => negb (Z.eqb l (-1))) labels) as [|x xs IH];
    [contradiction|].
  cbn [fold_right]. intros G.
  assert (Hne : forall a s, insert_label a s <> []).
  { intros a [|b s]; cbn; [discriminate|].
    destruct (Z.ltb a b); [discriminate|]. destruct (Z.eqb a b); discriminate. }
  now apply Hne in G.
Qed.

Lemma members_length (ids labels : list Z) (c : Z) :
  List.length labels = List.length ids ->
  List.length (members ids labels c) = count_occ Z.eq_dec labels c.
Proof.
  unfold members. revert labels.
  induction ids as [|i ids IH]; intros [|l ls] H; try discriminate; auto.
  cbn [combine filter snd count_occ]. injection H as H.
  destruct (Z.eq_dec l c) as [->|Hn].
  - rewrite Z.eqb_refl. cbn [map List.length]. now rewrite IH.
  - destruct (Z.eqb_spec l c); [contradiction|]. now apply IH.
Qed.

Lemma members_incl (ids labels : list Z) (c x : Z) :
  In x (members ids labels c) -> In x ids.
Proof.
  unfold members. intros H. apply in_map_iff in H as ([i l] & <- & H).
  apply filter_In in H as [H _]. now apply in_combine_l in H.
Qed.

Lemma members_NoDup (ids labels : list Z) (c : Z) :
  NoDup ids -> NoDup (members ids labels c).
Proof.
  revert labels. induction ids as [|i ids IH]; intros [|l ls] H;
    try (cbn; constructor).
  inversion H as [|? ? Hni Hnd]; subst.
  unfold members. cbn [combine filter snd].
  destruct (Z.eqb l c); cbn [map fst]; [|apply IH; auto].
  constructor; [|apply IH; auto].
  intros Hin. apply Hni. eapply members_incl. exact Hin.
Qed.

Lemma existsb_eqb_In (x : Z) (l : list Z) : In x l -> existsb (Z.eqb x) l = true.
Proof.
  intros H. apply existsb_exists. exists x. split; auto. apply Z.eqb_refl.
Qed.

(** what phase 1 leaves behind, in terms of the store it started from *)
Lemma phase1_summary (thr : Q) d :
  NoDup (map f_id (faces d)) ->
  let st := match_faces thr (select_new_faces d) (pass_start d) in
  persons (st_db st) = persons d /\
  persons_seq (st_db st) = persons_seq d /\
  NoDup (map fst (st_unmatched st)) /\
  (forall x, In x (st_unmatched st) -> In x (select_new_faces d)) /\
  (forall x, In x (st_unmatched st) -> person_of (fst x) (st_db st) = Some None).
Proof.
  intros Hnd st.
  destruct (@match_faces_inv thr (select_new_faces d) (pass_start d)
              (select_new_faces_NoDup d Hnd))
    as (Hp & Hs & _ & _ & _ & _ & _ & def & Hun & Hin & Hdn & Hdp & _).
  fold st in Hp, Hs, Hun, Hdp. cbn [pass_start st_db st_unmatched app] in *.
  rewrite Hun. conjs; auto.
  intros [fid e] Hx. rewrite Hdp by exact Hx. cbn [fst].
  apply person_of_unassigned with e; auto.
Qed.

(** C5.  After the matching phase of [cluster_new_faces]: with fewer than
    [min_samples_new] unmatched faces no person row is added and every
    unmatched face is still unassigned; and when [fit_predict] finds in the
    unmatched faces one dense group (one cluster label [c], carried by at
    least [min_samples_new] of them, the rest noise), exactly one person row
    is added, unconfirmed, and at least [min_samples_new] distinct unmatched
    faces are assigned to it. *)
Theorem new_identity_gating (thr : Q) (msn : Z) d :
  NoDup (map f_id (faces d)) ->
  let st := match_faces thr (select_new_faces d) (pass_start d) in
  let unmatched := st_unmatched st in
  let r := cluster_new_faces thr msn d in
  ((Z.of_nat (List.length unmatched) < msn)%Z ->
   persons (fst r) = persons d /\
   (forall x, In x unmatched -> person_of (fst x) (fst r) = Some None) /\
   (forall a n, snd r = Some (a, n) -> n = 0%nat)) /\
  (forall c,
      has_embedded_person d ->
      let labels := DBSCAN (4 # 10) msn (map snd unmatched) in
      List.length labels = List.length unmatched ->
      c <> (-1)%Z -> (forall l, In l labels -> l = c \/ l = (-1)%Z) ->
      In c labels ->
      (msn <= Z.of_nat (count_occ Z.eq_dec labels c))%Z ->
      exists q group,
        snd r = Some (st_assigned st, 1%nat) /\
        persons (fst r) = persons d ++ [q] /\
        p_confirmed q = false /\ (persons_seq d < p_id q)%Z /\
        NoDup group /\ (msn <= Z.of_nat (List.length group))%Z /\
        forall fid, In fid group ->
                    In fid (map fst unmatched) /\
                    person_of fid (fst r) = Some (Some (p_id q))).
Proof.
  intros Hnd st unmatched r.
  destruct (phase1_summary thr d Hnd) as (Hp & Hs & Hun & Hsub & Hnone).
  fold st in Hp, Hs, Hun, Hsub, Hnone. fold unmatched in Hun, Hsub, Hnone.
  split.
  - intros Hlt.
    destruct (select_new_faces d) as [|nf nfs] eqn:E1.
    { assert (Hr : r = (d, None)) by (unfold r, cluster_new_faces; now rewrite E1).
      rewrite Hr. cbn [fst snd]. conjs; auto; discriminate. }
    destruct (select_existing d) as [|ex exs] eqn:E2.
    { assert (Hr : r = (d, None))
        by (unfold r, cluster_new_faces; now rewrite E1, E2).
      rewrite Hr. cbn [fst snd]. conjs; auto; try discriminate.
      intros [fid e] Hx. cbn [fst]. apply person_of_unassigned with e; auto.
      rewrite E1. auto. }
    assert (Hr : r = (st_db st, Some (st_assigned st, 0%nat))).
    { unfold r. rewrite cluster_new_faces_run by (rewrite ?E1, ?E2; discriminate).
      rewrite E1. fold st. cbv zeta. unfold mine_new_people. fold unmatched.
      destruct (Z.geb_spec (Z.of_nat (List.length unmatched)) msn); [lia|].
      reflexivity. }
    rewrite Hr. cbn [fst snd]. conjs; auto. intros a n [= _ <-]. reflexivity.
  - intros c Hex labels Hlen Hc Hall Hin Hcnt.
    pose proof (count_occ_bound Z.eq_dec c labels) as Hb.
    assert (E2 : select_existing d <> []).
    { intros E. apply select_existing_nil in E. contradiction. }
    assert (E1 : select_new_faces d <> []).
    { destruct unmatched as [|x xs] eqn:Eu.
      - destruct labels; [contradiction | discriminate].
      - intros E. specialize (Hsub x (or_introl eq_refl)). rewrite E in Hsub.
        contradiction. }
    set (name := person_label (Z.of_nat (List.length (st_centroids st) + 0 + 1))).
    set (q := mkPerson (snd (insert_person name (st_db st))) (Some name) false).
    set (group := members (map fst unmatched) labels c).
    assert (Hr : r = (assign_all (p_id q) group (fst (insert_person name (st_db st))),
                      Some (st_assigned st, 1%nat))).
    { unfold r. rewrite cluster_new_faces_run by assumption. fold st. cbv zeta.
      unfold mine_new_people. fold unmatched.
      destruct (Z.geb_spec (Z.of_nat (List.length unmatched)) msn); [|lia].
      fold labels. rewrite (@unique_clusters_one labels c Hc Hall Hin). reflexivity. }
    exists q, group. rewrite Hr. cbn [fst snd].
    destruct (assign_all_frame (p_id q) group (fst (insert_person name (st_db st))))
      as (Hap & _ & _).
    conjs; auto.
    + rewrite Hap, <- Hp. reflexivity.
    + rewrite <- Hs. cbn. lia.
    + apply members_NoDup. exact Hun.
    + unfold group. rewrite members_length by (now rewrite length_map). exact Hcnt.
    + intros fid H. split; [eapply members_incl; exact H|].
      rewrite person_of_assign_all, (@existsb_eqb_In fid group H).
      assert (Hfid : In fid (map fst unmatched)) by (eapply members_incl; exact H).
      apply in_map_iff in Hfid as (x & <- & Hx).
      change (person_of (fst x) (fst (insert_person name (st_db st))))
        with (person_of (fst x) (st_db st)).
      now rewrite (Hnone x Hx).
Qed.

(** ** One face through a whole pass *)

Lemma truthy_some (b : option Z) (p : Z) :
  truthy b = Some p -> b = Some p /\ p <> 0%Z.
Proof.
  destruct b as [q|]; cbn; [|discriminate].
  destruct (Z.eqb_spec q 0); [discriminate|]. intros [= <-]. auto.
Qed.

Lemma repointed_person_of (fresh : Z -> Prop) (l l' : list face) (fid : Z) :
  Forall2 (repointed fresh) l l' ->
  let look := fun rows => option_map f_person_id
                            (find (fun f => Z.eqb (f_id f) fid) rows) in
  look l' = look l \/ exists pid, look l' = Some (Some pid) /\ fresh pid.
Proof.
  intros H look. unfold look. induction H as [|f f' l l' [Hs Hr] H IH]; auto.
  cbn [find]. destruct Hs as (Hid & _). rewrite Hid.
  destruct (Z.eqb (f_id f) fid); [|exact IH]. cbn [option_map].
  destruct Hr as [->|(pid & -> & Hf)]; eauto.
Qed.

Lemma mine_extends (msn : Z) (nc : nat) (um : list (Z * vec)) d :
  exists news,
    extends (persons_seq d) news d (fst (mine_new_people msn nc um d)) /\
    List.length news = snd (mine_new_people msn nc um d).
Proof.
  unfold mine_new_people. destruct (Z.geb _ msn).
  - destruct (@mint_fold nc (map fst um) (DBSCAN (4 # 10) msn (map snd um))
                (unique_clusters (DBSCAN (4 # 10) msn (map snd um)))
                (persons_seq d) [] d d 0%nat (extends_refl _ d))
      as (news & He & Hl & Hk); [lia|].
    exists news. cbn [app] in He. split; auto. rewrite Hk. cbn. exact Hl.
  - exists []. cbn. split; auto. apply extends_refl.
Qed.

Lemma mint_fold_untouched (nc : nat) (ids labels cs : list Z) (fid : Z) :
  ~ In fid ids ->
  forall d k, person_of fid (fst (fold_left (mint_person nc ids labels) cs (d, k))) =
              person_of fid d.
Proof.
  intros Hni. induction cs as [|c cs IH]; intros d k; cbn [fold_left]; auto.
  change (mint_person nc ids labels (d, k) c) with
    (assign_all (snd (insert_person (person_label (Z.of_nat (nc + k + 1))) d))
                (members ids labels c)
                (fst (insert_person (person_label (Z.of_nat (nc + k + 1))) d)),
     S k).
  rewrite IH, person_of_assign_all.
  destruct (existsb (Z.eqb fid) (members ids labels c)) eqn:E; [|reflexivity].
  apply existsb_exists in E as (x & Hx & E). apply Z.eqb_eq in E. subst x.
  exfalso. apply Hni. eapply members_incl. exact Hx.
Qed.

Lemma mine_untouched (msn : Z) (nc : nat) (um : list (Z * vec)) d (fid : Z) :
  ~ In fid (map fst um) ->
  person_of fid (fst (mine_new_people msn nc um d)) = person_of fid d.
Proof.
  intros Hni. unfold mine_new_people. destruct (Z.geb _ msn); [|reflexivity].
  now apply mint_fold_untouched.
Qed.

(** the three stretches of phase 1 around one face *)
Lemma phase1_around (thr : Q) d (pre post : list (Z * vec)) (fid : Z) (e : vec) :
  NoDup (map f_id (faces d)) ->
  select_new_faces d = pre ++ (fid, e) :: post ->
  let st := match_faces thr pre (pass_start d) in
  let st1 := match_face thr st (fid, e) in
  let final := match_faces thr (select_new_faces d) (pass_start d) in
  final = match_faces thr post st1 /\
  person_of fid (st_db st) = Some None /\
  person_of fid (st_db final) = person_of fid (st_db st1) /\
  persons_seq (st_db final) = persons_seq d /\
  (st_unmatched st1 = st_unmatched st -> ~ In fid (map fst (st_unmatched final))).
Proof.
  intros Hnd Hsplit st st1 final.
  pose proof (select_new_faces_NoDup d Hnd) as Hl. rewrite Hsplit in Hl.
  rewrite map_app in Hl. cbn [map fst] in Hl.
  pose proof (NoDup_remove_2 _ _ _ Hl) as Hni.
  apply NoDup_remove_1 in Hl.
  assert (Hpre : NoDup (map fst pre)) by (eapply NoDup_app_remove_r; eauto).
  assert (Hpost : NoDup (map fst post)) by (eapply NoDup_app_remove_l; eauto).
  assert (Hf : final = match_faces thr post st1).
  { unfold final, match_faces. rewrite Hsplit, fold_left_app. reflexivity. }
  destruct (@match_faces_inv thr pre (pass_start d) Hpre)
    as (_ & Hs1 & _ & _ & _ & _ & Ho1 & d1 & Hu1 & Hi1 & _).
  destruct (@match_faces_inv thr post st1 Hpost)
    as (_ & Hs2 & _ & _ & _ & _ & Ho2 & d2 & Hu2 & Hi2 & _).
  fold st in Hs1, Ho1, Hu1. rewrite <- Hf in Hs2, Ho2, Hu2.
  cbn [pass_start st_db st_unmatched app] in *.
  conjs; auto.
  - rewrite Ho1 by (intros H; apply Hni; apply in_or_app; auto).
    apply person_of_unassigned with e; auto. rewrite Hsplit. apply in_elt.
  - apply Ho2. intros H. apply Hni. apply in_or_app. auto.
  - rewrite Hs2. unfold st1, match_face.
    destruct (truthy _); cbn [st_db]; rewrite ?update_face_person_frame; auto.
  - intros Hsame. rewrite Hu2, Hsame, Hu1, map_app. intros H.
    apply Hni. apply in_app_or in H as [H|H]; apply in_or_app; [left|right];
      apply in_map_iff in H as (x & <- & Hx); apply in_map; auto.
Qed.

Lemma pass_result_of_face (thr : Q) (msn : Z) d (pre post : list (Z * vec))
      (fid : Z) (e : vec) :
  wf_db d ->
  select_new_faces d = pre ++ (fid, e) :: post ->
  let st := match_faces thr pre (pass_start d) in
  let d' := fst (cluster_new_faces thr msn d) in
  match truthy (fst (closest_person thr e (st_centroids st))) with
  | Some p => select_existing d <> [] -> person_of fid d' = Some (Some p)
  | None => person_of fid d' = Some None \/
            exists pid, person_of fid d' = Some (Some pid) /\
                        ~ In pid (map p_id (persons d))
  end /\
  (select_existing d = [] -> person_of fid d' = Some None).
Proof.
  intros [Hnd _ Hseq] Hsplit st d'.
  destruct (@phase1_around thr d pre post fid e Hnd Hsplit)
    as (Hfin & Hstart & Hkeep & Hs & Hout).
  fold st in Hfin, Hstart, Hkeep, Hout.
  assert (Hnew : select_new_faces d <> []).
  { rewrite Hsplit. intros H. symmetry in H. now apply app_cons_not_nil in H. }
  assert (Hempty : select_existing d = [] -> person_of fid d' = Some None).
  { intros E. unfold d'.
    destruct (cluster_new_faces_result thr msn d) as [-> _]; auto. cbn [fst].
    apply person_of_unassigned with e; auto. rewrite Hsplit. apply in_elt. }
  split; [|exact Hempty].
  destruct (truthy (fst (closest_person thr e (st_centroids st)))) as [p|] eqn:T.
  - intros Hex. unfold d'. rewrite cluster_new_faces_run by assumption.
    cbv zeta. cbn [fst]. rewrite mine_untouched.
    + rewrite Hkeep.
      destruct (@match_face_assigned thr st fid e p T) as (Hdb & _).
      rewrite Hdb, person_of_update, Z.eqb_refl, Hstart. reflexivity.
    + apply Hout.
      now destruct (@match_face_assigned thr st fid e p T) as (_ & _ & Hu & _).
  - destruct (select_existing d) as [|ex exs] eqn:E; [left; auto|].
    unfold d'. rewrite cluster_new_faces_run by (rewrite ?E; auto; discriminate).
    cbv zeta. cbn [fst].
    set (final := match_faces thr (select_new_faces d) (pass_start d)) in *.
    destruct (mine_extends msn (List.length (st_centroids final))
                           (st_unmatched final) (st_db final))
      as (news & (_ & _ & _ & _ & Hf) & _).
    destruct (repointed_person_of fid Hf) as [Hsame|(pid & Hpid & Hgt & _)].
    + left. unfold person_of. rewrite Hsame. fold (person_of fid (st_db final)).
      rewrite Hkeep, (@match_face_deferred thr st fid e T). exact Hstart.
    + right. exists pid. split; [exact Hpid|].
      intros Hin. apply in_map_iff in Hin as (q & Hq & Hin).
      rewrite Forall_forall in Hseq. specialize (Hseq q Hin). lia.
Qed.

(** C3.  For a face met in phase 1 with the centroids as they stand when
    its turn comes: if the pass leaves it assigned to a person that existed
    before the pass, the similarity to that person's centroid is the largest
    one and strictly above the threshold; and if no similarity is above the
    threshold (the largest equals it, or is below), the face ends the pass
    unassigned or in a person created by this very pass. *)
Theorem threshold_boundary (thr : Q) (msn : Z) d (pre post : list (Z * vec))
        (fid : Z) (e : vec) :
  wf_db d ->
  select_new_faces d = pre ++ (fid, e) :: post ->
  let st := match_faces thr pre (pass_start d) in
  let d' := fst (cluster_new_faces thr msn d) in
  (forall p, In p (persons d) -> person_of fid d' = Some (Some (p_id p)) ->
     exists c, In (p_id p, c) (st_centroids st) /\
               thr < cosine_similarity e c /\
               forall x, In x (st_centroids st) ->
                         cosine_similarity e (snd x) <= cosine_similarity e c) /\
  ((forall x, In x (st_centroids st) -> cosine_similarity e (snd x) <= thr) ->
   (forall p, In p (persons d) -> person_of fid d' <> Some (Some (p_id p))) /\
   In (fid, e) (st_unmatched (match_face thr st (fid, e)))).
Proof.
  intros Hwf Hsplit st d'.
  destruct (@pass_result_of_face thr msn d pre post fid e Hwf Hsplit)
    as [Hres Hempty].
  fold st d' in Hres. fold d' in Hempty.
  pose proof (closest_person_spec thr e (st_centroids st)) as Hspec.
  assert (Hfirst : forall p, In p (persons d) ->
            person_of fid d' = Some (Some (p_id p)) ->
            exists c, In (p_id p, c) (st_centroids st) /\
                      thr < cosine_similarity e c /\
                      forall x, In x (st_centroids st) ->
                        cosine_similarity e (snd x) <= cosine_similarity e c).
  { intros p Hp Hassigned.
    destruct (select_existing d) as [|ex exs] eqn:E.
    { rewrite Hempty in Hassigned by reflexivity. discriminate. }
    destruct (truthy (fst (closest_person thr e (st_centroids st)))) as [b|] eqn:T.
    - rewrite Hres in Hassigned by discriminate. injection Hassigned as ->.
      apply truthy_some in T as [T _].
      destruct (closest_person thr e (st_centroids st)) as [b s]. cbn in T. subst b.
      destruct Hspec as (l1 & c & l2 & Hcs & -> & Ht & _ & Hl1 & Hl2).
      exists c. rewrite Hcs. conjs; auto; [apply in_elt|].
      intros x Hx. apply in_app_or in Hx as [Hx|[<-|Hx]].
      + specialize (Hl1 x Hx). cbn in Hl1. lra.
      + cbn. lra.
      + exact (Hl2 x Hx).
    - destruct Hres as [Hn|(pid & Hpid & Hfresh)].
      + rewrite Hn in Hassigned. discriminate.
      + rewrite Hpid in Hassigned. injection Hassigned as ->.
        exfalso. apply Hfresh. now apply in_map. }
  split; [exact Hfirst|].
  intros Hmax. split.
  - intros p Hp Hassigned. destruct (Hfirst p Hp Hassigned) as (c & Hc & Ht & _).
    specialize (Hmax _ Hc). cbn in Hmax. lra.
  - destruct (truthy (fst (closest_person thr e (st_centroids st)))) as [b|] eqn:T.
    + apply truthy_some in T as [T _].
      destruct (closest_person thr e (st_centroids st)) as [b' s]. cbn in T. subst b'.
      destruct Hspec as (l1 & c & l2 & Hcs & -> & Ht & _).
      assert (Hc : In (b, c) (st_centroids st)) by (rewrite Hcs; apply in_elt).
      specialize (Hmax _ Hc). cbn in Hmax. lra.
    + rewrite (@match_face_deferred thr st fid e T). cbn [st_unmatched].
      apply in_or_app. right. now left.
Qed.

(** C8, as the code has it.  A face whose largest centroid similarity is
    above the threshold and above zero is assigned to the person that comes
    first, in the iteration order of the centroid dict, among those that
    reach it; that is the lowest-id one when the dict happens to be in
    ascending id order. *)
Theorem tie_goes_to_first_in_dict (thr : Q) (msn : Z) d
        (pre post : list (Z * vec)) (fid : Z) (e : vec)
        (before after : list (Z * vec)) (p : Z) (c : vec) :
  wf_db d ->
  select_new_faces d = pre ++ (fid, e) :: post ->
  select_existing d <> [] ->
  let st := match_faces thr pre (pass_start d) in
  st_centroids st = before ++ (p, c) :: after ->
  thr < cosine_similarity e c -> 0 < cosine_similarity e c -> p <> 0%Z ->
  (forall x, In x before -> cosine_similarity e (snd x) < cosine_similarity e c) ->
  (forall x, In x after -> cosine_similarity e (snd x) <= cosine_similarity e c) ->
  person_of fid (fst (cluster_new_faces thr msn d)) = Some (Some p) /\
  (StronglySorted Z.lt (map fst (st_centroids st)) ->
   forall x, In x (st_centroids st) ->
             cosine_similarity e (snd x) == cosine_similarity e c ->
             (p <= fst x)%Z).
Proof.
  intros Hwf Hsplit Hex st Hcs Ht H0 Hp Hb Ha.
  destruct (@pass_result_of_face thr msn d pre post fid e Hwf Hsplit)
    as [Hres _].
  fold st in Hres. rewrite Hcs in Hres.
  rewrite (@closest_person_first_max thr e before after p c Ht H0 Hb Ha) in Hres.
  cbn [fst truthy] in Hres. destruct (Z.eqb_spec p 0); [contradiction|].
  split; [auto|].
  intros Hsorted x Hx Heq. rewrite Hcs in Hx, Hsorted.
  rewrite map_app in Hsorted. cbn [map fst] in Hsorted.
  apply in_app_or in Hx as [Hx|[<-|Hx]].
  - specialize (Hb x Hx). rewrite Heq in Hb. lra.
  - cbn. lia.
  - clear - Hsorted Hx. induction before as [|b bs IH]; cbn [app map] in Hsorted.
    + inversion Hsorted as [|? ? _ Hall]; subst. rewrite Forall_forall in Hall.
      specialize (Hall (fst x) (in_map fst _ _ Hx)). lia.
    + inversion Hsorted; subst. auto.
Qed.

(** ** A pass without progress *)

Lemma match_faces_count (thr : Q) (l : list (Z * vec)) :
  forall st, (st_assigned st <= st_assigned (match_faces thr l st))%nat /\
             (st_assigned (match_faces thr l st) = st_assigned st ->
              st_db (match_faces thr l st) = st_db st).
Proof.
  unfold match_faces. induction l as [|[fid e] l IH]; intros st; cbn [fold_left].
  - auto.
  - destruct (IH (match_face thr st (fid, e))) as [Hle Heq].
    destruct (truthy (fst (closest_person thr e (st_centroids st)))) as [p|] eqn:T.
    + destruct (@match_face_assigned thr st fid e p T) as (_ & Ha & _).
      split; [lia|]. intros H. lia.
    + rewrite (@match_face_deferred thr st fid e T) in *.
      cbn [st_assigned st_db] in *. auto.
Qed.

Lemma mine_nobody (msn : Z) (nc : nat) (um : list (Z * vec)) d :
  snd (mine_new_people msn nc um d) = 0%nat ->
  fst (mine_new_people msn nc um d) = d.
Proof.
  unfold mine_new_people. destruct (Z.geb _ msn); [|reflexivity].
  destruct (@mint_fold nc (map fst um) (DBSCAN (4 # 10) msn (map snd um))
              (unique_clusters (DBSCAN (4 # 10) msn (map snd um)))
              (persons_seq d) [] d d 0%nat (extends_refl _ d))
    as (news & _ & _ & Hk); [lia|].
  rewrite Hk. cbn [Nat.add]. intros H.
  apply length_zero_iff_nil in H. now rewrite H.
Qed.

Lemma zero_pass_unchanged (thr : Q) (msn : Z) d d' :
  cluster_new_faces thr msn d = (d', Some (0, 0)%nat) -> d' = d.
Proof.
  intros H.
  destruct (select_new_faces d) as [|nf nfs] eqn:E1.
  { destruct (cluster_new_faces_result thr msn d) as [Hn _].
    rewrite Hn in H by auto. discriminate. }
  destruct (select_existing d) as [|ex exs] eqn:E2.
  { destruct (cluster_new_faces_result thr msn d) as [Hn _].
    rewrite Hn in H by auto. discriminate. }
  rewrite cluster_new_faces_run in H by (rewrite ?E1, ?E2; discriminate).
  cbv zeta in H. injection H as Hd Ha Hn.
  apply mine_nobody in Hn. rewrite Hn in Hd.
  destruct (match_faces_count thr (select_new_faces d) (pass_start d)) as [_ Heq].
  rewrite <- Hd. apply Heq. exact Ha.
Qed.

Lemma loop_from_converged (thr : Q) (msn : Z) (remaining : nat) :
  forall ta tn it d ta' tn' it' d1,
    loop_from thr msn remaining ta tn it d = Returned ta' tn' it' true d1 ->
    cluster_new_faces thr msn d1 = (d1, Some (0, 0)%nat) /\
    remaining <> 0%nat.
Proof.
  induction remaining as [|r IH]; intros ta tn it d ta' tn' it' d1; cbn [loop_from].
  - discriminate.
  - destruct (cluster_new_faces thr msn d) as [d' [[a n]|]] eqn:E; [|discriminate].
    destruct (Nat.eqb a 0 && Nat.eqb n 0) eqn:Z0.
    + apply andb_true_iff in Z0 as [Ha Hn]. apply Nat.eqb_eq in Ha, Hn. subst a n.
      intros [= _ _ _ <-]. pose proof (zero_pass_unchanged _ _ _ E) as ->.
      split; [exact E | discriminate].
    + intros H. apply IH in H as [H _]. split; [exact H | discriminate].
Qed.

(** C1, as the code has it.  When a run of [cluster_new_faces_loop] ended
    at a fixed-point pass, a second run on the store it left, with the same
    parameters, assigns no face, creates no person, leaves the store as it
    is and ends at its first pass. *)
Theorem second_run_after_fixed_point (thr : Q) (msn max_iterations : Z) d
        (total_assigned total_new_people iteration : nat) d1 :
  cluster_new_faces_loop thr msn max_iterations d =
  Returned total_assigned total_new_people iteration true d1 ->
  cluster_new_faces_loop thr msn max_iterations d1 = Returned 0 0 1 true d1.
Proof.
  unfold cluster_new_faces_loop. intros H.
  apply loop_from_converged in H as [H Hr].
  destruct (Z.to_nat max_iterations) as [|r]; [contradiction|].
  cbn [loop_from]. rewrite H. reflexivity.
Qed.

(** ** The store invariant

    The primary keys and the AUTOINCREMENT bound assumed by some of the
    statements above are kept by every operation of the engine. *)

Lemma same_detection_ids (l l' : list face) :
  Forall2 same_detection l l' -> map f_id l' = map f_id l.
Proof.
  induction 1 as [|f f' l l' (Hid & _) _ IH]; cbn [map]; congruence.
Qed.

Lemma repointed_ids (fresh : Z -> Prop) (l l' : list face) :
  Forall2 (repointed fresh) l l' -> map f_id l' = map f_id l.
Proof.
  induction 1 as [|f f' l l' ((Hid & _) & _) _ IH]; cbn [map]; congruence.
Qed.

Lemma NoDup_map_filter (A : Type) (h : A -> Z) (g : A -> bool) (l : list A) :
  NoDup (map h l) -> NoDup (map h (filter g l)).
Proof.
  induction l as [|a l IH]; cbn [map filter]; intros H; [constructor|].
  inversion H as [|? ? Hni Hnd]; subst.
  destruct (g a); cbn [map]; auto. constructor; auto.
  intros Hin. apply Hni. apply in_map_iff in Hin as (b & Hb & Hin).
  apply filter_In in Hin as [Hin _]. rewrite <- Hb. now apply in_map.
Qed.

Lemma Forall_filter_keep (A : Type) (P : A -> Prop) (g : A -> bool) (l : list A) :
  Forall P l -> Forall P (filter g l).
Proof.
  rewrite !Forall_forall. intros H a Ha. apply filter_In in Ha as [Ha _]. auto.
Qed.

Lemma extends_wf (s0 : Z) (news : list person) d0 d' :
  NoDup (map f_id (faces d0)) -> NoDup (map p_id (persons d0)) ->
  Forall (fun p => (p_id p <= s0)%Z) (persons d0) ->
  (s0 <= persons_seq d0)%Z ->
  extends s0 news d0 d' -> wf_db d'.
Proof.
  intros Hf Hp Hb H0 (Hpers & Hn & Hnd & Hs & Hrows).
  rewrite Forall_forall in Hb, Hn. constructor.
  - now rewrite (repointed_ids Hrows).
  - rewrite Hpers, map_app. apply NoDup_app; auto.
    intros a Ha Ha'. apply in_map_iff in Ha as (p & <- & Hp1).
    apply in_map_iff in Ha' as (q & Hq & Hq1).
    specialize (Hb p Hp1). specialize (Hn q Hq1). cbn in Hn. lia.
  - rewrite Hpers. apply Forall_app. split; rewrite Forall_forall.
    + intros p Hp1. specialize (Hb p Hp1). lia.
    + intros q Hq. specialize (Hn q Hq). cbn in Hn. lia.
Qed.

Lemma wf_db_cluster_new_faces (thr : Q) (msn : Z) d :
  wf_db d -> wf_db (fst (cluster_new_faces thr msn d)).
Proof.
  intros Hwf. pose proof Hwf as [Hf Hp Hb].
  destruct (select_new_faces d) as [|nf nfs] eqn:E1.
  { destruct (cluster_new_faces_result thr msn d) as [-> _]; auto. }
  destruct (select_existing d) as [|ex exs] eqn:E2.
  { destruct (cluster_new_faces_result thr msn d) as [-> _]; auto. }
  rewrite cluster_new_faces_run by (rewrite ?E1, ?E2; discriminate).
  cbv zeta. cbn [fst].
  set (st := match_faces thr (select_new_faces d) (pass_start d)).
  destruct (@match_faces_inv thr (select_new_faces d) (pass_start d)
              (select_new_faces_NoDup d Hf))
    as (Hp1 & Hs1 & _ & Hf1 & _).
  fold st in Hp1, Hs1, Hf1. cbn [pass_start st_db] in Hp1, Hs1, Hf1.
  destruct (mine_extends msn (List.length (st_centroids st))
                         (st_unmatched st) (st_db st)) as (news & He & _).
  eapply extends_wf; [| | | |exact He].
  - now rewrite (same_detection_ids Hf1).
  - now rewrite Hp1.
  - now rewrite Hp1, Hs1.
  - lia.
Qed.

Lemma wf_db_cluster_faces (eps : Q) (min_samples : Z) d :
  wf_db d -> wf_db (cluster_faces eps min_samples d).
Proof.
  intros Hwf. pose proof Hwf as [Hf Hp Hb]. unfold cluster_faces.
  destruct (Z.ltb _ min_samples); [exact Hwf|].
  set (d0 := delete_all_persons (clear_all_person_ids d)).
  destruct (@create_fold (map fst (select_embedded d))
              (DBSCAN eps min_samples (map snd (select_embedded d)))
              (unique_clusters (DBSCAN eps min_samples (map snd (select_embedded d))))
              (persons_seq d) [] d0 d0 (extends_refl _ d0))
    as (news & He & _); [cbn; lia|].
  cbn [app] in He. eapply extends_wf; [| | | |exact He]; cbn.
  - now rewrite map_map.
  - constructor.
  - constructor.
  - lia.
Qed.

Lemma wf_db_label_person (person_id : Z) (name : string) d :
  wf_db d -> wf_db (label_person person_id name d).
Proof.
  intros Hwf. pose proof Hwf as [Hf Hp Hb]. unfold label_person.
  destruct (find _ (persons d)) as [current_person|]; [|exact Hwf].
  destruct (find _ (persons d)) as [q|]; constructor; cbn.
  - rewrite map_map. erewrite map_ext; [exact Hf|]. intros f.
    now destruct (opt_Z_eqb (f_person_id f) person_id).
  - now apply NoDup_map_filter.
  - now apply Forall_filter_keep.
  - exact Hf.
  - rewrite map_map. erewrite map_ext; [exact Hp|]. intros p.
    now destruct (Z.eqb (p_id p) person_id).
  - rewrite Forall_forall in *. intros p Hin.
    apply in_map_iff in Hin as (r & <- & Hr). specialize (Hb r Hr).
    now destruct (Z.eqb (p_id r) person_id).
Qed.

Lemma wf_db_delete_unconfirmed_people d :
  wf_db d -> wf_db (delete_unconfirmed_people d).
Proof.
  intros Hwf. pose proof Hwf as [Hf Hp Hb].
  destruct (delete_unconfirmed_people_rows d) as [Hpers Hfaces].
  constructor.
  - rewrite Hfaces, map_map. erewrite map_ext; [exact Hf|]. intros f.
    now destruct (in_unconfirmed (persons d) f).
  - rewrite Hpers. now apply NoDup_map_filter.
  - rewrite Hpers. apply Forall_filter_keep.
    unfold delete_unconfirmed_people.
    destruct (Nat.eqb _ 0); exact Hb.
Qed.

(** ** The [ignored] column *)

Section Ignored.
Variable g : Z -> bool.

Let reflag_st (st : pass_state) : pass_state :=
  mkPass (reflag g (st_db st)) (st_centroids st) (st_assigned st)
         (st_unmatched st).

Lemma flat_map_map_ext (A B C : Type) (h : B -> list C) (h' : A -> list C)
      (k : A -> B) (l : list A) :
  (forall a, h (k a) = h' a) -> flat_map h (map k l) = flat_map h' l.
Proof.
  intros H. induction l as [|a l IH]; cbn [map flat_map]; congruence.
Qed.

Lemma reflag_queries d :
  select_new_faces (reflag g d) = select_new_faces d /\
  select_existing (reflag g d) = select_existing d /\
  select_embedded (reflag g d) = select_embedded d.
Proof.
  unfold select_new_faces, select_existing, select_embedded, reflag.
  cbn [faces persons]. conjs; apply flat_map_map_ext; reflexivity.
Qed.

Lemma reflag_update (pid fid : Z) d :
  update_face_person pid fid (reflag g d) = reflag g (update_face_person pid fid d).
Proof.
  unfold update_face_person, reflag. cbn [faces persons persons_seq].
  f_equal. rewrite !map_map. apply map_ext. intros f. cbn [f_id set_ignored].
  destruct (Z.eqb (f_id f) fid); reflexivity.
Qed.

Lemma fold_left_commute (A B : Type) (step : A -> B -> A) (T : A -> A)
      (l : list B) :
  (forall a b, step (T a) b = T (step a b)) ->
  forall a, fold_left step l (T a) = T (fold_left step l a).
Proof.
  intros H. induction l as [|b l IH]; intros a; cbn [fold_left]; auto.
  now rewrite H, IH.
Qed.

Lemma reflag_assign_all (pid : Z) (ids : list Z) d :
  assign_all pid ids (reflag g d) = reflag g (assign_all pid ids d).
Proof.
  unfold assign_all. apply fold_left_commute. intros a b. apply reflag_update.
Qed.

Lemma reflag_match_faces (thr : Q) (l : list (Z * vec)) (st : pass_state) :
  match_faces thr l (reflag_st st) = reflag_st (match_faces thr l st).
Proof.
  unfold match_faces. apply fold_left_commute. intros a [fid e].
  unfold match_face, reflag_st. cbn [st_db st_centroids st_assigned st_unmatched].
  destruct (truthy _); [|reflexivity]. now rewrite reflag_update.
Qed.

Lemma reflag_mine (msn : Z) (nc : nat) (um : list (Z * vec)) d :
  mine_new_people msn nc um (reflag g d) =
  (reflag g (fst (mine_new_people msn nc um d)),
   snd (mine_new_people msn nc um d)).
Proof.
  unfold mine_new_people. destruct (Z.geb _ msn); [|reflexivity].
  change (reflag g d, 0%nat) with ((fun a : db * nat => (reflag g (fst a), snd a)) (d, 0%nat)).
  rewrite fold_left_commute; [reflexivity|].
  intros [a k] c. unfold mint_person. cbn [fst snd insert_person].
  rewrite <- reflag_assign_all. reflexivity.
Qed.

(** C2, as the code has it.  Neither clustering operation reads or writes
    the [ignored] column: whatever flags the faces carry, [cluster_faces]
    and [cluster_new_faces] select, assign and count the same, and hand the
    flags back as they were. *)
Theorem ignored_is_not_consulted (thr eps : Q) (msn min_samples : Z) d :
  cluster_new_faces thr msn (reflag g d) =
  (reflag g (fst (cluster_new_faces thr msn d)),
   snd (cluster_new_faces thr msn d)) /\
  cluster_faces eps min_samples (reflag g d) =
  reflag g (cluster_faces eps min_samples d).
Proof.
  destruct (reflag_queries d) as (Hn & He & Hm). split.
  - unfold cluster_new_faces. rewrite Hn, He.
    destruct (select_new_faces d) as [|nf nfs]; [reflexivity|].
    destruct (select_existing d) as [|ex exs]; [reflexivity|].
    change (mkPass (reflag g d) (person_centroids_of (ex :: exs)) 0 [])
      with (reflag_st (mkPass d (person_centroids_of (ex :: exs)) 0 [])).
    rewrite reflag_match_faces. unfold reflag_st at 1 2 3 4.
    cbn [st_db st_centroids st_assigned st_unmatched].
    rewrite reflag_mine. now destruct (mine_new_people _ _ _ _).
  - unfold cluster_faces. rewrite Hm.
    destruct (Z.ltb _ min_samples); [reflexivity|].
    change (delete_all_persons (clear_all_person_ids (reflag g d)))
      with (mkDb (map (set_person_id None)
                      (map (fun f => set_ignored (g (f_id f)) f) (faces d)))
                 [] (persons_seq d)).
    replace (mkDb _ [] (persons_seq d))
      with (reflag g (delete_all_persons (clear_all_person_ids d))).
    + apply fold_left_commute. intros a c. unfold create_person_for.
      cbn [insert_person]. now rewrite <- reflag_assign_all.
    + unfold reflag, delete_all_persons, clear_all_person_ids.
      cbn [faces persons persons_seq]. f_equal. rewrite !map_map. reflexivity.
Qed.

End Ignored.

End Properties.

(** * The properties on concrete stores *)

Lemma distinct_sound (l : list Z) : distinct l = true -> NoDup l.
Proof.
  induction l as [|a l IH]; cbn [distinct]; intros H; constructor.
  - apply andb_true_iff in H as [H _]. apply negb_true_iff in H.
    intros Hin. assert (E : existsb (Z.eqb a) l = true); [|congruence].
    apply existsb_exists. exists a. split; auto. apply Z.eqb_refl.
  - apply andb_true_iff in H as [_ H]. auto.
Qed.

Ltac bounded_ids :=
  repeat (apply Forall_cons; [cbn; lia|]); apply Forall_nil.

Ltac well_formed :=
  constructor; [apply distinct_sound; reflexivity
               |apply distinct_sound; reflexivity
               |bounded_ids].

Section Runs.
Import Stores.
Open Scope Z_scope.

(** ** [delete_unconfirmed_people] *)

Lemma delete_unconfirmed_people_frame_witness :
  NoDup (map p_id (persons curated)) /\
  persons (delete_unconfirmed_people curated) = filter p_confirmed (persons curated) /\
  forall p f, In p (persons curated) -> p_confirmed p = true ->
              In f (faces curated) -> f_person_id f = Some (p_id p) ->
              In p (persons (delete_unconfirmed_people curated)) /\
              In f (faces (delete_unconfirmed_people curated)).
Proof.
  assert (H : NoDup (map p_id (persons curated)))
    by (apply distinct_sound; reflexivity).
  split; [exact H|].
  pose proof (@delete_unconfirmed_people_frame QNumerics curated H) as (H1 & _ & _ & H4).
  split; [exact H1 | exact H4].
Defined.

(** ten faces released with their embeddings, the five of Alice untouched *)
Example curated_after_delete :
  persons (delete_unconfirmed_people curated) =
    [mkPerson 4 (Some "Alice"%string) true] /\
  map f_person_id (faces (delete_unconfirmed_people curated)) =
    repeat None 10 ++ repeat (Some 4) 5 /\
  map f_embedding (faces (delete_unconfirmed_people curated)) =
    map f_embedding (faces curated).
Proof. repeat split. Qed.

(** ** [label_person] *)

Lemma label_person_merge_witness :
  (exists p, In p (persons bob_and_alice) /\ p_id p = 5) /\
  (exists q, In q (persons bob_and_alice) /\ p_name q = Some "Alice"%string /\
             p_id q <> 5) /\
  exists q, p_name q = Some "Alice"%string /\
            In q (persons (label_person 5 "Alice" bob_and_alice)) /\
            forall p, In p (persons (label_person 5 "Alice" bob_and_alice)) ->
                      p_id p <> 5.
Proof.
  assert (H1 : exists p, In p (persons bob_and_alice) /\ p_id p = 5).
  { exists (mkPerson 5 (Some "Bob"%string) false). cbn. auto. }
  assert (H2 : exists q, In q (persons bob_and_alice) /\
                         p_name q = Some "Alice"%string /\ p_id q <> 5).
  { exists (mkPerson 7 (Some "Alice"%string) true). cbn. repeat split; auto. lia. }
  split; [exact H1|]. split; [exact H2|].
  destruct (@label_person_merge QNumerics bob_and_alice 5 "Alice"%string H1 H2)
    as (q & _ & _ & _ & Hn & _ & _ & _ & Hp & Hq & _).
  exists q. split; [exact Hn|]. split; [exact Hq|].
  intros p Hin. apply Hp in Hin. tauto.
Defined.

(** the merge of the specification: no row 5, seven faces on Alice, one
    Alice *)
Example merge_bob_into_alice :
  persons (label_person 5 "Alice" bob_and_alice) =
    [mkPerson 7 (Some "Alice"%string) true] /\
  map f_person_id (faces (label_person 5 "Alice" bob_and_alice)) =
    repeat (Some 7) 7.
Proof. split; reflexivity. Qed.

(** C4 fails when the name is already carried twice: Person 5 exists,
    other people are called "Person 3", and after [label_person 5
    "Person 3"] two people are still called "Person 3". *)
Lemma label_person_leaves_two_bearers :
  In (mkPerson 5 (Some "Person 4"%string) false) (persons two_person_3) /\
  In (mkPerson 3 (Some "Person 3"%string) false) (persons two_person_3) /\
  persons (label_person 5 "Person 3" two_person_3) =
    [mkPerson 1 (Some "Ann"%string) true;
     mkPerson 3 (Some "Person 3"%string) false;
     mkPerson 4 (Some "Person 3"%string) false] /\
  List.length (filter (name_is "Person 3")
                      (persons (label_person 5 "Person 3" two_person_3))) = 2%nat.
Proof. cbn. repeat split; auto. Qed.

(** ** [cluster_new_faces]: no pair to return *)

Lemma cluster_new_faces_none_witness :
  ~ has_new_face bob_and_alice /\
  cluster_new_faces (3 # 5) 30 bob_and_alice = (bob_and_alice, None) /\
  cluster_new_faces_loop (3 # 5) 30 10 bob_and_alice = TypeError 1 bob_and_alice.
Proof.
  assert (H : ~ has_new_face bob_and_alice).
  { apply select_new_faces_nil. reflexivity. }
  split; [exact H|].
  destruct (@cluster_new_faces_none QNumerics (3 # 5) 30 bob_and_alice)
    as (Hiff & Hsame & Hloop).
  assert (Hn : snd (cluster_new_faces (3 # 5) 30 bob_and_alice) = None)
    by (apply Hiff; left; exact H).
  split.
  - rewrite (surjective_pairing (cluster_new_faces (3 # 5) 30 bob_and_alice)).
    now rewrite (Hsame Hn), Hn.
  - apply Hloop; [exact Hn | lia].
Defined.

(** ** [cluster_new_faces_loop] *)

Lemma cluster_new_faces_loop_stops_witness :
  pass_result (1 # 4) 30 2 slow_start_rest = Some (0, 0)%nat /\
  exists total_assigned total_new_people,
    cluster_new_faces_loop (1 # 4) 30 10 slow_start_rest =
    Returned total_assigned total_new_people 3 true
             (db_after (1 # 4) 30 3 slow_start_rest).
Proof.
  assert (H : pass_result (1 # 4) 30 2 slow_start_rest = Some (0, 0)%nat)
    by (reflexivity).
  split; [exact H|].
  destruct (@cluster_new_faces_loop_stops QNumerics (1 # 4) 30 10 slow_start_rest)
    as (_ & _ & Hstop).
  apply (Hstop 2%nat); [lia | exact H |].
  intros j Hj. destruct j as [|[|j]]; [| |lia].
  - exists 1%nat, 0%nat. split; [reflexivity | left; discriminate].
  - exists 1%nat, 0%nat. split; [reflexivity | left; discriminate].
Defined.

(** the loop ends in [TypeError] as soon as a pass finds every face
    assigned *)
Example loop_runs_out_of_faces :
  cluster_new_faces_loop (1 # 4) 30 10 slow_start = TypeError 3 slow_start_done.
Proof. reflexivity. Qed.

(** ** Idempotence of the loop *)

Lemma second_run_after_fixed_point_witness :
  cluster_new_faces_loop (1 # 4) 30 10 slow_start_rest =
    Returned 2 0 3 true slow_start_rest_done /\
  cluster_new_faces_loop (1 # 4) 30 10 slow_start_rest_done =
    Returned 0 0 1 true slow_start_rest_done.
Proof.
  assert (H : cluster_new_faces_loop (1 # 4) 30 10 slow_start_rest =
              Returned 2 0 3 true slow_start_rest_done)
    by (reflexivity).
  split; [exact H|].
  exact (@second_run_after_fixed_point QNumerics (1 # 4) 30 10 slow_start_rest
           2%nat 0%nat 3%nat slow_start_rest_done H).
Defined.

(** C1 fails after a run that stopped at the cap: with [max_iterations = 1]
    the first run returns after one pass that assigned face 3, and the
    second run, on the store the first one left, assigns face 2. *)
Lemma second_run_after_cap_still_assigns :
  cluster_new_faces_loop (1 # 4) 30 1 slow_start =
    Returned 1 0 1 false slow_start_once /\
  cluster_new_faces_loop (1 # 4) 30 1 slow_start_once =
    Returned 1 0 1 false slow_start_done /\
  person_of 2 slow_start_once = Some None /\
  person_of 2 slow_start_done = Some (Some 1).
Proof. repeat split; reflexivity. Qed.

(** ** The [ignored] column *)

(** C2 fails: face 2 is ignored and unassigned; [cluster_new_faces] assigns
    it to Person 1 and counts it, and [cluster_faces] puts it in a cluster
    with face 1. *)
Lemma ignored_face_is_clustered :
  In (qface 2 None (Some east) true) (faces with_ignored) /\
  snd (cluster_new_faces (3 # 5) 30 with_ignored) = Some (1, 0)%nat /\
  person_of 2 (fst (cluster_new_faces (3 # 5) 30 with_ignored)) = Some (Some 1) /\
  person_of 2 (cluster_faces (38 # 100) 2 with_ignored) = Some (Some 2) /\
  person_of 1 (cluster_faces (38 # 100) 2 with_ignored) = Some (Some 2).
Proof.
  split; [cbn; auto|]. repeat split; reflexivity.
Qed.

Lemma ignored_is_not_consulted_witness :
  cluster_new_faces (3 # 5) 30 (reflag (fun _ => false) with_ignored) =
  (reflag (fun _ => false) (fst (cluster_new_faces (3 # 5) 30 with_ignored)),
   snd (cluster_new_faces (3 # 5) 30 with_ignored)).
Proof.
  exact (proj1 (@ignored_is_not_consulted QNumerics (fun _ => false)
                  (3 # 5) (38 # 100) 30 2 with_ignored)).
Defined.

(** ** The threshold *)

Lemma threshold_boundary_witness :
  wf_db on_threshold /\
  select_new_faces on_threshold = [] ++ (2, steep) :: [] /\
  (forall x, In x (st_centroids (match_faces (3 # 5) [] (pass_start on_threshold))) ->
             (cosine_similarity steep (snd x) <= 3 # 5)%Q) /\
  forall p, In p (persons on_threshold) ->
            person_of 2 (fst (cluster_new_faces (3 # 5) 30 on_threshold)) <>
            Some (Some (p_id p)).
Proof.
  assert (Hwf : wf_db on_threshold) by well_formed.
  assert (Hsel : select_new_faces on_threshold = [] ++ (2, steep) :: [])
    by reflexivity.
  assert (Hmax : forall x,
            In x (st_centroids (match_faces (3 # 5) [] (pass_start on_threshold))) ->
            (cosine_similarity steep (snd x) <= 3 # 5)%Q).
  { intros x [<-|[]]. vm_compute. discriminate. }
  split; [exact Hwf|]. split; [exact Hsel|]. split; [exact Hmax|].
  exact (proj1 (proj2 (@threshold_boundary QNumerics (3 # 5) 30 on_threshold
                         [] [] 2 steep Hwf Hsel) Hmax)).
Defined.

(** at the threshold the face stays unassigned; a threshold one millionth
    lower lets it in *)
Example on_and_under_threshold :
  cosine_similarity steep east = 3 # 5 /\
  cluster_new_faces (3 # 5) 30 on_threshold = (on_threshold, Some (0, 0)%nat) /\
  snd (cluster_new_faces (599999 # 1000000) 30 on_threshold) =
    Some (1, 0)%nat /\
  person_of 2 (fst (cluster_new_faces (599999 # 1000000) 30 on_threshold)) =
    Some (Some 1).
Proof. repeat split; reflexivity. Qed.

(** ** Ties *)

Lemma tie_goes_to_first_in_dict_witness :
  wf_db tied /\
  st_centroids (match_faces (3 # 5) [] (pass_start tied)) =
    [] ++ (2, east) :: [(1, east_twice)] /\
  person_of 3 (fst (cluster_new_faces (3 # 5) 30 tied)) = Some (Some 2).
Proof.
  assert (Hwf : wf_db tied) by well_formed.
  assert (Hcs : st_centroids (match_faces (3 # 5) [] (pass_start tied)) =
                [] ++ (2, east) :: [(1, east_twice)]) by reflexivity.
  split; [exact Hwf|]. split; [exact Hcs|].
  refine (proj1 (@tie_goes_to_first_in_dict QNumerics (3 # 5) 30 tied [] [] 3 east
                   [] [(1, east_twice)] 2 east Hwf eq_refl _ Hcs _ _ _ _ _)).
  - discriminate.
  - reflexivity.
  - reflexivity.
  - lia.
  - intros x [].
  - intros x [<-|[]]. vm_compute. discriminate.
Defined.

(** C8 fails: Persons 1 and 2 both reach similarity 1 with face 3, above
    the threshold 3/5; Person 2 owns the earliest face, so it heads the
    centroid dict, and face 3 goes to Person 2, not to the lowest id. *)
Lemma tie_not_to_lowest_id :
  person_centroids_of (select_existing tied) = [(2, east); (1, east_twice)] /\
  cosine_similarity east east = 1%Q /\
  cosine_similarity east east_twice = 1%Q /\
  person_of 3 tied = Some None /\
  person_of 3 (fst (cluster_new_faces (3 # 5) 30 tied)) = Some (Some 2).
Proof. repeat split; reflexivity. Qed.

(** a largest similarity of zero is above a negative threshold and still
    assigns nobody: the scan starts from [best_similarity = 0] *)
Example zero_similarity_is_never_best :
  cosine_similarity east north = 0%Q /\
  cosine_similarity east north_twice = 0%Q /\
  cluster_new_faces (- (1 # 2)) 30 orthogonal = (orthogonal, Some (0, 0)%nat).
Proof. repeat split; reflexivity. Qed.

(** ** New identities *)

Lemma new_identity_gating_witness :
  NoDup (map f_id (faces (newcomers 3))) /\
  has_embedded_person (newcomers 3) /\
  DBSCAN (4 # 10) 3
         (map snd (st_unmatched (match_faces (3 # 5) (select_new_faces (newcomers 3))
                                             (pass_start (newcomers 3))))) =
    [0; 0; 0] /\
  exists q group,
    persons (fst (cluster_new_faces (3 # 5) 3 (newcomers 3))) =
      persons (newcomers 3) ++ [q] /\
    p_confirmed q = false /\ (3 <= Z.of_nat (List.length group)) /\
    forall fid, In fid group ->
      person_of fid (fst (cluster_new_faces (3 # 5) 3 (newcomers 3))) =
      Some (Some (p_id q)).
Proof.
  assert (Hnd : NoDup (map f_id (faces (newcomers 3))))
    by (apply distinct_sound; reflexivity).
  assert (Hex : has_embedded_person (newcomers 3)).
  { exists (mkPerson 1 (Some "Person 1"%string) false),
           (qface 1 (Some 1) (Some east) false).
    cbn. repeat split; auto. discriminate. }
  split; [exact Hnd|]. split; [exact Hex|]. split; [reflexivity|].
  destruct (proj2 (@new_identity_gating QNumerics (3 # 5) 3 (newcomers 3) Hnd) 0 Hex)
    as (q & group & _ & Hp & Hc & _ & _ & Hlen & Hall).
  - reflexivity.
  - discriminate.
  - vm_compute. intros l [<-|[<-|[<-|[]]]]; auto.
  - vm_compute. auto.
  - vm_compute. discriminate.
  - exists q, group. split; [exact Hp|]. split; [exact Hc|]. split; [exact Hlen|].
    intros fid Hin. exact (proj2 (Hall fid Hin)).
Defined.

(** the minimum-evidence example of the specification: 25 alike newcomers
    under [min_samples_new = 30] create nobody and stay unassigned; 35
    create one person holding all of them *)
Example gate_25_and_35 :
  cluster_new_faces (3 # 5) 30 (newcomers 25) = (newcomers 25, Some (0, 0)%nat) /\
  snd (cluster_new_faces (3 # 5) 30 (newcomers 35)) = Some (0, 1)%nat /\
  persons (fst (cluster_new_faces (3 # 5) 30 (newcomers 35))) =
    [mkPerson 1 (Some "Person 1"%string) false;
     mkPerson 2 (Some "Person 2"%string) false] /\
  map f_person_id (faces (fst (cluster_new_faces (3 # 5) 30 (newcomers 35)))) =
    Some 1 :: repeat (Some 2) 35.
Proof. repeat split; reflexivity. Qed.

(** ** The batch run *)

Lemma cluster_faces_resets_witness :
  Forall (fun p => p_id p <= persons_seq before_batch) (persons before_batch) /\
  2 <= Z.of_nat (List.length (select_embedded before_batch)) /\
  (forall p, In p (persons before_batch) ->
             ~ In p (persons (cluster_faces (38 # 100) 2 before_batch))) /\
  (forall p, In p (persons (cluster_faces (38 # 100) 2 before_batch)) ->
             p_confirmed p = false).
Proof.
  assert (H1 : Forall (fun p => p_id p <= persons_seq before_batch)
                      (persons before_batch)) by bounded_ids.
  assert (H2 : 2 <= Z.of_nat (List.length (select_embedded before_batch)))
    by (vm_compute; discriminate).
  split; [exact H1|]. split; [exact H2|].
  destruct (@cluster_faces_resets QNumerics (38 # 100) 2 before_batch H1 H2)
    as (Hnew & Hgone & _).
  split; [exact Hgone|]. intros p Hin. exact (proj2 (Hnew p Hin)).
Defined.

(** Alice, though confirmed, is gone; two fresh people split the four
    embedded faces *)
Example batch_run :
  persons (cluster_faces (38 # 100) 2 before_batch) =
    [mkPerson 3 (Some "Person 1"%string) false;
     mkPerson 4 (Some "Person 2"%string) false] /\
  map f_person_id (faces (cluster_faces (38 # 100) 2 before_batch)) =
    [Some 3; Some 3; Some 4; Some 4; None].
Proof. split; reflexivity. Qed.

End Runs.

(** * Further properties of the engine *)

Ltac conjs := repeat match goal with |- _ /\ _ => split end.

Section FurtherProperties.
Context {N : Numerics}.
Implicit Types (d : db) (f : face) (p : person).

(** ** Rows under one pass *)

Lemma face_eta f f' :
  same_detection f f' -> f_person_id f' = f_person_id f -> f' = f.
Proof.
  destruct f, f'. unfold same_detection. cbn. intros H E.
  decompose [and] H. congruence.
Qed.

Lemma Forall2_compose (A : Type) (R1 R2 R3 : A -> A -> Prop) (l1 l2 l3 : list A) :
  (forall x y z, R1 x y -> R2 y z -> R3 x z) ->
  Forall2 R1 l1 l2 -> Forall2 R2 l2 l3 -> Forall2 R3 l1 l3.
Proof.
  intros H H12. revert l3. induction H12; intros l3 H23; inversion H23; subst;
    constructor; eauto.
Qed.

Lemma Forall2_with_In (A B : Type) (R R' : A -> B -> Prop) (l : list A) (l' : list B) :
  (forall x y, In x l -> R x y -> R' x y) -> Forall2 R l l' -> Forall2 R' l l'.
Proof.
  intros H H2. induction H2; constructor.
  - apply H; [now left | assumption].
  - apply IHForall2. intros a b Ha. apply H. now right.
Qed.

Lemma Forall2_In_right (A B : Type) (R : A -> B -> Prop) (l : list A) (l' : list B) (y : B) :
  Forall2 R l l' -> In y l' -> exists x, In x l /\ R x y.
Proof.
  induction 1 as [|a b l l' Hab _ IH]; intros Hin; [contradiction|].
  destruct Hin as [<-|Hin].
  - exists a. split; [now left | assumption].
  - destruct (IH Hin) as (x & Hx & Hr). exists x. split; [now right | assumption].
Qed.

Lemma touched_refl (ids : list Z) (fresh : Z -> Prop) f : touched ids fresh f f.
Proof. split; [apply same_detection_refl | now left]. Qed.

Lemma Forall2_touched_refl (ids : list Z) (fresh : Z -> Prop) (l : list face) :
  Forall2 (touched ids fresh) l l.
Proof. induction l; constructor; auto using touched_refl. Qed.

Lemma touched_compose (ids1 ids2 ids : list Z) (fresh1 fresh2 fresh : Z -> Prop)
      f g h :
  incl ids1 ids -> incl ids2 ids ->
  (forall q, fresh1 q -> fresh q) -> (forall q, fresh2 q -> fresh q) ->
  touched ids1 fresh1 f g -> touched ids2 fresh2 g h -> touched ids fresh f h.
Proof.
  intros I1 I2 F1 F2 [S1 H1] [S2 H2].
  split; [eauto using same_detection_trans|].
  destruct H2 as [->|(Hin & q & Hq & Hf)].
  - destruct H1 as [->|(Hin & q & Hq & Hf)]; [now left|].
    right. split; [apply I1; exact Hin|]. exists q. auto.
  - right. destruct S1 as (Hid & _). rewrite Hid in Hin.
    split; [apply I2; exact Hin|]. exists q. auto.
Qed.

Lemma touched_mono (ids ids' : list Z) (fresh fresh' : Z -> Prop) f g :
  incl ids ids' -> (forall q, fresh q -> fresh' q) ->
  touched ids fresh f g -> touched ids' fresh' f g.
Proof.
  intros I F [S [->|(Hin & q & Hq & Hf)]]; split; auto.
  right. split; [apply I; exact Hin|]. exists q. auto.
Qed.

Lemma update_face_person_touched (pid fid : Z) d :
  Forall2 (touched [fid] (eq pid)) (faces d) (faces (update_face_person pid fid d)).
Proof.
  unfold update_face_person. cbn [faces]. apply Forall2_map_self. intros f _.
  destruct (Z.eqb_spec (f_id f) fid) as [E|E]; [|apply touched_refl].
  split; [apply same_detection_set|]. right. split; [now left|].
  exists pid. split; reflexivity.
Qed.

Lemma assign_all_touched (pid : Z) (ids : list Z) d :
  Forall2 (touched ids (eq pid)) (faces d) (faces (assign_all pid ids d)).
Proof.
  rewrite assign_all_rows. cbn [faces]. apply Forall2_map_self. intros f _.
  destruct (existsb (Z.eqb (f_id f)) ids) eqn:E; [|apply touched_refl].
  split; [apply same_detection_set|]. right. split.
  - apply existsb_exists in E as (x & Hx & E). apply Z.eqb_eq in E. now subst.
  - exists pid. split; reflexivity.
Qed.

Lemma closest_person_key (thr : Q) (e : vec) (cs : list (Z * vec)) (pid : Z) :
  truthy (fst (closest_person thr e cs)) = Some pid ->
  In pid (map fst cs) /\ pid <> 0%Z.
Proof.
  intros T. apply truthy_some in T as [T Hnz]. split; [|exact Hnz].
  pose proof (closest_person_spec thr e cs) as Hs.
  destruct (closest_person thr e cs) as [b s]. cbn in T. subst b.
  destruct Hs as (l1 & c & l2 & -> & _). rewrite map_app. apply in_or_app.
  right. now left.
Qed.

Lemma match_faces_touched (thr : Q) (l : list (Z * vec)) :
  forall st,
    Forall2 (touched (map fst l) (fun q => In q (map fst (st_centroids st))))
            (faces (st_db st)) (faces (st_db (match_faces thr l st))).
Proof.
  unfold match_faces. induction l as [|[fid e] l IH]; intros st; cbn [fold_left].
  - apply Forall2_touched_refl.
  - specialize (IH (match_face thr st (fid, e))).
    destruct (truthy (fst (closest_person thr e (st_centroids st)))) as [pid|] eqn:T.
    + destruct (@match_face_assigned N thr st fid e pid T) as (Hdb & _ & _ & Hk).
      rewrite Hk in IH. rewrite Hdb in IH at 1.
      destruct (closest_person_key _ _ _ T) as [Hkey _].
      eapply Forall2_compose; [|apply (update_face_person_touched pid fid)|exact IH].
      intros x y z. apply touched_compose; cbn [map fst]; auto.
      * intros a [<-|[]]. now left.
      * intros a Ha. now right.
      * intros q <-. exact Hkey.
    + rewrite (@match_face_deferred N thr st fid e T) in IH |- *.
      cbn [st_db st_centroids] in IH.
      eapply Forall2_impl; [|exact IH]. intros x y.
      apply touched_mono; auto. cbn [map fst]. intros a Ha. now right.
Qed.

Lemma match_faces_persons (thr : Q) (l : list (Z * vec)) :
  forall st, persons (st_db (match_faces thr l st)) = persons (st_db st) /\
             persons_seq (st_db (match_faces thr l st)) = persons_seq (st_db st).
Proof.
  unfold match_faces. induction l as [|[fid e] l IH]; intros st; cbn [fold_left]; auto.
  destruct (IH (match_face thr st (fid, e))) as [-> ->].
  unfold match_face. destruct (truthy _); cbn; auto.
Qed.

Lemma match_faces_unmatched_ids (thr : Q) (l : list (Z * vec)) :
  forall st x, In x (map fst (st_unmatched (match_faces thr l st))) ->
               In x (map fst (st_unmatched st)) \/ In x (map fst l).
Proof.
  unfold match_faces. induction l as [|[fid e] l IH]; intros st x Hx;
    cbn [fold_left] in Hx; auto.
  apply IH in Hx as [Hx|Hx]; [|right; now right].
  unfold match_face in Hx. destruct (truthy _); cbn in Hx; auto.
  rewrite map_app in Hx. apply in_app_or in Hx as [Hx|[<-|[]]]; auto.
  right. now left.
Qed.

Lemma mint_fold_touched (nc : nat) (ids labels cs : list Z) :
  forall d k,
    Forall2 (touched ids (fun _ => True)) (faces d)
            (faces (fst (fold_left (mint_person nc ids labels) cs (d, k)))).
Proof.
  induction cs as [|c cs IH]; intros d k; cbn [fold_left].
  - apply Forall2_touched_refl.
  - change (mint_person nc ids labels (d, k) c) with
      (assign_all (snd (insert_person (person_label (Z.of_nat (nc + k + 1))) d))
                  (members ids labels c)
                  (fst (insert_person (person_label (Z.of_nat (nc + k + 1))) d)),
       S k).
    set (name := person_label (Z.of_nat (nc + k + 1))).
    pose proof (assign_all_touched (snd (insert_person name d))
                  (members ids labels c) (fst (insert_person name d))) as H1.
    change (faces (fst (insert_person name d))) with (faces d) in H1.
    eapply Forall2_compose; [|exact H1|apply IH].
    intros x y z. apply touched_compose; auto.
    + intros a Ha. eapply members_incl. exact Ha.
    + apply incl_refl.
Qed.

Lemma Forall2_both (A B : Type) (R1 R2 : A -> B -> Prop) (l : list A) (l' : list B) :
  Forall2 R1 l l' -> Forall2 R2 l l' -> Forall2 (fun a b => R1 a b /\ R2 a b) l l'.
Proof.
  intros H1. induction H1; intros H2; inversion H2; subst; constructor; auto.
Qed.

(** phase 2: rows appended to [persons], faces of the unmatched list moved
    to them *)
Lemma mine_rows (msn : Z) (nc : nat) (um : list (Z * vec)) d :
  exists news,
    persons (fst (mine_new_people msn nc um d)) = persons d ++ news /\
    List.length news = snd (mine_new_people msn nc um d) /\
    (persons_seq d <= persons_seq (fst (mine_new_people msn nc um d)))%Z /\
    Forall2 (touched (map fst um) (fun q => In q (map p_id news)))
            (faces d) (faces (fst (mine_new_people msn nc um d))).
Proof.
  destruct (mine_extends msn nc um d) as (news & (Hp & _ & _ & Hs & Hr) & Hl).
  exists news. conjs; auto.
  assert (Hids : Forall2 (touched (map fst um) (fun _ => True)) (faces d)
                         (faces (fst (mine_new_people msn nc um d)))).
  { unfold mine_new_people. destruct (Z.geb _ msn).
    - apply mint_fold_touched.
    - apply Forall2_touched_refl. }
  eapply Forall2_impl; [|exact (Forall2_both Hr Hids)].
  cbn. intros f f' [[Hs1 Hrep] [_ Hid]]. split; [exact Hs1|].
  destruct Hid as [->|(Hin & _)]; [now left|].
  destruct Hrep as [E|(q & Hq & _ & Hnew)].
  - left. now apply face_eta.
  - right. split; [exact Hin|]. exists q. auto.
Qed.

Lemma dict_set_keys_incl (V : Type) (k : Z) (v : V) (m : list (Z * V)) (x : Z) :
  In x (map fst (dict_set k v m)) -> x = k \/ In x (map fst m).
Proof.
  induction m as [|[k0 v0] m IH]; cbn [dict_set map fst In].
  - intros [<-|[]]. now left.
  - destruct (Z.eqb_spec k0 k) as [->|E]; cbn [map fst In].
    + intros [<-|H]; auto.
    + intros [<-|H]; auto. destruct (IH H); auto.
Qed.

Lemma centroid_keys_are_persons d (k : Z) :
  In k (map fst (person_centroids_of (select_existing d))) ->
  In k (map p_id (persons d)).
Proof.
  unfold person_centroids_of. rewrite map_map. cbn [fst].
  assert (G : forall rows acc,
             (forall x, In x (map fst acc) -> In x (map p_id (persons d))) ->
             (forall r, In r rows -> In (fst (fst r)) (map p_id (persons d))) ->
             forall x, In x (map fst (fold_left collect_embedding rows acc)) ->
                       In x (map p_id (persons d))).
  { induction rows as [|[[pid nm] e] rows IH]; intros acc Hacc Hrows; cbn [fold_left].
    - exact Hacc.
    - apply IH.
      + intros x Hx. unfold collect_embedding in Hx.
        destruct (dict_get pid acc);
          apply dict_set_keys_incl in Hx as [->|Hx]; auto;
          apply (Hrows (pid, nm, e)); now left.
      + intros r Hr. apply Hrows. now right. }
  apply G.
  - intros x [].
  - intros [[pid nm] e] Hr. unfold select_existing in Hr.
    apply in_flat_map in Hr as (f & _ & Hr).
    destruct (f_embedding f); [|contradiction].
    destruct (f_person_id f); [|contradiction].
    apply in_map_iff in Hr as (q & [= <- _ _] & Hq).
    apply filter_In in Hq as [Hq _]. cbn. now apply in_map.
Qed.

(** one pass, row by row *)
Lemma cluster_new_faces_rows (thr : Q) (msn : Z) d :
  let r := cluster_new_faces thr msn d in
  exists news,
    persons (fst r) = persons d ++ news /\
    (forall a n, snd r = Some (a, n) -> List.length news = n) /\
    (persons_seq d <= persons_seq (fst r))%Z /\
    Forall2 (touched (map fst (select_new_faces d))
                     (fun q => In q (map p_id (persons (fst r)))))
            (faces d) (faces (fst r)).
Proof.
  intros r. unfold r.
  destruct (select_new_faces d) as [|nf nfs] eqn:E1.
  { destruct (cluster_new_faces_result thr msn d) as [-> _]; auto.
    exists []. cbn. rewrite app_nil_r. conjs; auto; try discriminate; try lia.
    apply Forall2_touched_refl. }
  destruct (select_existing d) as [|ex exs] eqn:E2.
  { destruct (cluster_new_faces_result thr msn d) as [-> _]; auto.
    exists []. cbn. rewrite app_nil_r. conjs; auto; try discriminate; try lia.
    apply Forall2_touched_refl. }
  rewrite cluster_new_faces_run by (rewrite ?E1, ?E2; discriminate).
  cbv zeta. cbn [fst snd]. rewrite E1.
  set (st := match_faces thr (nf :: nfs) (pass_start d)).
  pose proof (match_faces_touched thr (nf :: nfs) (pass_start d)) as H1.
  fold st in H1. cbn [pass_start st_db st_centroids] in H1.
  destruct (match_faces_persons thr (nf :: nfs) (pass_start d)) as [Hp1 Hs1].
  fold st in Hp1, Hs1. cbn [pass_start st_db] in Hp1, Hs1.
  destruct (mine_rows msn (List.length (st_centroids st)) (st_unmatched st) (st_db st))
    as (news & Hp2 & Hl & Hs2 & H2).
  set (d2 := fst (mine_new_people msn _ (st_unmatched st) (st_db st))) in *.
  exists news. rewrite Hp2, Hp1. conjs; auto.
  - intros a n [= _ <-]. exact Hl.
  - lia.
  - assert (Hsub : incl (map fst (st_unmatched st)) (map fst (nf :: nfs))).
    { intros x Hx. apply match_faces_unmatched_ids in Hx as [[]|Hx]. exact Hx. }
    eapply Forall2_compose; [|exact H1|exact H2].
    intros x y z. apply touched_compose; auto using incl_refl.
    + intros q Hq. rewrite map_app. apply in_or_app. left.
      now apply centroid_keys_are_persons.
    + intros q Hq. rewrite map_app. apply in_or_app. now right.
Qed.

Lemma NoDup_map_same (A : Type) (h : A -> Z) (l : list A) (a b : A) :
  NoDup (map h l) -> In a l -> In b l -> h a = h b -> a = b.
Proof.
  induction l as [|c l IH]; cbn [map In]; intros Hnd Ha Hb E; [contradiction|].
  inversion Hnd as [|? ? Hni Hnd']; subst.
  destruct Ha as [->|Ha], Hb as [->|Hb]; auto.
  - exfalso. apply Hni. rewrite E. now apply in_map.
  - exfalso. apply Hni. rewrite <- E. now apply in_map.
Qed.

Lemma new_face_row d f :
  NoDup (map f_id (faces d)) -> In f (faces d) ->
  In (f_id f) (map fst (select_new_faces d)) ->
  f_person_id f = None /\ f_embedding f <> None.
Proof.
  intros Hnd Hf Hin. apply in_map_iff in Hin as ([fid e] & Hid & Hin).
  cbn in Hid. subst fid. unfold select_new_faces in Hin.
  apply in_flat_map in Hin as (g & Hg & Hin).
  destruct (f_embedding g) eqn:Eg; [|contradiction].
  destruct (f_person_id g) eqn:Pg; [contradiction|].
  destruct Hin as [[= Hid _]|[]].
  assert (g = f) by (eapply NoDup_map_same; eauto). subst g.
  split; [exact Pg | congruence].
Qed.

(** X1.  One pass of [cluster_new_faces] never touches a face that is
    already assigned, nor one without an embedding, and never changes a
    detection column: a row is left as it was, or it was embedded and
    unassigned and now points to a person of the table.  The person rows
    from before are all kept, in place and unchanged; the rows added are as
    many as the pass reports. *)
Theorem cluster_new_faces_only_assigns_new (thr : Q) (msn : Z) d :
  NoDup (map f_id (faces d)) ->
  let r := cluster_new_faces thr msn d in
  exists news,
    persons (fst r) = persons d ++ news /\
    (forall a n, snd r = Some (a, n) -> List.length news = n) /\
    Forall2 (newly_assigned (fst r)) (faces d) (faces (fst r)).
Proof.
  intros Hnd r. destruct (cluster_new_faces_rows thr msn d)
    as (news & Hp & Hl & _ & Hrows).
  fold r in Hp, Hl, Hrows. exists news. conjs; auto.
  eapply Forall2_with_In; [|exact Hrows]. cbn.
  intros f f' Hf [Hs [->|(Hin & q & Hq & Hfresh)]]; split; auto.
  right. destruct (new_face_row d f Hnd Hf Hin) as [H1 H2].
  conjs; auto. apply in_map_iff in Hfresh as (p & <- & Hp'). eauto.
Qed.

(** ** Invariants of the store *)

Lemma loop_invariant (P : db -> Prop) (thr : Q) (msn : Z) :
  (forall d, P d -> P (fst (cluster_new_faces thr msn d))) ->
  forall remaining ta tn it d,
    P d -> P (outcome_db (loop_from thr msn remaining ta tn it d)).
Proof.
  intros Hstep. induction remaining as [|r IH]; intros ta tn it d Hd;
    cbn [loop_from outcome_db]; auto.
  specialize (Hstep d Hd).
  destruct (cluster_new_faces thr msn d) as [d' [[a n]|]]; cbn [fst] in Hstep;
    [|exact Hstep].
  destruct (Nat.eqb a 0 && Nat.eqb n 0); [exact Hstep|]. apply IH. exact Hstep.
Qed.

(** X2.  The primary keys of both tables and the AUTOINCREMENT bound of
    [persons] are kept by every operation of the engine. *)
Theorem engine_keeps_keys (thr eps : Q) (msn min_samples max_iterations : Z)
        (person_id : Z) (name : string) d :
  wf_db d ->
  wf_db (label_person person_id name d) /\
  wf_db (delete_unconfirmed_people d) /\
  wf_db (cluster_faces eps min_samples d) /\
  wf_db (fst (cluster_new_faces thr msn d)) /\
  wf_db (outcome_db (cluster_new_faces_loop thr msn max_iterations d)).
Proof.
  intros Hwf. conjs.
  - now apply wf_db_label_person.
  - now apply wf_db_delete_unconfirmed_people.
  - now apply wf_db_cluster_faces.
  - now apply wf_db_cluster_new_faces.
  - unfold cluster_new_faces_loop. apply loop_invariant; auto.
    intros d0. apply wf_db_cluster_new_faces.
Qed.

Lemma refs_ok_label_person (person_id : Z) (name : string) d :
  refs_ok d -> refs_ok (label_person person_id name d).
Proof.
  intros Hr. unfold label_person.
  destruct (find _ (persons d)) as [current_person|]; [|exact Hr].
  destruct (find _ (persons d)) as [q|] eqn:E.
  - apply find_some in E as [Hq Hq'].
    apply andb_true_iff in Hq' as [_ Hne]. apply negb_true_iff, Z.eqb_neq in Hne.
    intros f' pid Hf' Hp. cbn in Hf'. apply in_map_iff in Hf' as (f & <- & Hf).
    cbn [delete_person persons repoint_faces].
    destruct (opt_Z_eqb (f_person_id f) person_id) eqn:O.
    + cbn in Hp. injection Hp as <-. apply in_map. apply filter_In. split; auto.
      apply negb_true_iff. now apply Z.eqb_neq.
    + specialize (Hr f pid Hf Hp). apply in_map_iff in Hr as (r & Hid & Hin).
      rewrite <- Hid. apply in_map. apply filter_In. split; auto.
      apply negb_true_iff, Z.eqb_neq. intros E'.
      rewrite Hp in O. cbn in O. apply Z.eqb_neq in O. congruence.
  - intros f pid Hf Hp. cbn in Hf |- *. rewrite map_map.
    specialize (Hr f pid Hf Hp). erewrite map_ext; [exact Hr|].
    intros r. now destruct (Z.eqb (p_id r) person_id).
Qed.

Lemma refs_ok_delete_unconfirmed_people d :
  refs_ok d -> refs_ok (delete_unconfirmed_people d).
Proof.
  intros Hr. destruct (delete_unconfirmed_people_rows d) as [Hp Hf].
  intros f' pid Hf' Hpid. rewrite Hf in Hf'. rewrite Hp.
  apply in_map_iff in Hf' as (f & <- & Hin).
  destruct (in_unconfirmed (persons d) f) eqn:U; [discriminate|].
  specialize (Hr f pid Hin Hpid). apply in_map_iff in Hr as (r & Hid & Hrin).
  rewrite <- Hid. apply in_map. apply filter_In. split; auto.
  destruct (p_confirmed r) eqn:C; auto.
  assert (in_unconfirmed (persons d) f = true); [|congruence].
  apply in_unconfirmed_iff. exists r. conjs; auto. congruence.
Qed.

Lemma refs_ok_cluster_faces (eps : Q) (min_samples : Z) d :
  refs_ok d -> refs_ok (cluster_faces eps min_samples d).
Proof.
  intros Hr. unfold cluster_faces.
  destruct (Z.ltb _ min_samples); [exact Hr|].
  set (d0 := delete_all_persons (clear_all_person_ids d)).
  destruct (@create_fold N (map fst (select_embedded d))
              (DBSCAN eps min_samples (map snd (select_embedded d)))
              (unique_clusters (DBSCAN eps min_samples (map snd (select_embedded d))))
              (persons_seq d) [] d0 d0 (extends_refl _ d0))
    as (news & (Hp & _ & _ & _ & Hrows) & _); [cbn; lia|].
  cbn [app] in Hp, Hrows. intros f' pid Hf' Hpid.
  eapply Forall2_In_right in Hf'; [|exact Hrows].
  destruct Hf' as (f0 & Hf0 & _ & [E|(q & Hq & _ & Hin)]).
  - cbn in Hf0. apply in_map_iff in Hf0 as (f & <- & _). cbn in E. congruence.
  - rewrite Hp. cbn. congruence.
Qed.

Lemma refs_ok_cluster_new_faces (thr : Q) (msn : Z) d :
  refs_ok d -> refs_ok (fst (cluster_new_faces thr msn d)).
Proof.
  intros Hr. destruct (cluster_new_faces_rows thr msn d) as (news & Hp & _ & _ & Hrows).
  cbv zeta in Hp, Hrows. intros f' pid Hf' Hpid.
  eapply Forall2_In_right in Hf'; [|exact Hrows].
  destruct Hf' as (f & Hf & _ & [->|(_ & q & Hq & Hin)]).
  - rewrite Hp, map_app. apply in_or_app. left. eapply Hr; eauto.
  - congruence.
Qed.

(** X3.  Referential integrity is kept by every operation of the engine: if
    no face points to a person that is not in the table, none does
    afterwards (a merge moves the faces before it deletes the row, and a
    release clears them). *)
Theorem engine_keeps_references (thr eps : Q) (msn min_samples max_iterations : Z)
        (person_id : Z) (name : string) d :
  refs_ok d ->
  refs_ok (label_person person_id name d) /\
  refs_ok (delete_unconfirmed_people d) /\
  refs_ok (cluster_faces eps min_samples d) /\
  refs_ok (fst (cluster_new_faces thr msn d)) /\
  refs_ok (outcome_db (cluster_new_faces_loop thr msn max_iterations d)).
Proof.
  intros Hr. conjs.
  - now apply refs_ok_label_person.
  - now apply refs_ok_delete_unconfirmed_people.
  - now apply refs_ok_cluster_faces.
  - now apply refs_ok_cluster_new_faces.
  - unfold cluster_new_faces_loop. apply loop_invariant; auto.
    intros d0. apply refs_ok_cluster_new_faces.
Qed.

(** ** The loop as a whole *)

Lemma newly_assigned_refl d f : newly_assigned d f f.
Proof. split; [apply same_detection_refl | now left]. Qed.

Lemma newly_assigned_compose d1 d2 f g h :
  (forall p, In p (persons d1) -> In p (persons d2)) ->
  newly_assigned d1 f g -> newly_assigned d2 g h -> newly_assigned d2 f h.
Proof.
  intros Hsub [S1 H1] [S2 H2]. split; [eauto using same_detection_trans|].
  destruct H2 as [->|(Hn & He & p & Hp & Hh)].
  - destruct H1 as [->|(Hn & He & p & Hp & Hg)]; [now left|].
    right. conjs; auto. exists p. auto.
  - destruct H1 as [->|(_ & _ & p' & _ & Hg)]; [|congruence].
    right. conjs; auto. exists p. auto.
Qed.

Lemma pass_grows (thr : Q) (msn : Z) d0 d :
  NoDup (map f_id (faces d)) ->
  (exists news, persons d = persons d0 ++ news) ->
  Forall2 (newly_assigned d) (faces d0) (faces d) ->
  let d' := fst (cluster_new_faces thr msn d) in
  NoDup (map f_id (faces d')) /\
  (exists news, persons d' = persons d0 ++ news) /\
  Forall2 (newly_assigned d') (faces d0) (faces d').
Proof.
  intros Hnd (news0 & Hp0) Hrows0 d'.
  destruct (cluster_new_faces_rows thr msn d) as (news & Hp & _ & _ & Hrows).
  fold d' in Hp, Hrows.
  assert (Hids : map f_id (faces d') = map f_id (faces d)).
  { clear - Hrows. induction Hrows as [|f f' l l' ((Hid & _) & _) _ IH];
      cbn [map]; congruence. }
  conjs.
  - now rewrite Hids.
  - exists (news0 ++ news). now rewrite Hp, Hp0, app_assoc.
  - eapply Forall2_compose; [|exact Hrows0|].
    + intros x y z. apply newly_assigned_compose.
      intros p Hin. rewrite Hp. apply in_or_app. now left.
    + eapply Forall2_with_In; [|exact Hrows]. cbn.
      intros f f' Hf [Hs [->|(Hin & q & Hq & Hfresh)]]; split; auto.
      right. destruct (new_face_row d f Hnd Hf Hin) as [H1 H2].
      conjs; auto. apply in_map_iff in Hfresh as (p & <- & Hp'). eauto.
Qed.

(** X4.  A whole run of [cluster_new_faces_loop], however it ends, only
    ever moves embedded, unassigned faces onto people: every face that was
    assigned before the run is exactly as it was, no detection column
    changes, and every person row from before is kept. *)
Theorem loop_only_assigns_new (thr : Q) (msn max_iterations : Z) d :
  NoDup (map f_id (faces d)) ->
  let d' := outcome_db (cluster_new_faces_loop thr msn max_iterations d) in
  (exists news, persons d' = persons d ++ news) /\
  Forall2 (newly_assigned d') (faces d) (faces d').
Proof.
  intros Hnd d'.
  set (P := fun x : db => NoDup (map f_id (faces x)) /\
                          (exists news, persons x = persons d ++ news) /\
                          Forall2 (newly_assigned x) (faces d) (faces x)).
  assert (H : P d').
  { unfold d', cluster_new_faces_loop. apply loop_invariant.
    - intros x (H1 & H2 & H3). now apply pass_grows.
    - unfold P. conjs; auto.
      + exists []. now rewrite app_nil_r.
      + rewrite <- (map_id (faces d)) at 2. apply Forall2_map_self.
        intros; apply newly_assigned_refl. }
  destruct H as (_ & H2 & H3). split; assumption.
Qed.

Lemma loop_from_totals (thr : Q) (msn : Z) (remaining : nat) :
  forall ta0 tn0 it0 d ta tn it c d',
    loop_from thr msn remaining ta0 tn0 it0 d = Returned ta tn it c d' ->
    exists k,
      (k <= remaining)%nat /\ it = (it0 + k)%nat /\
      ta = (ta0 + fst (totals thr msn k d))%nat /\
      tn = (tn0 + snd (totals thr msn k d))%nat /\
      d' = db_after thr msn k d /\
      List.length (persons d') =
      (List.length (persons d) + snd (totals thr msn k d))%nat.
Proof.
  induction remaining as [|r IH]; intros ta0 tn0 it0 d ta tn it c d';
    cbn [loop_from].
  - intros [= <- <- <- _ <-]. exists 0%nat. cbn. conjs; auto; lia.
  - destruct (cluster_new_faces_rows thr msn d) as (news & Hp & Hl & _).
    cbv zeta in Hp, Hl.
    destruct (cluster_new_faces thr msn d) as [d1 [[a n]|]] eqn:E;
      [|discriminate].
    cbn [fst snd] in Hp, Hl. specialize (Hl a n eq_refl).
    destruct (Nat.eqb a 0 && Nat.eqb n 0) eqn:Z0.
    + intros [= <- <- <- _ <-]. exists 1%nat. cbn [totals db_after].
      rewrite E. cbn. rewrite Hp, length_app. conjs; auto; lia.
    + intros H. apply IH in H as (k & Hk & -> & -> & -> & -> & Hlen).
      exists (S k). cbn [totals db_after]. rewrite E. cbn [fst].
      destruct (totals thr msn k d1) as [ta1 tn1]. cbn [fst snd] in *.
      rewrite Hlen, Hp, length_app. conjs; auto; lia.
Qed.

(** X5.  What a run of [cluster_new_faces_loop] returns is the sum of what
    its passes returned, its store is the store after that many passes, and
    the person table has grown by exactly the reported number of new
    people. *)
Theorem loop_totals (thr : Q) (msn max_iterations : Z) d
        (ta tn it : nat) (c : bool) d' :
  cluster_new_faces_loop thr msn max_iterations d = Returned ta tn it c d' ->
  (ta, tn) = totals thr msn it d /\
  d' = db_after thr msn it d /\
  List.length (persons d') = (List.length (persons d) + tn)%nat.
Proof.
  unfold cluster_new_faces_loop. intros H.
  apply loop_from_totals in H as (k & _ & -> & -> & -> & -> & Hlen).
  cbn [Nat.add]. conjs; auto. now destruct (totals thr msn k d).
Qed.

(** ** Counting the unassigned faces *)

Lemma select_new_faces_update (pid fid : Z) d :
  select_new_faces (update_face_person pid fid d) =
  filter (fun x => negb (Z.eqb (fst x) fid)) (select_new_faces d).
Proof.
  unfold select_new_faces, update_face_person. cbn [faces].
  induction (faces d) as [|a l IH]; cbn [map flat_map]; [reflexivity|].
  rewrite filter_app, IH. f_equal.
  destruct (Z.eqb_spec (f_id a) fid) as [E|E].
  - cbn [set_person_id f_embedding f_person_id].
    destruct (f_embedding a); [|reflexivity].
    destruct (f_person_id a); [reflexivity|].
    cbn [filter fst]. apply Z.eqb_eq in E. now rewrite E.
  - destruct (f_embedding a); [|reflexivity].
    destruct (f_person_id a); [reflexivity|].
    cbn [filter fst]. apply Z.eqb_neq in E. now rewrite E.
Qed.

Lemma filter_other_ids (V : Type) (fid : Z) (l : list (Z * V)) :
  ~ In fid (map fst l) -> filter (fun x => negb (Z.eqb (fst x) fid)) l = l.
Proof.
  induction l as [|[k v] l IH]; cbn [map fst filter In]; intros H; [reflexivity|].
  destruct (Z.eqb_spec k fid) as [->|E]; [tauto|].
  cbn [negb]. f_equal. apply IH. tauto.
Qed.

(** after phase 1 the embedded, unassigned faces of the store are the
    unmatched list *)
Lemma phase1_leaves_unmatched (thr : Q) (l : list (Z * vec)) :
  forall st,
    NoDup (map fst (st_unmatched st ++ l)) ->
    select_new_faces (st_db st) = st_unmatched st ++ l ->
    select_new_faces (st_db (match_faces thr l st)) =
    st_unmatched (match_faces thr l st).
Proof.
  unfold match_faces. induction l as [|[fid e] l IH]; intros st Hnd Hsel;
    cbn [fold_left].
  - now rewrite app_nil_r in Hsel.
  - destruct (truthy (fst (closest_person thr e (st_centroids st)))) as [pid|] eqn:T.
    + destruct (@match_face_assigned N thr st fid e pid T) as (Hdb & _ & Hu & _).
      apply IH; rewrite Hu.
      * rewrite map_app in Hnd |- *. cbn [map fst] in Hnd.
        now apply NoDup_remove_1 in Hnd.
      * rewrite Hdb, select_new_faces_update, Hsel, filter_app.
        cbn [filter fst]. rewrite Z.eqb_refl. cbn [negb].
        rewrite map_app in Hnd. cbn [map fst] in Hnd.
        apply NoDup_remove_2 in Hnd.
        rewrite !filter_other_ids; auto;
          intros H; apply Hnd; apply in_or_app; auto.
    + rewrite (@match_face_deferred N thr st fid e T).
      apply IH; cbn [st_db st_unmatched]; rewrite <- app_assoc; auto.
Qed.

Lemma touched_fewer_new (ids : list Z) (fresh : Z -> Prop) (l l' : list face) :
  Forall2 (touched ids fresh) l l' ->
  (List.length (select_new_faces (mkDb l' [] 0)) <=
   List.length (select_new_faces (mkDb l [] 0)))%nat.
Proof.
  unfold select_new_faces. cbn [faces].
  induction 1 as [|f f' l l' [Hs Ht] _ IH]; cbn [flat_map]; [lia|].
  rewrite !length_app.
  destruct Ht as [->|(_ & q & Hq & _)]; [lia|].
  rewrite Hq. destruct (f_embedding f'); cbn [List.length]; lia.
Qed.

Lemma select_new_faces_rows d :
  select_new_faces d = select_new_faces (mkDb (faces d) [] 0).
Proof. reflexivity. Qed.

Lemma pass_counts (thr : Q) (msn : Z) d (a n : nat) :
  NoDup (map f_id (faces d)) ->
  snd (cluster_new_faces thr msn d) = Some (a, n) ->
  (List.length (select_new_faces (fst (cluster_new_faces thr msn d))) + a <=
   List.length (select_new_faces d))%nat /\
  (n = 0%nat ->
   (List.length (select_new_faces (fst (cluster_new_faces thr msn d))) + a =
    List.length (select_new_faces d))%nat).
Proof.
  intros Hnd Hres.
  destruct (select_new_faces d) as [|nf nfs] eqn:E1.
  { destruct (cluster_new_faces_result thr msn d) as [Hn _].
    rewrite Hn in Hres by auto. discriminate. }
  destruct (select_existing d) as [|ex exs] eqn:E2.
  { destruct (cluster_new_faces_result thr msn d) as [Hn _].
    rewrite Hn in Hres by auto. discriminate. }
  rewrite cluster_new_faces_run in Hres |- * by (rewrite ?E1, ?E2; discriminate).
  cbv zeta in Hres |- *. cbn [fst snd] in Hres |- *. rewrite E1 in Hres |- *.
  set (st := match_faces thr (nf :: nfs) (pass_start d)) in *.
  injection Hres as Ha Hn.
  pose proof (select_new_faces_NoDup d Hnd) as Hnd'. rewrite E1 in Hnd'.
  destruct (@match_faces_inv N thr (nf :: nfs) (pass_start d) Hnd')
    as (_ & _ & _ & _ & _ & _ & _ & def & Hun & _ & _ & _ & Hcnt).
  fold st in Hun, Hcnt. cbn [pass_start st_unmatched st_assigned app] in Hun, Hcnt.
  assert (Hsel : select_new_faces (st_db st) = st_unmatched st).
  { apply phase1_leaves_unmatched; cbn [pass_start st_unmatched st_db app]; auto. }
  assert (Hlen1 : (List.length (select_new_faces (st_db st)) + a =
                   List.length (nf :: nfs))%nat).
  { rewrite Hsel, Hun. lia. }
  split.
  - destruct (mine_rows msn (List.length (st_centroids st)) (st_unmatched st) (st_db st))
      as (news & _ & _ & _ & Hrows).
    apply touched_fewer_new in Hrows. rewrite <- !select_new_faces_rows in Hrows.
    lia.
  - intros ->. apply mine_nobody in Hn. rewrite Hn. exact Hlen1.
Qed.

(** X6.  A pass that reports [assigned] matches has taken at least that
    many faces out of the pool of embedded, unassigned faces, and exactly
    that many when it created nobody: the count it prints is the number of
    faces that left the pool by matching. *)
Theorem pass_accounting (thr : Q) (msn : Z) d (assigned new_people : nat) :
  NoDup (map f_id (faces d)) ->
  snd (cluster_new_faces thr msn d) = Some (assigned, new_people) ->
  let d' := fst (cluster_new_faces thr msn d) in
  (List.length (select_new_faces d') + assigned <=
   List.length (select_new_faces d))%nat /\
  (new_people = 0%nat ->
   (List.length (select_new_faces d') + assigned =
    List.length (select_new_faces d))%nat) /\
  (assigned <= List.length (select_new_faces d))%nat.
Proof.
  intros Hnd Hres d'. destruct (pass_counts thr msn d Hnd Hres) as [H1 H2].
  fold d' in H1, H2. conjs; auto. lia.
Qed.

Lemma totals_bounded (thr : Q) (msn : Z) (k : nat) :
  forall d, NoDup (map f_id (faces d)) ->
            (fst (totals thr msn k d) <= List.length (select_new_faces d))%nat.
Proof.
  induction k as [|k IH]; intros d Hnd; cbn [totals]; [cbn; lia|].
  destruct (cluster_new_faces thr msn d) as [d1 [[a n]|]] eqn:E; [|cbn; lia].
  assert (Hres : snd (cluster_new_faces thr msn d) = Some (a, n)) by now rewrite E.
  destruct (pass_counts thr msn d Hnd Hres) as [H1 _]. rewrite E in H1.
  cbn [fst] in H1.
  assert (Hnd1 : NoDup (map f_id (faces d1))).
  { destruct (cluster_new_faces_rows thr msn d) as (news & _ & _ & _ & Hrows).
    cbv zeta in Hrows. rewrite E in Hrows. cbn [fst] in Hrows.
    assert (Hids : map f_id (faces d1) = map f_id (faces d)).
    { clear - Hrows. induction Hrows as [|f f' l l' ((Hid & _) & _) _ IH];
        cbn [map]; congruence. }
    now rewrite Hids. }
  specialize (IH d1 Hnd1). destruct (totals thr msn k d1) as [ta tn].
  cbn [fst] in *. lia.
Qed.

(** X7.  However many passes it makes, a run of the loop never reports
    more assignments to existing people than there were embedded,
    unassigned faces when it started. *)
Theorem loop_assigns_at_most_the_pool (thr : Q) (msn max_iterations : Z) d
        (ta tn it : nat) (c : bool) d' :
  NoDup (map f_id (faces d)) ->
  cluster_new_faces_loop thr msn max_iterations d = Returned ta tn it c d' ->
  (ta <= List.length (select_new_faces d))%nat.
Proof.
  intros Hnd H. unfold cluster_new_faces_loop in H.
  apply loop_from_totals in H as (k & _ & _ & -> & _).
  cbn [Nat.add]. now apply totals_bounded.
Qed.

(** ** Labelling *)

Lemma find_filtered_out (A : Type) (g : A -> bool) (l : list A) :
  find g (filter (fun a => negb (g a)) l) = None.
Proof.
  induction l as [|a l IH]; cbn [filter find]; auto.
  destruct (g a) eqn:E; cbn [negb find]; auto. now rewrite E.
Qed.

Lemma rename_confirm_twice (name : string) (pid : Z) d :
  rename_confirm name pid (rename_confirm name pid d) = rename_confirm name pid d.
Proof.
  unfold rename_confirm. cbn [faces persons persons_seq]. f_equal.
  rewrite map_map. apply map_ext. intros p.
  destruct (Z.eqb (p_id p) pid) eqn:E; cbn [p_id]; now rewrite E.
Qed.

(** X8.  [label_person] is idempotent: labelling the same person with the
    same name a second time changes nothing, whether the first call
    renamed, merged, or did not find the person. *)
Theorem label_person_idempotent (person_id : Z) (name : string) d :
  label_person person_id name (label_person person_id name d) =
  label_person person_id name d.
Proof.
  destruct (find (fun p => Z.eqb (p_id p) person_id) (persons d))
    as [current_person|] eqn:E1.
  - destruct (find (fun p => name_is name p && negb (Z.eqb (p_id p) person_id))
                   (persons d)) as [q|] eqn:E2.
    + assert (H : label_person person_id name d =
                  delete_person person_id (repoint_faces (p_id q) person_id d))
        by (unfold label_person; now rewrite E1, E2).
      rewrite H. unfold label_person. cbn [delete_person repoint_faces persons].
      now rewrite find_filtered_out.
    + assert (H : label_person person_id name d = rename_confirm name person_id d)
        by (unfold label_person; now rewrite E1, E2).
      rewrite H. unfold label_person. cbn [rename_confirm persons].
      rewrite !find_map_stable, E1, E2.
      * cbn [option_map]. apply rename_confirm_twice.
      * intros p. destruct (Z.eqb (p_id p) person_id) eqn:E; cbn [p_id];
          rewrite ?E; auto. cbn [negb]. now rewrite !andb_false_r.
      * intros p. destruct (Z.eqb (p_id p) person_id) eqn:E; cbn [p_id];
          now rewrite ?E.
  - assert (H : label_person person_id name d = d)
      by (unfold label_person; now rewrite E1).
    rewrite !H. reflexivity.
Qed.

(** X9.  An unknown person id makes [label_person] a no-op; and when the
    person exists and nobody else bears the name, the call only renames and
    confirms that person: faces, the other people and the id counter are
    left as they were. *)
Theorem label_person_without_collision (person_id : Z) (name : string) d :
  ((forall p, In p (persons d) -> p_id p <> person_id) ->
   label_person person_id name d = d) /\
  ((exists p, In p (persons d) /\ p_id p = person_id) ->
   (forall q, In q (persons d) -> p_name q = Some name -> p_id q = person_id) ->
   let d' := label_person person_id name d in
   faces d' = faces d /\ persons_seq d' = persons_seq d /\
   Forall2 (fun p p' =>
              p_id p' = p_id p /\
              (p_id p = person_id ->
               p_name p' = Some name /\ p_confirmed p' = true) /\
              (p_id p <> person_id -> p' = p))
           (persons d) (persons d')).
Proof.
  split.
  - intros Hnone. unfold label_person.
    destruct (find _ (persons d)) as [p|] eqn:E; [|reflexivity].
    apply find_some in E as [Hin E]. apply Z.eqb_eq in E.
    now apply Hnone in Hin.
  - intros (p & Hp & Hpid) Halone d'.
    assert (E1 : exists b, find (fun p => Z.eqb (p_id p) person_id) (persons d) = Some b).
    { apply find_is_some with p; auto. now apply Z.eqb_eq. }
    assert (E2 : find (fun p => name_is name p && negb (Z.eqb (p_id p) person_id))
                      (persons d) = None).
    { destruct (find (fun p => name_is name p && negb (Z.eqb (p_id p) person_id))
                     (persons d)) as [q|] eqn:E; [|reflexivity].
      apply find_some in E as [Hq E]. apply andb_true_iff in E as [Hn Hne].
      apply name_is_iff in Hn. apply negb_true_iff, Z.eqb_neq in Hne.
      now apply Halone in Hn. }
    destruct E1 as (b & E1).
    assert (Hd' : d' = rename_confirm name person_id d).
    { unfold d', label_person. now rewrite E1, E2. }
    rewrite Hd'. cbn [rename_confirm faces persons persons_seq]. conjs; auto.
    apply Forall2_map_self. intros r _.
    destruct (Z.eqb_spec (p_id r) person_id) as [E|E]; cbn [p_id p_name p_confirmed];
      conjs; auto; try contradiction.
Qed.

(** ** Releasing the unconfirmed people *)

(** X10.  After [delete_unconfirmed_people] every person left is confirmed,
    a second call changes nothing, and every embedded face that belonged to
    an unconfirmed person is back among the faces the next incremental pass
    will consider. *)
Theorem delete_unconfirmed_people_releases d :
  let d' := delete_unconfirmed_people d in
  (forall p, In p (persons d') -> p_confirmed p = true) /\
  delete_unconfirmed_people d' = d' /\
  (forall f e, In f (faces d) -> assigned_to_unconfirmed d f ->
               f_embedding f = Some e ->
               In (f_id f, e) (select_new_faces d')).
Proof.
  intros d'. destruct (delete_unconfirmed_people_rows d) as [Hp Hf].
  fold d' in Hp, Hf.
  assert (Hall : forall p, In p (persons d') -> p_confirmed p = true).
  { intros p Hin. rewrite Hp in Hin. apply filter_In in Hin. tauto. }
  conjs; auto.
  - unfold delete_unconfirmed_people at 1.
    destruct (filter (fun p => negb (p_confirmed p)) (persons d')) as [|q qs] eqn:E;
      [reflexivity|].
    assert (Hq : In q (filter (fun p => negb (p_confirmed p)) (persons d')))
      by (rewrite E; now left).
    apply filter_In in Hq as [Hq Hc]. rewrite (Hall q Hq) in Hc. discriminate.
  - intros f e Hin Hu He. unfold select_new_faces. rewrite Hf.
    apply in_flat_map.
    exists (if in_unconfirmed (persons d) f then set_person_id None f else f).
    split; [apply in_map_iff; exists f; split; [reflexivity | exact Hin]|].
    apply in_unconfirmed_iff in Hu. rewrite Hu. cbn. rewrite He. now left.
Qed.

(** ** The centroid dict *)

Lemma dict_get_set_same (V : Type) (k : Z) (v : V) (m : list (Z * V)) :
  dict_get k (dict_set k v m) = Some v.
Proof.
  induction m as [|[k0 v0] m IH]; cbn [dict_set dict_get].
  - now rewrite Z.eqb_refl.
  - destruct (Z.eqb k0 k) eqn:E; cbn [dict_get]; rewrite ?Z.eqb_refl, ?E; auto.
Qed.

Lemma dict_get_set_other (V : Type) (k k' : Z) (v : V) (m : list (Z * V)) :
  k <> k' -> dict_get k' (dict_set k v m) = dict_get k' m.
Proof.
  intros Hne. induction m as [|[k0 v0] m IH]; cbn [dict_set dict_get].
  - destruct (Z.eqb_spec k k'); [contradiction | reflexivity].
  - destruct (Z.eqb_spec k0 k) as [->|E]; cbn [dict_get].
    + destruct (Z.eqb_spec k k'); [contradiction | reflexivity].
    + now rewrite IH.
Qed.

Lemma dict_get_none (V : Type) (k : Z) (m : list (Z * V)) :
  ~ In k (map fst m) -> dict_get k m = None.
Proof.
  induction m as [|[k0 v0] m IH]; cbn [map fst In dict_get]; intros H; auto.
  destruct (Z.eqb_spec k0 k); [tauto|]. apply IH. tauto.
Qed.

Lemma dict_get_map (V W : Type) (h : V -> W) (k : Z) (m : list (Z * V)) :
  dict_get k (map (fun kv => (fst kv, h (snd kv))) m) = option_map h (dict_get k m).
Proof.
  induction m as [|[k0 v0] m IH]; cbn [map dict_get fst snd]; auto.
  destruct (Z.eqb k0 k); auto.
Qed.

Lemma collect_lookup (pid : Z) (rows : list (Z * option string * vec)) :
  forall acc,
    dict_get pid (fold_left collect_embedding rows acc) =
    match flat_map (fun r => if Z.eqb (fst (fst r)) pid then [snd r] else []) rows with
    | [] => dict_get pid acc
    | es => Some (match dict_get pid acc with Some l => l | None => [] end ++ es)
    end.
Proof.
  induction rows as [|[[q nm] e] rows IH]; intros acc; cbn [fold_left flat_map];
    [reflexivity|].
  rewrite IH. cbn [fst snd].
  assert (Hacc : dict_get pid (collect_embedding acc (q, nm, e)) =
                 if Z.eqb q pid
                 then Some (match dict_get pid acc with Some l => l | None => [] end
                            ++ [e])
                 else dict_get pid acc).
  { unfold collect_embedding. destruct (Z.eqb_spec q pid) as [->|Hne].
    - destruct (dict_get pid acc); now rewrite dict_get_set_same.
    - destruct (dict_get q acc); now rewrite dict_get_set_other. }
  rewrite Hacc. destruct (Z.eqb q pid); cbn [app];
    destruct (flat_map _ rows) as [|x xs]; destruct (dict_get pid acc);
    cbn [app]; rewrite <- ?app_assoc; reflexivity.
Qed.

Lemma existing_rows_of (pid : Z) d :
  NoDup (map p_id (persons d)) -> In pid (map p_id (persons d)) ->
  flat_map (fun r => if Z.eqb (fst (fst r)) pid then [snd r] else [])
           (select_existing d) =
  member_embeddings pid d.
Proof.
  intros Hnd Hin. unfold select_existing, member_embeddings.
  induction (faces d) as [|f l IH]; cbn [flat_map]; [reflexivity|].
  rewrite flat_map_app, IH. f_equal.
  destruct (f_embedding f) as [e|]; [|now destruct (f_person_id f)].
  destruct (f_person_id f) as [q|]; [|reflexivity].
  clear IH. destruct (Z.eqb_spec q pid) as [->|Hne].
  - induction (persons d) as [|p ps IHp]; [contradiction|].
    cbn [map] in Hnd, Hin. inversion Hnd as [|? ? Hni Hnd']; subst.
    cbn [filter]. destruct (Z.eqb_spec (p_id p) pid) as [E|E].
    + cbn [map flat_map fst snd]. rewrite E, Z.eqb_refl. cbn [app]. f_equal.
      assert (Hnone : filter (fun r => Z.eqb (p_id r) pid) ps = []).
      { clear - Hni E. induction ps as [|r rs IHr]; cbn [filter]; auto.
        destruct (Z.eqb_spec (p_id r) pid) as [E'|E'].
        - exfalso. apply Hni. rewrite E, <- E'. now left.
        - apply IHr. intros H. apply Hni. now right. }
      now rewrite Hnone.
    + destruct Hin as [Hin|Hin]; [contradiction|]. now apply IHp.
  - apply flat_map_nil. intros r Hr. apply in_map_iff in Hr as (p & <- & Hp).
    apply filter_In in Hp as [_ Hp]. apply Z.eqb_eq in Hp. cbn [fst snd].
    rewrite Hp. destruct (Z.eqb_spec q pid); [contradiction | reflexivity].
Qed.

(** X11.  The centroid of a person at the start of a pass is [np.mean] of
    the embeddings of the faces assigned to it, taken in face order; a
    person without an embedded face has no centroid, and neither has an id
    that is not in the person table. *)
Theorem centroids_are_means d (pid : Z) :
  NoDup (map p_id (persons d)) ->
  (In pid (map p_id (persons d)) ->
   dict_get pid (person_centroids_of (select_existing d)) =
   match member_embeddings pid d with
   | [] => None
   | es => Some (np_mean es)
   end) /\
  (~ In pid (map p_id (persons d)) ->
   dict_get pid (person_centroids_of (select_existing d)) = None).
Proof.
  intros Hnd. split.
  - intros Hin. unfold person_centroids_of. rewrite dict_get_map, collect_lookup.
    rewrite (existing_rows_of pid d Hnd Hin). cbn [dict_get app].
    now destruct (member_embeddings pid d).
  - intros Hout. apply dict_get_none. intros H. apply Hout.
    now apply centroid_keys_are_persons.
Qed.


(** ** The batch run, cluster by cluster *)

Lemma insert_label_In (c x : Z) (s : list Z) :
  In x (insert_label c s) <-> x = c \/ In x s.
Proof.
  induction s as [|a s IH]; cbn [insert_label In]; [intuition|].
  destruct (Z.ltb c a); cbn [In]; [intuition|].
  destruct (Z.eqb_spec c a) as [->|E]; cbn [In]; [intuition|].
  rewrite IH. intuition.
Qed.

Lemma insert_label_sorted (c : Z) (s : list Z) :
  StronglySorted Z.lt s -> StronglySorted Z.lt (insert_label c s).
Proof.
  induction 1 as [|a s Hs IH Ha]; cbn [insert_label].
  - repeat constructor.
  - destruct (Z.ltb_spec c a) as [Hlt|Hge].
    + constructor; [constructor; auto|]. constructor; auto.
      rewrite Forall_forall in *. intros x Hx. specialize (Ha x Hx). lia.
    + destruct (Z.eqb_spec c a) as [->|E]; [constructor; auto|].
      constructor; auto. rewrite Forall_forall in *. intros x Hx.
      apply insert_label_In in Hx as [->|Hx]; [lia | auto].
Qed.

Lemma unique_clusters_spec (labels : list Z) :
  NoDup (unique_clusters labels) /\
  forall c, In c (unique_clusters labels) <-> In c labels /\ c <> (-1)%Z.
Proof.
  unfold unique_clusters. split.
  - assert (Hs : StronglySorted Z.lt
                   (fold_right insert_label []
                      (filter (fun l => negb (Z.eqb l (-1))) labels))).
    { induction (filter _ labels) as [|a l IH]; cbn [fold_right];
        [constructor | now apply insert_label_sorted]. }
    induction Hs as [|a s _ IH Ha]; constructor; auto.
    rewrite Forall_forall in Ha. intros Hin. specialize (Ha a Hin). lia.
  - intros c.
    transitivity (In c (filter (fun l => negb (Z.eqb l (-1))) labels)).
    + induction (filter _ labels) as [|a l IH]; cbn [fold_right In]; [tauto|].
      rewrite insert_label_In, IH. intuition.
    + rewrite filter_In, negb_true_iff, Z.eqb_neq. tauto.
Qed.

Lemma members_iff (ids labels : list Z) (c fid : Z) :
  In fid (members ids labels c) <-> In (fid, c) (combine ids labels).
Proof.
  unfold members. rewrite in_map_iff. split.
  - intros ([i l] & <- & H). apply filter_In in H as [H E]. cbn in E.
    apply Z.eqb_eq in E. now subst.
  - intros H. exists (fid, c). split; auto. apply filter_In. split; auto.
    cbn. apply Z.eqb_refl.
Qed.

Lemma combine_one_label (ids labels : list Z) (i l l' : Z) :
  NoDup ids -> In (i, l) (combine ids labels) -> In (i, l') (combine ids labels) ->
  l = l'.
Proof.
  revert labels. induction ids as [|a ids IH]; intros [|b labels] Hnd H1 H2;
    cbn [combine In] in *; try contradiction.
  inversion Hnd as [|? ? Hni Hnd']; subst.
  destruct H1 as [E1|H1], H2 as [E2|H2].
  - congruence.
  - exfalso. apply Hni. injection E1 as -> _. eapply in_combine_l. exact H2.
  - exfalso. apply Hni. injection E2 as -> _. eapply in_combine_l. exact H1.
  - eauto.
Qed.

Lemma dict_get_unique (k k' : Z) (v : Z) (m : list (Z * Z)) :
  NoDup (map snd m) -> dict_get k m = Some v -> dict_get k' m = Some v -> k = k'.
Proof.
  induction m as [|[k0 v0] m IH]; cbn [map snd dict_get]; [discriminate|].
  intros Hnd H1 H2. inversion Hnd as [|? ? Hni Hnd']; subst.
  assert (Hval : forall x w, dict_get x m = Some w -> In w (map snd m)).
  { clear. induction m as [|[a b] m IHm]; cbn [dict_get map snd In]; [discriminate|].
    intros x w. destruct (Z.eqb a x); [intros [= ->]; now left|].
    intros H. right. eauto. }
  destruct (Z.eqb_spec k0 k) as [E1|E1], (Z.eqb_spec k0 k') as [E2|E2]; auto.
  - congruence.
  - injection H1 as ->. apply Hval in H2. contradiction.
  - injection H2 as ->. apply Hval in H1. contradiction.
Qed.

Lemma create_fold_members (ids labels : list Z) :
  NoDup ids ->
  forall cs d,
    NoDup cs ->
    exists made : list (Z * Z),
      map fst made = cs /\
      NoDup (map snd made) /\
      (forall cp, In cp made -> (persons_seq d < snd cp)%Z) /\
      persons (fold_left (create_person_for ids labels) cs d) =
        persons d ++ map cluster_person made /\
      (forall fid, ~ In fid ids ->
         person_of fid (fold_left (create_person_for ids labels) cs d) =
         person_of fid d) /\
      (forall fid l, In (fid, l) (combine ids labels) ->
         person_of fid (fold_left (create_person_for ids labels) cs d) =
         match dict_get l made with
         | Some pid => option_map (fun _ => Some pid) (person_of fid d)
         | None => person_of fid d
         end).
Proof.
  intros Hids. induction cs as [|c cs IH]; intros d Hcs; cbn [fold_left].
  - exists []. cbn. rewrite app_nil_r. conjs; auto; first [now constructor | intros cp []].
  - inversion Hcs as [|? ? Hc Hcs']; subst.
    change (create_person_for ids labels d c) with
      (assign_all (snd (insert_person (person_label (c + 1)) d))
                  (members ids labels c)
                  (fst (insert_person (person_label (c + 1)) d))).
    set (new_id := snd (insert_person (person_label (c + 1)) d)).
    set (d1 := assign_all new_id (members ids labels c)
                          (fst (insert_person (person_label (c + 1)) d))).
    destruct (IH d1 Hcs') as (made & Hfst & Hnd & Hgt & Hp & Hout & Hin).
    destruct (assign_all_frame new_id (members ids labels c)
                (fst (insert_person (person_label (c + 1)) d))) as (Hp1 & Hs1 & _).
    fold d1 in Hp1, Hs1. cbn [insert_person fst persons persons_seq] in Hp1, Hs1.
    assert (Hnew : (persons_seq d < new_id)%Z) by (unfold new_id; cbn; lia).
    assert (Hseq1 : persons_seq d1 = new_id) by (rewrite Hs1; reflexivity).
    assert (Hd1 : forall fid, person_of fid d1 =
                    if existsb (Z.eqb fid) (members ids labels c)
                    then option_map (fun _ => Some new_id) (person_of fid d)
                    else person_of fid d).
    { intros fid. unfold d1. now rewrite person_of_assign_all. }
    exists ((c, new_id) :: made). cbn [map fst snd]. conjs.
    + now rewrite Hfst.
    + constructor; auto. intros H. apply in_map_iff in H as (cp & E & Hcp).
      specialize (Hgt cp Hcp). lia.
    + intros cp [<-|Hcp]; cbn [snd]; [lia|]. specialize (Hgt cp Hcp). lia.
    + rewrite Hp, Hp1, <- app_assoc. reflexivity.
    + intros fid Hni. rewrite Hout by assumption. rewrite Hd1.
      destruct (existsb (Z.eqb fid) (members ids labels c)) eqn:E; auto.
      apply existsb_exists in E as (x & Hx & E). apply Z.eqb_eq in E. subst x.
      exfalso. apply Hni. eapply members_incl. exact Hx.
    + intros fid l Hfl. rewrite (Hin fid l Hfl), Hd1. cbn [dict_get].
      destruct (Z.eqb_spec c l) as [->|Hne].
      * rewrite dict_get_none by now rewrite Hfst.
        rewrite existsb_eqb_In; auto. now apply members_iff.
      * destruct (existsb (Z.eqb fid) (members ids labels c)) eqn:E.
        -- apply existsb_exists in E as (x & Hx & E). apply Z.eqb_eq in E. subst x.
           apply members_iff in Hx. exfalso. apply Hne.
           eapply combine_one_label with (ids := ids) (labels := labels) (i := fid);
             eauto.
        -- reflexivity.
Qed.

(** X12.  With at least [min_samples] embedded faces [cluster_faces] turns
    the labels of [fit_predict] into people faithfully: there is one
    unconfirmed person per cluster label, named "Person {label + 1}", with
    distinct ids; a face labelled with a cluster points to that cluster's
    person, a face labelled noise and a face without embedding point to
    nobody; so two clustered faces share a person exactly when they share a
    label. *)
Theorem cluster_faces_membership (eps : Q) (min_samples : Z) d :
  NoDup (map f_id (faces d)) ->
  (min_samples <= Z.of_nat (List.length (select_embedded d)))%Z ->
  let face_ids := map fst (select_embedded d) in
  let labels := DBSCAN eps min_samples (map snd (select_embedded d)) in
  let d' := cluster_faces eps min_samples d in
  exists made : list (Z * Z),
    map fst made = unique_clusters labels /\
    NoDup (map snd made) /\
    persons d' = map cluster_person made /\
    (forall fid, In fid (map f_id (faces d)) -> ~ In fid face_ids ->
                 person_of fid d' = Some None) /\
    (forall fid l, In (fid, l) (combine face_ids labels) ->
       (l = (-1)%Z -> person_of fid d' = Some None) /\
       (l <> (-1)%Z ->
        exists pid, dict_get l made = Some pid /\
                    person_of fid d' = Some (Some pid))) /\
    (forall fid l fid' l',
       In (fid, l) (combine face_ids labels) ->
       In (fid', l') (combine face_ids labels) ->
       l <> (-1)%Z -> l' <> (-1)%Z ->
       (person_of fid d' = person_of fid' d' <-> l = l')).
Proof.
  intros Hnd Hn face_ids labels d'.
  assert (Hreset : forall fid, In fid (map f_id (faces d)) ->
            person_of fid (delete_all_persons (clear_all_person_ids d)) = Some None).
  { intros fid Hin. unfold person_of. cbn [delete_all_persons clear_all_person_ids faces].
    rewrite find_map_stable by reflexivity.
    destruct (find (fun f => Z.eqb (f_id f) fid) (faces d)) as [f|] eqn:E;
      [reflexivity|].
    apply in_map_iff in Hin as (f & <- & Hf).
    pose proof (find_none _ _ E f Hf) as H. cbn in H.
    rewrite Z.eqb_refl in H. discriminate. }
  assert (Hsub : forall fid, In fid face_ids -> In fid (map f_id (faces d))).
  { intros fid H. unfold face_ids, select_embedded in H.
    apply in_map_iff in H as ([i e] & <- & H).
    apply in_flat_map in H as (f & Hf & H).
    destruct (f_embedding f); [|contradiction].
    destruct H as [[= <- _]|[]]. cbn. now apply in_map. }
  assert (Hids : NoDup face_ids).
  { unfold face_ids, select_embedded. clear - Hnd.
    induction (faces d) as [|a l IH]; cbn [flat_map map]; [constructor|].
    cbn [map] in Hnd. inversion Hnd as [|? ? Hni Hnd']; subst.
    destruct (f_embedding a); cbn [app map fst]; auto.
    constructor; auto. intros H. apply Hni.
    apply in_map_iff in H as ([i e] & <- & H).
    apply in_flat_map in H as (f & Hf & H).
    destruct (f_embedding f); [|contradiction].
    destruct H as [[= <- _]|[]]. cbn. now apply in_map. }
  destruct (unique_clusters_spec labels) as [Hcs Hcin].
  destruct (create_fold_members labels Hids
              (delete_all_persons (clear_all_person_ids d)) Hcs)
    as (made & Hfst & Hmade & _ & Hp & Hout & Hin).
  assert (Hd' : d' = fold_left (create_person_for face_ids labels)
                               (unique_clusters labels)
                               (delete_all_persons (clear_all_person_ids d))).
  { unfold d', cluster_faces.
    destruct (Z.ltb_spec (Z.of_nat (List.length (select_embedded d))) min_samples);
      [lia | reflexivity]. }
  rewrite <- Hd' in Hp, Hout, Hin. cbn [delete_all_persons persons app] in Hp.
  assert (Hlab : forall fid l, In (fid, l) (combine face_ids labels) ->
            (l = (-1)%Z -> person_of fid d' = Some None) /\
            (l <> (-1)%Z ->
             exists pid, dict_get l made = Some pid /\
                         person_of fid d' = Some (Some pid))).
  { intros fid l Hfl. rewrite (Hin fid l Hfl).
    rewrite (Hreset fid) by (apply Hsub; eapply in_combine_l; exact Hfl).
    split.
    - intros ->. rewrite dict_get_none; [reflexivity|].
      rewrite Hfst. intros H. apply Hcin in H. tauto.
    - intros Hne. destruct (dict_get l made) as [pid|] eqn:G; [eauto|].
      exfalso. assert (Hl : In l (map fst made)).
      { rewrite Hfst. apply Hcin. split; auto. eapply in_combine_r. exact Hfl. }
      clear - G Hl. induction made as [|[k v] m IHm]; [contradiction|].
      cbn [dict_get map fst In] in *.
      destruct (Z.eqb_spec k l); [discriminate|]. destruct Hl; auto. }
  exists made. conjs; auto.
  - intros fid Hfid Hni. rewrite Hout by assumption. now apply Hreset.
  - intros fid l fid' l' H1 H2 Hl Hl'.
    destruct (proj2 (Hlab fid l H1) Hl) as (pid & G & ->).
    destruct (proj2 (Hlab fid' l' H2) Hl') as (pid' & G' & ->).
    split.
    + intros [= ->]. eapply dict_get_unique; eauto.
    + intros ->. congruence.
Qed.

(** ** The writes of the API server *)

Lemma find_key (A : Type) (key : A -> Z) (k : Z) (l : list A) :
  In k (map key l) <-> exists a, find (fun a => Z.eqb (key a) k) l = Some a.
Proof.
  induction l as [|a l IH]; cbn [map In find].
  - split; [tauto | intros [a H]; discriminate].
  - destruct (Z.eqb_spec (key a) k) as [E|E].
    + split; eauto.
    + rewrite IH. split; [intros [H|H]; [contradiction | exact H] | auto].
Qed.

Lemma falsy_false (x : option Z) :
  falsy x = false <-> exists v, x = Some v /\ v <> 0%Z.
Proof.
  destruct x as [v|]; cbn [falsy].
  - rewrite Z.eqb_neq. split; [eauto | intros (w & [= ->] & H); exact H].
  - split; [discriminate | intros (w & [=] & _)].
Qed.


Lemma assign_face_to_person_cases (face_id person_id : option Z) d :
  (exists fid pid, face_id = Some fid /\ person_id = Some pid /\
                   In pid (map p_id (persons d)) /\
                   assignable face_id person_id d /\
                   assign_face_to_person face_id person_id d =
                   (update_face_person pid fid d, true)) \/
  (~ assignable face_id person_id d /\
   assign_face_to_person face_id person_id d = (d, false)).
Proof.
  unfold assign_face_to_person, assignable.
  destruct (falsy face_id) eqn:F1.
  { right. split; [|reflexivity]. intros (fid & pid & -> & _ & H & _).
    cbn in F1. apply Z.eqb_eq in F1. contradiction. }
  destruct (falsy person_id) eqn:F2.
  { right. split; [|reflexivity]. intros (fid & pid & _ & -> & _ & H & _).
    cbn in F2. apply Z.eqb_eq in F2. contradiction. }
  apply falsy_false in F1 as (fid & -> & Hf0).
  apply falsy_false in F2 as (pid & -> & Hp0). cbn [orb].
  destruct (find (fun f => Z.eqb (f_id f) fid) (faces d)) as [f|] eqn:E1.
  2:{ right. split; [|reflexivity].
      intros (fid' & pid' & [= <-] & _ & _ & _ & H & _).
      apply find_key in H as [a H]. congruence. }
  destruct (find (fun p => Z.eqb (p_id p) pid) (persons d)) as [p|] eqn:E2.
  2:{ right. split; [|reflexivity].
      intros (fid' & pid' & _ & [= <-] & _ & _ & _ & H).
      apply find_key in H as [a H]. congruence. }
  left. exists fid, pid.
  assert (Hp : In pid (map p_id (persons d))) by (apply find_key; eauto).
  conjs; auto. exists fid, pid. conjs; auto. apply find_key; eauto.
Qed.


Lemma ignore_face_cases (face_id : option Z) d :
  (exists fid, face_id = Some fid /\ fid <> 0%Z /\
               In fid (map f_id (faces d)) /\
               ignore_face face_id d =
               (mkDb (map (fun f => if Z.eqb (f_id f) fid
                                    then mark_ignored f else f) (faces d))
                     (persons d) (persons_seq d), true)) \/
  (~ (exists fid, face_id = Some fid /\ fid <> 0%Z /\
                  In fid (map f_id (faces d))) /\
   ignore_face face_id d = (d, false)).
Proof.
  unfold ignore_face. destruct (falsy face_id) eqn:F1.
  { right. split; [|reflexivity]. intros (fid & -> & H & _).
    cbn in F1. apply Z.eqb_eq in F1. contradiction. }
  apply falsy_false in F1 as (fid & -> & Hf0).
  destruct (find (fun f => Z.eqb (f_id f) fid) (faces d)) as [f|] eqn:E1.
  - left. exists fid. conjs; auto. apply find_key; eauto.
  - right. split; [|reflexivity]. intros (fid' & [= <-] & _ & H).
    apply find_key in H as [a H]. congruence.
Qed.



(** ** [ORDER BY] *)

Lemma insert_by_perm (A : Type) (before : A -> A -> bool) (a : A) (l : list A) :
  Permutation (insert_by before a l) (a :: l).
Proof.
  induction l as [|b l IH]; cbn [insert_by]; [reflexivity|].
  destruct (before a b); [reflexivity|].
  rewrite IH. apply perm_swap.
Qed.

Lemma order_by_perm (A : Type) (before : A -> A -> bool) (l : list A) :
  Permutation (order_by before l) l.
Proof.
  unfold order_by. induction l as [|a l IH]; cbn [fold_right]; [reflexivity|].
  rewrite insert_by_perm. now constructor.
Qed.

Lemma order_by_In (A : Type) (before : A -> A -> bool) (l : list A) (x : A) :
  In x (order_by before l) <-> In x l.
Proof.
  split; apply Permutation_in;
    [apply order_by_perm | symmetry; apply order_by_perm].
Qed.

Lemma insert_by_sorted (A : Type) (before : A -> A -> bool) (a : A) (l : list A) :
  (forall x y, before x y = false -> before y x = true) ->
  Sorted (fun x y => before x y = true) l ->
  Sorted (fun x y => before x y = true) (insert_by before a l).
Proof.
  intros Htot. induction 1 as [|b l Hs IH Hb]; cbn [insert_by].
  - repeat constructor.
  - destruct (before a b) eqn:E.
    + constructor; [constructor; auto | constructor; exact E].
    + constructor; [exact IH|].
      destruct l as [|c l]; cbn [insert_by].
      * constructor. now apply Htot.
      * destruct (before a c); constructor;
          [now apply Htot | now inversion Hb].
Qed.

Lemma order_by_sorted (A : Type) (before : A -> A -> bool) (l : list A) :
  (forall x y, before x y = false -> before y x = true) ->
  (forall x y z, before x y = true -> before y z = true -> before x z = true) ->
  StronglySorted (fun x y => before x y = true) (order_by before l).
Proof.
  intros Htot Htrans. apply Sorted_StronglySorted.
  - intros x y z. apply Htrans.
  - unfold order_by. induction l as [|a l IH]; cbn [fold_right];
      [constructor | now apply insert_by_sorted].
Qed.

Lemma StronglySorted_weaken (A : Type) (R R' : A -> A -> Prop) (l : list A) :
  (forall a b, R a b -> R' a b) -> StronglySorted R l -> StronglySorted R' l.
Proof.
  intros H. induction 1 as [|a l _ IH Ha]; constructor; auto.
  eapply Forall_impl; [|exact Ha]. intros b. apply H.
Qed.

(** rows that agree on the sort key are put in the same places *)
Lemma order_by_Forall2 (A : Type) (before : A -> A -> bool) (R : A -> A -> Prop)
      (l l' : list A) :
  (forall a a' b b', R a a' -> R b b' -> before a b = before a' b') ->
  Forall2 R l l' -> Forall2 R (order_by before l) (order_by before l').
Proof.
  intros Hkey. unfold order_by.
  induction 1 as [|a a' l l' Ha _ IH]; cbn [fold_right]; [constructor|].
  revert IH. generalize (fold_right (insert_by before) [] l).
  generalize (fold_right (insert_by before) [] l').
  intros s' s. induction 1 as [|b b' s s' Hb Hs IHs]; cbn [insert_by].
  - repeat constructor. exact Ha.
  - rewrite (Hkey a a' b b' Ha Hb).
    destruct (before a' b'); repeat constructor; auto.
Qed.

(** ** [get_people_stats] *)

Lemma distinct_count_le (l : list Z) : (distinct_count l <= List.length l)%nat.
Proof.
  induction l as [|a l IH]; cbn [distinct_count List.length]; [lia|].
  destruct (existsb (Z.eqb a) l); lia.
Qed.

Lemma distinct_count_zero (l : list Z) : distinct_count l = 0%nat <-> l = [].
Proof.
  split; [|intros ->; reflexivity].
  induction l as [|a l IH]; cbn [distinct_count]; [reflexivity|].
  destruct (existsb (Z.eqb a) l) eqn:E; [|discriminate].
  intros H. apply IH in H. subst. discriminate.
Qed.

(** X15.  [get_people_stats] lists every person row exactly once, with the
    row's own name and flag, most faces first.  A person's [face_count] is
    the number of faces that point to them, ignored or not; [image_count]
    never exceeds it and is zero only together with it; a person without
    faces is reported with average confidence 0. *)
Theorem get_people_stats_listing d :
  Permutation (map s_id (get_people_stats d)) (map p_id (persons d)) /\
  StronglySorted (fun a b => (s_face_count b <= s_face_count a)%nat)
                 (get_people_stats d) /\
  (forall s, In s (get_people_stats d) ->
     (exists p, In p (persons d) /\ s_id s = p_id p /\
                s_name s = p_name p /\ s_confirmed s = p_confirmed p) /\
     s_face_count s = face_count (s_id s) d /\
     (s_image_count s <= s_face_count s)%nat /\
     (s_image_count s = 0%nat <-> s_face_count s = 0%nat) /\
     (s_face_count s = 0%nat -> s_avg_confidence s = 0)).
Proof.
  unfold get_people_stats. conjs.
  - rewrite order_by_perm, map_map. reflexivity.
  - eapply StronglySorted_weaken;
      [|apply order_by_sorted with (before := more_faces)].
    + intros a b H. unfold more_faces in H. now apply Nat.leb_le in H.
    + intros x y. unfold more_faces. rewrite Nat.leb_gt, Nat.leb_le. lia.
    + intros x y z. unfold more_faces. rewrite !Nat.leb_le. lia.
  - intros s Hs. apply order_by_In in Hs. apply in_map_iff in Hs as (p & <- & Hp).
    unfold stat_of, face_count. cbn. conjs.
    + exists p. auto.
    + reflexivity.
    + rewrite <- (length_map f_image_id (faces_of (p_id p) d)).
      apply distinct_count_le.
    + rewrite distinct_count_zero. rewrite <- length_zero_iff_nil, length_map.
      reflexivity.
    + intros H. apply length_zero_iff_nil in H. rewrite H. reflexivity.
Qed.

Lemma count_one (ps : list person) (pid : Z) :
  NoDup (map p_id ps) -> In pid (map p_id ps) ->
  list_sum (map (fun p => if Z.eqb pid (p_id p) then 1%nat else 0%nat) ps) = 1%nat.
Proof.
  induction ps as [|p ps IH]; cbn [map In list_sum fold_right]; [tauto|].
  intros Hnd Hin. inversion Hnd as [|? ? Hni Hnd']; subst.
  destruct (Z.eqb_spec pid (p_id p)) as [E|E].
  - f_equal. subst pid. clear - Hni.
    induction ps as [|q ps IH]; cbn [map list_sum fold_right]; [reflexivity|].
    cbn [map In] in Hni.
    destruct (Z.eqb_spec (p_id p) (p_id q)) as [E|E]; [exfalso; auto|].
    apply IH. tauto.
  - destruct Hin as [Hin|Hin]; [congruence|]. now apply IH.
Qed.

Lemma count_faces_by_person (ps : list person) (fs : list face) :
  NoDup (map p_id ps) ->
  (forall f pid, In f fs -> f_person_id f = Some pid -> In pid (map p_id ps)) ->
  list_sum (map (fun p => List.length
                            (filter (fun f => opt_Z_eqb (f_person_id f) (p_id p)) fs))
                ps) =
  List.length (filter is_assigned fs).
Proof.
  intros Hnd. induction fs as [|a fs IH]; intros Href.
  - cbn [filter List.length]. clear. induction ps as [|p ps IHp]; cbn; auto.
  - assert (Hsplit : forall qs,
              list_sum (map (fun p => List.length
                                (filter (fun f => opt_Z_eqb (f_person_id f) (p_id p))
                                        (a :: fs))) qs) =
              (list_sum (map (fun p => if opt_Z_eqb (f_person_id a) (p_id p)
                                       then 1%nat else 0%nat) qs) +
               list_sum (map (fun p => List.length
                                (filter (fun f => opt_Z_eqb (f_person_id f) (p_id p))
                                        fs)) qs))%nat).
    { induction qs as [|q qs IHq]; cbn [map list_sum fold_right]; [reflexivity|].
      fold (list_sum (map (fun p => List.length
                                (filter (fun f => opt_Z_eqb (f_person_id f) (p_id p))
                                        (a :: fs))) qs)).
      rewrite IHq. cbn [filter].
      destruct (opt_Z_eqb (f_person_id a) (p_id q)); cbn [List.length];
        unfold list_sum; lia. }
    rewrite Hsplit, IH by (intros f pid Hf; apply Href; now right).
    cbn [filter]. unfold is_assigned at 2.
    destruct (f_person_id a) as [pid|] eqn:Ea; cbn [opt_Z_eqb List.length].
    + rewrite count_one; [reflexivity | exact Hnd |].
      eapply Href; [now left | exact Ea].
    + replace (list_sum (map (fun _ : person => 0%nat) ps)) with 0%nat; [reflexivity|].
      clear. induction ps; cbn; auto.
Qed.

(** X16.  When person ids are distinct and every face points to an existing
    person or to nobody, the face counts of [get_people_stats] add up to the
    number of assigned faces: each assigned face is counted once. *)
Theorem get_people_stats_counts_each_face_once d :
  NoDup (map p_id (persons d)) -> refs_ok d ->
  list_sum (map s_face_count (get_people_stats d)) =
  List.length (filter is_assigned (faces d)).
Proof.
  intros Hnd Hr. unfold get_people_stats.
  rewrite (Permutation_list_sum
             (Permutation_map s_face_count
                (order_by_perm more_faces (map (stat_of d) (persons d))))).
  rewrite map_map. cbn [stat_of s_face_count].
  apply count_faces_by_person; auto.
Qed.

(** X17.  A merge by [label_person] loses no face: the person that keeps
    the name counts its own faces plus those of the person that went away,
    the id that went away counts none, every other person counts what it
    counted, and the number of assigned faces is what it was. *)
Theorem label_person_merge_adds_counts d (person_id : Z) (name : string)
        (target : person) :
  In person_id (map p_id (persons d)) ->
  find (fun p => name_is name p && negb (Z.eqb (p_id p) person_id)) (persons d)
  = Some target ->
  let d' := label_person person_id name d in
  face_count (p_id target) d' =
    (face_count (p_id target) d + face_count person_id d)%nat /\
  face_count person_id d' = 0%nat /\
  (forall q, q <> person_id -> q <> p_id target ->
             face_count q d' = face_count q d) /\
  List.length (filter is_assigned (faces d')) =
  List.length (filter is_assigned (faces d)).
Proof.
  intros Hin Hfind d'.
  assert (Hd' : faces d' =
                map (fun f => if opt_Z_eqb (f_person_id f) person_id
                              then set_person_id (Some (p_id target)) f else f)
                    (faces d)).
  { unfold d', label_person. apply find_key in Hin as [p0 ->].
    rewrite Hfind. reflexivity. }
  apply find_some in Hfind as [_ Hne]. apply andb_true_iff in Hne as [_ Hne].
  apply negb_true_iff in Hne. apply Z.eqb_neq in Hne.
  unfold face_count, faces_of. rewrite Hd'. clear Hd' d' Hin.
  induction (faces d) as [|a l (IH1 & IH2 & IH3 & IH4)]; cbn [map filter List.length].
  { conjs; auto. }
  assert (Hrow : forall q,
            opt_Z_eqb (f_person_id
                         (if opt_Z_eqb (f_person_id a) person_id
                          then set_person_id (Some (p_id target)) a else a)) q =
            if opt_Z_eqb (f_person_id a) person_id then Z.eqb (p_id target) q
            else opt_Z_eqb (f_person_id a) q).
  { intros q. destruct (opt_Z_eqb (f_person_id a) person_id); reflexivity. }
  assert (Hass : is_assigned (if opt_Z_eqb (f_person_id a) person_id
                              then set_person_id (Some (p_id target)) a else a) =
                 is_assigned a).
  { unfold is_assigned.
    destruct (opt_Z_eqb (f_person_id a) person_id) eqn:E; [|reflexivity].
    destruct (f_person_id a); [reflexivity | discriminate]. }
  rewrite !Hrow, Hass.
  assert (Hpid : opt_Z_eqb (f_person_id a) person_id = true ->
                 opt_Z_eqb (f_person_id a) (p_id target) = false).
  { destruct (f_person_id a) as [q|]; cbn [opt_Z_eqb]; [|discriminate].
    intros H. apply Z.eqb_eq in H. subst q. now apply Z.eqb_neq. }
  conjs.
  - destruct (opt_Z_eqb (f_person_id a) person_id) eqn:E1.
    + rewrite Z.eqb_refl, (Hpid eq_refl). cbn [List.length]. lia.
    + destruct (opt_Z_eqb (f_person_id a) (p_id target)); cbn [List.length]; lia.
  - destruct (opt_Z_eqb (f_person_id a) person_id) eqn:E1; [|exact IH2].
    destruct (Z.eqb_spec (p_id target) person_id); [congruence | exact IH2].
  - intros q Hq1 Hq2. rewrite Hrow. specialize (IH3 q Hq1 Hq2).
    destruct (opt_Z_eqb (f_person_id a) person_id) eqn:E1.
    + destruct (Z.eqb_spec (p_id target) q); [congruence|].
      assert (Hq : opt_Z_eqb (f_person_id a) q = false).
      { destruct (f_person_id a) as [r|]; cbn [opt_Z_eqb] in *; [|reflexivity].
        apply Z.eqb_eq in E1. subst r. now apply Z.eqb_neq. }
      rewrite Hq. exact IH3.
    + destruct (opt_Z_eqb (f_person_id a) q); cbn [List.length]; lia.
  - destruct (is_assigned a); cbn [List.length]; lia.
Qed.

(** ** The reads of the API server *)

Lemma string_leb_compare (s1 s2 : string) :
  String.leb s1 s2 = true <-> String.compare s1 s2 <> Gt.
Proof.
  unfold String.leb. destruct (String.compare s1 s2); split; congruence.
Qed.

Lemma string_leb_trans (s1 s2 s3 : string) :
  String.leb s1 s2 = true -> String.leb s2 s3 = true -> String.leb s1 s3 = true.
Proof.
  rewrite !string_leb_compare. revert s2 s3.
  induction s1 as [|c1 s1 IH]; intros [|c2 s2] [|c3 s3];
    cbn [String.compare]; try congruence.
  pose proof (Ascii.compare_eq_iff c1 c2) as E12.
  pose proof (Ascii.compare_eq_iff c2 c3) as E23.
  assert (R : forall c, Ascii.compare c c = Eq)
    by (intros c; unfold Ascii.compare; apply N.compare_refl).
  intros H1 H2.
  destruct (Ascii.compare c1 c2) eqn:C12; try congruence;
    destruct (Ascii.compare c2 c3) eqn:C23; try congruence.
  - rewrite (E12 eq_refl), (E23 eq_refl) in *. rewrite R. eauto.
  - rewrite (E12 eq_refl) in *. rewrite C23. congruence.
  - rewrite <- (E23 eq_refl) in *. rewrite C12. congruence.
  - assert (L12 : (Ascii.N_of_ascii c1 < Ascii.N_of_ascii c2)%N)
      by (apply N.compare_lt_iff; exact C12).
    assert (L23 : (Ascii.N_of_ascii c2 < Ascii.N_of_ascii c3)%N)
      by (apply N.compare_lt_iff; exact C23).
    assert (L13 : Ascii.compare c1 c3 = Lt)
      by (apply N.compare_lt_iff; lia).
    rewrite L13. congruence.
Qed.

Lemma string_leb_false (s1 s2 : string) :
  String.leb s1 s2 = false -> String.leb s2 s1 = true.
Proof. intros H. destruct (String.leb_total s1 s2); congruence. Qed.

Lemma shown_plus_ignored (pid : Z) (l : list face) :
  (List.length (filter (fun f => opt_Z_eqb (f_person_id f) pid
                                 && negb (f_ignored f)) l) +
   List.length (filter (fun f => opt_Z_eqb (f_person_id f) pid
                                 && f_ignored f) l))%nat =
  List.length (filter (fun f => opt_Z_eqb (f_person_id f) pid) l).
Proof.
  induction l as [|a l IH]; cbn [filter List.length]; [reflexivity|].
  destruct (opt_Z_eqb (f_person_id a) pid), (f_ignored a);
    cbn [andb negb List.length]; lia.
Qed.

(** X18.  [get_all_people] lists the people that have a non-empty name and
    only those, each with its own id and flag, in ascending bytewise order
    of the names.  Its [face_count] leaves out the ignored faces: together
    with the ignored faces of the person it is the [face_count] that
    [get_people_stats] reports. *)
Theorem get_all_people_listing d :
  StronglySorted (fun a b => String.leb (e_name a) (e_name b) = true)
                 (get_all_people d) /\
  (forall e, In e (get_all_people d) ->
     e_name e <> EmptyString /\
     (exists p, In p (persons d) /\ p_id p = e_id e /\
                p_name p = Some (e_name e) /\ p_confirmed p = e_confirmed e) /\
     (e_face_count e +
      List.length (filter (fun f => opt_Z_eqb (f_person_id f) (e_id e)
                                    && f_ignored f) (faces d)))%nat =
     face_count (e_id e) d) /\
  (forall p name, In p (persons d) -> p_name p = Some name ->
                  name <> EmptyString ->
     exists e, In e (get_all_people d) /\ e_id e = p_id p /\ e_name e = name).
Proof.
  unfold get_all_people. conjs.
  - apply order_by_sorted with (before := name_first).
    + intros x y. apply string_leb_false.
    + intros x y z. apply string_leb_trans.
  - intros e He. apply order_by_In in He.
    apply in_flat_map in He as (p & Hp & He). unfold entry_of in He.
    destruct (p_name p) as [name|] eqn:En; [|contradiction].
    destruct (String.eqb_spec name EmptyString) as [E|E]; [contradiction|].
    destruct He as [<-|[]]. cbn [e_name e_id e_confirmed e_face_count]. conjs.
    + exact E.
    + exists p. auto.
    + unfold shown_faces_of, face_count, faces_of. apply shown_plus_ignored.
  - intros p name Hp En Hne.
    exists (mkEntry (p_id p) name (p_confirmed p)
                    (List.length (shown_faces_of (p_id p) d))).
    conjs; auto. apply order_by_In. apply in_flat_map. exists p. split; auto.
    unfold entry_of. rewrite En.
    destruct (String.eqb_spec name EmptyString); [contradiction | now left].
Qed.

Lemma more_confident_total (x y : face_entry) :
  more_confident x y = false -> more_confident y x = true.
Proof.
  unfold more_confident.
  destruct (fe_confidence x) as [a|], (fe_confidence y) as [b|]; try congruence.
  intros H. apply Qle_bool_iff.
  destruct (Qle_bool b a) eqn:E; [discriminate|].
  destruct (Qlt_le_dec a b) as [Hlt|Hle]; [now apply Qlt_le_weak|].
  apply Qle_bool_iff in Hle. congruence.
Qed.

Lemma more_confident_trans (x y z : face_entry) :
  more_confident x y = true -> more_confident y z = true ->
  more_confident x z = true.
Proof.
  unfold more_confident.
  destruct (fe_confidence x) as [a|], (fe_confidence y) as [b|],
           (fe_confidence z) as [c|]; try congruence.
  rewrite !Qle_bool_iff. intros H1 H2. eapply Qle_trans; eauto.
Qed.

Lemma more_confident_meaning (a b : face_entry) :
  more_confident a b = true -> at_least_as_confident a b.
Proof.
  unfold more_confident, at_least_as_confident. intros H y Hy. rewrite Hy in H.
  destruct (fe_confidence a) as [x|]; [|discriminate].
  exists x. split; [reflexivity | now apply Qle_bool_iff].
Qed.

(** X19.  [get_faces_for_image] lists exactly the faces of that image that
    are not ignored, once each, highest confidence first and unknown
    confidence last, with the box and the assignment of the face row.  The
    name and the flag are those of the person the face points to; a face
    that points to nobody, or to a person that is not in the table, is
    listed without a name and as unconfirmed. *)
Theorem get_faces_for_image_listing (image_id : Z) d :
  NoDup (map p_id (persons d)) ->
  let listed := get_faces_for_image image_id d in
  Permutation (map fe_id listed)
              (map f_id (filter (shown_in image_id) (faces d))) /\
  StronglySorted at_least_as_confident listed /\
  (forall e, In e listed ->
     fe_ignored e = false /\
     (exists f, In f (faces d) /\ f_image_id f = image_id /\
                f_ignored f = false /\ fe_id e = f_id f /\
                fe_x e = f_x f /\ fe_y e = f_y f /\
                fe_width e = f_width f /\ fe_height e = f_height f /\
                fe_confidence e = f_confidence f /\
                fe_person_id e = f_person_id f) /\
     (forall p, In p (persons d) -> fe_person_id e = Some (p_id p) ->
                fe_person_name e = p_name p /\ fe_confirmed e = p_confirmed p) /\
     ((forall p, In p (persons d) -> fe_person_id e <> Some (p_id p)) ->
      fe_person_name e = None /\ fe_confirmed e = false)).
Proof.
  intros Hnd listed. unfold listed, get_faces_for_image.
  fold (shown_in image_id). conjs.
  - rewrite order_by_perm, map_map. reflexivity.
  - eapply StronglySorted_weaken; [apply more_confident_meaning|].
    apply order_by_sorted;
      [apply more_confident_total | apply more_confident_trans].
  - intros e He. apply order_by_In in He. apply in_map_iff in He as (f & <- & Hf).
    apply filter_In in Hf as [Hf Hshown]. unfold shown_in in Hshown.
    apply andb_true_iff in Hshown as [Himg Hign].
    apply Z.eqb_eq in Himg. apply negb_true_iff in Hign.
    unfold face_entry_of, person_row.
    cbn [fe_ignored fe_id fe_x fe_y fe_width fe_height fe_confidence
         fe_person_id fe_person_name fe_confirmed]. conjs.
    + exact Hign.
    + exists f. conjs; auto.
    + intros p Hp E. rewrite E.
      assert (Hfind : find (fun q => Z.eqb (p_id q) (p_id p)) (persons d) = Some p).
      { destruct (find (fun q => Z.eqb (p_id q) (p_id p)) (persons d)) as [q|] eqn:Eq.
        - apply find_some in Eq as [Hq Eq]. apply Z.eqb_eq in Eq.
          f_equal. eapply NoDup_map_same; eauto.
        - pose proof (find_none _ _ Eq p Hp) as H. cbn in H.
          rewrite Z.eqb_refl in H. discriminate. }
      rewrite Hfind. split; reflexivity.
    + intros Hnone. destruct (f_person_id f) as [pid|]; [|split; reflexivity].
      destruct (find (fun q => Z.eqb (p_id q) pid) (persons d)) as [q|] eqn:Eq;
        [|split; reflexivity].
      apply find_some in Eq as [Hq Eq]. apply Z.eqb_eq in Eq. subst pid.
      exfalso. exact (Hnone q Hq eq_refl).
Qed.

(** ** A write followed by a read *)

Lemma map_untouched (fid : Z) (h : face -> face) (l : list face) :
  ~ In fid (map f_id l) ->
  map (fun f => if Z.eqb (f_id f) fid then h f else f) l = l.
Proof.
  induction l as [|a l IH]; cbn [map In]; intros H; [reflexivity|].
  destruct (Z.eqb_spec (f_id a) fid); [tauto|]. rewrite IH; tauto.
Qed.

Lemma count_after_update (pid fid : Z) (l : list face) f :
  NoDup (map f_id l) -> In f l -> f_id f = fid ->
  List.length (filter (fun x => opt_Z_eqb (f_person_id x) pid)
                 (map (fun x => if Z.eqb (f_id x) fid
                                then set_person_id (Some pid) x else x) l)) =
  (List.length (filter (fun x => opt_Z_eqb (f_person_id x) pid) l) +
   if opt_Z_eqb (f_person_id f) pid then 0 else 1)%nat.
Proof.
  induction l as [|a l IH]; cbn [map In]; intros Hnd Hin Hid; [contradiction|].
  inversion Hnd as [|? ? Hni Hnd']; subst.
  destruct Hin as [->|Hin].
  - rewrite Z.eqb_refl, map_untouched by exact Hni.
    cbn [filter set_person_id f_person_id opt_Z_eqb]. rewrite Z.eqb_refl.
    destruct (opt_Z_eqb (f_person_id f) pid); cbn [List.length]; lia.
  - destruct (Z.eqb_spec (f_id a) (f_id f)) as [E|E].
    { exfalso. apply Hni. rewrite E. now apply in_map. }
    cbn [filter]. specialize (IH Hnd' Hin eq_refl).
    destruct (opt_Z_eqb (f_person_id a) pid); cbn [List.length]; lia.
Qed.

(** X20.  A face that [assign_face_to_person] has given to a person is shown
    that way by the reads: if the face is not ignored, [get_faces_for_image]
    lists it for its image with that person's id, name and flag, and the
    person's face count has grown by one, unless the face was theirs
    already. *)
Theorem assigned_face_is_listed (fid pid : Z) d f p :
  NoDup (map f_id (faces d)) -> NoDup (map p_id (persons d)) ->
  In f (faces d) -> f_id f = fid -> f_ignored f = false ->
  In p (persons d) -> p_id p = pid ->
  fid <> 0%Z -> pid <> 0%Z ->
  let r := assign_face_to_person (Some fid) (Some pid) d in
  snd r = true /\
  (exists e, In e (get_faces_for_image (f_image_id f) (fst r)) /\
             fe_id e = fid /\ fe_person_id e = Some pid /\
             fe_person_name e = p_name p /\ fe_confirmed e = p_confirmed p) /\
  face_count pid (fst r) =
  (face_count pid d + if opt_Z_eqb (f_person_id f) pid then 0 else 1)%nat.
Proof.
  intros Hfd Hpd Hf Hfid Hign Hp Hpid Hf0 Hp0 r. unfold r.
  destruct (assign_face_to_person_cases (Some fid) (Some pid) d)
    as [(fid' & pid' & [= <-] & [= <-] & _ & _ & ->)|[Hno _]].
  2:{ exfalso. apply Hno. exists fid, pid. conjs; auto.
      - rewrite <- Hfid. now apply in_map.
      - rewrite <- Hpid. now apply in_map. }
  cbn [fst snd]. conjs; [reflexivity | |].
  - exists (face_entry_of (update_face_person pid fid d)
                          (set_person_id (Some pid) f)).
    conjs.
    + unfold get_faces_for_image. apply order_by_In. apply in_map.
      apply filter_In. split.
      * unfold update_face_person. cbn [faces]. apply in_map_iff.
        exists f. split; [|exact Hf]. rewrite Hfid, Z.eqb_refl. reflexivity.
      * cbn [set_person_id f_image_id f_ignored]. rewrite Z.eqb_refl, Hign.
        reflexivity.
    + exact Hfid.
    + reflexivity.
    + unfold face_entry_of, person_row.
      cbn [set_person_id f_person_id update_face_person persons fe_person_name].
      assert (Hfind : find (fun q => Z.eqb (p_id q) pid) (persons d) = Some p).
      { destruct (find (fun q => Z.eqb (p_id q) pid) (persons d)) as [q|] eqn:Eq.
        - apply find_some in Eq as [Hq Eq]. apply Z.eqb_eq in Eq.
          f_equal. eapply NoDup_map_same; eauto. congruence.
        - pose proof (find_none _ _ Eq p Hp) as H. cbn in H.
          rewrite Hpid, Z.eqb_refl in H. discriminate. }
      rewrite Hfind. reflexivity.
    + unfold face_entry_of, person_row.
      cbn [set_person_id f_person_id update_face_person persons fe_confirmed].
      assert (Hfind : find (fun q => Z.eqb (p_id q) pid) (persons d) = Some p).
      { destruct (find (fun q => Z.eqb (p_id q) pid) (persons d)) as [q|] eqn:Eq.
        - apply find_some in Eq as [Hq Eq]. apply Z.eqb_eq in Eq.
          f_equal. eapply NoDup_map_same; eauto. congruence.
        - pose proof (find_none _ _ Eq p Hp) as H. cbn in H.
          rewrite Hpid, Z.eqb_refl in H. discriminate. }
      rewrite Hfind. reflexivity.
  - unfold face_count, faces_of, update_face_person. cbn [faces].
    now apply count_after_update.
Qed.

Lemma count_after_ignore (pid fid : Z) (l : list face) :
  NoDup (map f_id l) ->
  let shown := fun x => opt_Z_eqb (f_person_id x) pid && negb (f_ignored x) in
  let after := map (fun x => if Z.eqb (f_id x) fid then mark_ignored x else x) l in
  (List.length (filter shown after) <= List.length (filter shown l))%nat /\
  (List.length (filter shown l) <= List.length (filter shown after) + 1)%nat.
Proof.
  intros Hnd shown after. unfold after. clear after.
  induction l as [|a l IH]; cbn [map filter List.length]; [lia|].
  cbn [map] in Hnd. inversion Hnd as [|? ? Hni Hnd']; subst.
  destruct (Z.eqb_spec (f_id a) fid) as [E|E].
  - subst fid. rewrite map_untouched by exact Hni.
    assert (Hs : shown (mark_ignored a) = false)
      by (unfold shown; cbn [mark_ignored f_ignored negb]; apply andb_false_r).
    rewrite Hs. destruct (shown a); cbn [List.length]; lia.
  - specialize (IH Hnd'). destruct (shown a); cbn [List.length]; lia.
Qed.

(** X21.  A face that [ignore_face] has marked disappears from
    [get_faces_for_image], whatever the image, and every other listed face
    stays listed as it was.  [get_all_people] keeps its rows and their
    order; a face count in it stays or drops by one. *)
Theorem ignored_face_is_hidden (face_id : option Z) d :
  NoDup (map f_id (faces d)) ->
  snd (ignore_face face_id d) = true ->
  let d' := fst (ignore_face face_id d) in
  (forall image_id e, In e (get_faces_for_image image_id d') ->
                      Some (fe_id e) <> face_id) /\
  (forall image_id e, In e (get_faces_for_image image_id d) ->
                      Some (fe_id e) <> face_id ->
                      In e (get_faces_for_image image_id d')) /\
  Forall2 (fun e e' => e_id e' = e_id e /\ e_name e' = e_name e /\
                       e_confirmed e' = e_confirmed e /\
                       (e_face_count e' <= e_face_count e)%nat /\
                       (e_face_count e <= e_face_count e' + 1)%nat)
          (get_all_people d) (get_all_people d').
Proof.
  intros Hnd Hok d'. unfold d'.
  destruct (ignore_face_cases face_id d)
    as [(fid & -> & Hf0 & Hin & E)|[_ E]]; rewrite E in *; [|discriminate].
  cbn [fst]. clear E Hok d'.
  set (g := fun f : face => if Z.eqb (f_id f) fid then mark_ignored f else f).
  set (d' := mkDb (map g (faces d)) (persons d) (persons_seq d)).
  assert (Hrow : forall f, f_id f <> fid -> face_entry_of d' (g f) = face_entry_of d f).
  { intros f Hne. unfold g. destruct (Z.eqb_spec (f_id f) fid); [contradiction|].
    reflexivity. }
  conjs.
  - intros image_id e He [= Heq]. unfold get_faces_for_image in He.
    apply order_by_In in He. apply in_map_iff in He as (f' & <- & Hf').
    apply filter_In in Hf' as [Hf' Hshown]. cbn [d' faces] in Hf'.
    apply in_map_iff in Hf' as (f & <- & Hf). cbn [face_entry_of fe_id] in Heq.
    unfold g in Heq, Hshown. destruct (Z.eqb_spec (f_id f) fid) as [Ef|Ef].
    + cbn [mark_ignored f_ignored negb] in Hshown.
      rewrite andb_false_r in Hshown. discriminate.
    + contradiction.
  - intros image_id e He Hne. unfold get_faces_for_image in *.
    apply order_by_In in He. apply order_by_In.
    apply in_map_iff in He as (f & <- & Hf).
    apply filter_In in Hf as [Hf Hshown].
    assert (Hfid : f_id f <> fid).
    { intros Heq. apply Hne. cbn [face_entry_of fe_id]. now rewrite Heq. }
    rewrite <- (Hrow f Hfid). apply in_map. apply filter_In. split.
    + cbn [d' faces]. now apply in_map.
    + unfold g. destruct (Z.eqb_spec (f_id f) fid); [contradiction | exact Hshown].
  - unfold get_all_people. apply order_by_Forall2.
    { intros a a' b b' (_ & Ha & _) (_ & Hb & _). unfold name_first.
      now rewrite Ha, Hb. }
    change (persons d') with (persons d). generalize (persons d).
    intros ps. induction ps as [|p ps IH]; cbn [flat_map]; [constructor|].
    apply Forall2_app; [|exact IH]. unfold entry_of.
    destruct (p_name p) as [name|]; [|constructor].
    destruct (String.eqb name EmptyString); constructor; [|constructor].
    cbn [e_id e_name e_confirmed e_face_count]. conjs; auto;
      unfold shown_faces_of; cbn [d' faces];
      apply (@count_after_ignore (p_id p) fid (faces d) Hnd).
Qed.

(** ** [get_processing_image_path] *)

Lemma first_existing_hit (path_exists : string -> bool) (candidates : list string)
      (otherwise : string) :
  first_hit path_exists candidates otherwise
            (first_existing path_exists candidates otherwise).
Proof.
  unfold first_existing, first_hit.
  induction candidates as [|c cs (tried & rest & E & Hall & Hrest)]; cbn [find].
  - exists [], []. conjs; auto.
  - destruct (path_exists c) eqn:Ec.
    + exists [], (c :: cs). conjs; auto.
    + exists (c :: tried), rest. conjs; auto. cbn [app]. now rewrite E.
Qed.

Lemma first_hit_exists (path_exists : string -> bool) (candidates : list string)
      (otherwise result : string) :
  first_hit path_exists candidates otherwise result ->
  result = otherwise \/ path_exists result = true.
Proof.
  intros (tried & [|c rest] & _ & _ & H); [now left|].
  destruct H as [-> H]. now right.
Qed.

Lemma first_adjacent_hit (path_exists : string -> bool)
      (with_suffix : string -> string -> option string)
      (original_path : string) (suffixes adjacent : list string) :
  Forall2 (fun ext c => with_suffix original_path ext = Some c) suffixes adjacent ->
  exists result,
    first_adjacent path_exists with_suffix original_path suffixes = Some result /\
    first_hit path_exists adjacent original_path result.
Proof.
  induction 1 as [|ext c suffixes adjacent Hc _ (r & Hr & tried & rest & E & Hall & Hrest)];
    cbn [first_adjacent].
  - exists original_path. split; [reflexivity|]. exists [], []. conjs; auto.
  - rewrite Hc. destruct (path_exists c) eqn:Ec.
    + exists c. split; [reflexivity|]. exists [], (c :: adjacent). conjs; auto.
    + exists r. split; [exact Hr|]. exists (c :: tried), rest. conjs; auto.
      cbn [app]. now rewrite E.
Qed.

Lemma first_adjacent_result (path_exists : string -> bool)
      (with_suffix : string -> string -> option string)
      (original_path : string) (suffixes : list string) :
  match first_adjacent path_exists with_suffix original_path suffixes with
  | Some result => result = original_path \/ path_exists result = true
  | None => exists ext, In ext suffixes /\ with_suffix original_path ext = None
  end.
Proof.
  induction suffixes as [|ext suffixes IH]; cbn [first_adjacent]; [now left|].
  destruct (with_suffix original_path ext) as [c|] eqn:Ec.
  - destruct (path_exists c) eqn:Ex; [now right|].
    destruct (first_adjacent path_exists with_suffix original_path suffixes);
      [exact IH|].
    destruct IH as (e & He & Hn). exists e. split; [now right | exact Hn].
  - exists ext. split; [now left | exact Ec].
Qed.

(** X22.  [get_processing_image_path] returns the path of the row or a
    proxy that exists, never a proxy that is missing.  For a HEIC file it
    looks at the HEIC proxies only, the [.webp] of either directory before
    any [.jpg], and takes the first that exists; the RAW proxy type of the
    row is not looked at.  For other files the type [custom_generated]
    selects the first existing RAW proxy, [original_jpg] the first existing
    adjacent JPEG, and any other type or none the path of the row.  The
    call fails only for the type [original_jpg], when the path of the row
    has no file name to put a suffix on. *)
Theorem get_processing_image_path_choice (path_exists : string -> bool)
        (upper : string -> string)
        (with_suffix : string -> string -> option string)
        (row : image_row) :
  let returned := get_processing_image_path path_exists upper with_suffix row in
  let n := str_int (i_id row) in
  (forall result, returned = Some result ->
                  result = i_path row \/ path_exists result = true) /\
  (returned = None ->
   is_heic upper (i_filename row) = false /\
   i_raw_proxy_type row = Some "original_jpg"%string /\
   exists ext, In ext adjacent_suffixes /\ with_suffix (i_path row) ext = None) /\
  heic_candidates (i_id row) =
    [("HEIC Proxies" ++ "/" ++ n ++ ".webp")%string;
     ("../HEIC Proxies" ++ "/" ++ n ++ ".webp")%string;
     ("HEIC Proxies" ++ "/" ++ n ++ ".jpg")%string;
     ("../HEIC Proxies" ++ "/" ++ n ++ ".jpg")%string] /\
  (is_heic upper (i_filename row) = true ->
   exists result, returned = Some result /\
     first_hit path_exists (heic_candidates (i_id row)) (i_path row) result) /\
  (is_heic upper (i_filename row) = false ->
   i_raw_proxy_type row = Some "custom_generated"%string ->
   exists result, returned = Some result /\
     first_hit path_exists (raw_candidates (i_id row)) (i_path row) result) /\
  (is_heic upper (i_filename row) = false ->
   i_raw_proxy_type row = Some "original_jpg"%string ->
   forall adjacent,
     Forall2 (fun ext c => with_suffix (i_path row) ext = Some c)
             adjacent_suffixes adjacent ->
     exists result, returned = Some result /\
       first_hit path_exists adjacent (i_path row) result) /\
  (is_heic upper (i_filename row) = false ->
   i_raw_proxy_type row <> Some "custom_generated"%string ->
   i_raw_proxy_type row <> Some "original_jpg"%string ->
   returned = Some (i_path row)).
Proof.
  intros returned n. unfold returned, get_processing_image_path. conjs.
  - intros result.
    destruct (is_heic upper (i_filename row)).
    { intros [= <-]. eapply first_hit_exists, first_existing_hit. }
    destruct (i_raw_proxy_type row) as [t|]; [|intros [= <-]; now left].
    destruct (String.eqb t "custom_generated").
    { intros [= <-]. eapply first_hit_exists, first_existing_hit. }
    destruct (String.eqb t "original_jpg"); [|intros [= <-]; now left].
    intros E.
    pose proof (first_adjacent_result path_exists with_suffix (i_path row)
                  adjacent_suffixes) as H.
    rewrite E in H. exact H.
  - destruct (is_heic upper (i_filename row)); [discriminate|].
    destruct (i_raw_proxy_type row) as [t|]; [|discriminate].
    destruct (String.eqb_spec t "custom_generated"); [discriminate|].
    destruct (String.eqb_spec t "original_jpg") as [->|]; [|discriminate].
    intros E.
    pose proof (first_adjacent_result path_exists with_suffix (i_path row)
                  adjacent_suffixes) as H.
    rewrite E in H. auto.
  - reflexivity.
  - intros ->. eexists. split; [reflexivity | apply first_existing_hit].
  - intros -> ->. cbn [String.eqb]. eexists.
    split; [reflexivity | apply first_existing_hit].
  - intros -> -> adjacent Hadj. now apply first_adjacent_hit.
  - intros -> H1 H2. destruct (i_raw_proxy_type row) as [t|]; [|reflexivity].
    destruct (String.eqb_spec t "custom_generated"); [congruence|].
    destruct (String.eqb_spec t "original_jpg"); [congruence|]. reflexivity.
Qed.

(** ** [clear_mediapipe_data] *)

(** X23.  After [clear_mediapipe_data] the reads list nothing, labelling and
    releasing change nothing, a batch run with a positive [min_samples]
    changes nothing, a pass of [cluster_new_faces] returns [None], and so
    the loop with a positive [max_iterations] ends in the [TypeError] of its
    first turn.  Person ids are not handed out again: the next person gets
    an id above every id the table held. *)
Theorem clear_mediapipe_data_then (thr eps : Q) (msn min_samples max_iterations : Z)
        (person_id : Z) (name : string) d :
  wf_db d -> (0 < min_samples)%Z -> (0 < max_iterations)%Z ->
  let d0 := clear_mediapipe_data d in
  get_people_stats d0 = [] /\ get_all_people d0 = [] /\
  (forall image_id, get_faces_for_image image_id d0 = []) /\
  label_person person_id name d0 = d0 /\
  delete_unconfirmed_people d0 = d0 /\
  cluster_faces eps min_samples d0 = d0 /\
  cluster_new_faces thr msn d0 = (d0, None) /\
  cluster_new_faces_loop thr msn max_iterations d0 = TypeError 1 d0 /\
  Forall (fun p => (p_id p < snd (insert_person name d0))%Z) (persons d).
Proof.
  intros [_ _ Hseq] Hms Hmax d0. conjs; try reflexivity.
  - unfold cluster_faces. cbn [d0 clear_mediapipe_data select_embedded faces
                                flat_map List.length Z.of_nat].
    destruct (Z.ltb_spec 0 min_samples); [reflexivity | lia].
  - unfold cluster_new_faces_loop.
    destruct (Z.to_nat max_iterations) as [|k] eqn:E; [lia | reflexivity].
  - eapply Forall_impl; [|exact Hseq]. intros p Hp.
    cbn [d0 clear_mediapipe_data insert_person snd persons persons_seq
         max_person_id fold_right]. cbv beta in Hp. lia.
Qed.

End FurtherProperties.

(** * The further properties on concrete stores *)

Ltac references_ok :=
  let f := fresh "f" in
  let pid := fresh "pid" in
  let Hin := fresh "Hin" in
  let Hp := fresh "Hp" in
  intros f pid Hin Hp; cbn in Hin;
  repeat (destruct Hin as [Hin|Hin];
          [subst f; cbn in Hp; try discriminate Hp;
           injection Hp as Hp; subst pid; cbn; tauto|]);
  contradiction.

Section FurtherRuns.
Import Stores.
Open Scope Z_scope.

(** ** The incremental pass and the loop *)

Lemma cluster_new_faces_only_assigns_new_witness :
  NoDup (map f_id (faces slow_start)) /\
  let r := cluster_new_faces (1 # 4) 30 slow_start in
  exists news,
    persons (fst r) = persons slow_start ++ news /\
    (forall a n, snd r = Some (a, n) -> List.length news = n) /\
    Forall2 (newly_assigned (fst r)) (faces slow_start) (faces (fst r)).
Proof.
  assert (H : NoDup (map f_id (faces slow_start)))
    by (apply distinct_sound; reflexivity).
  split; [exact H|].
  exact (@cluster_new_faces_only_assigns_new QNumerics (1 # 4) 30 slow_start H).
Defined.

Lemma engine_keeps_keys_witness :
  wf_db before_batch /\
  wf_db (label_person 2 "Alice" before_batch) /\
  wf_db (delete_unconfirmed_people before_batch) /\
  wf_db (cluster_faces (38 # 100) 2 before_batch) /\
  wf_db (fst (cluster_new_faces (1 # 4) 30 before_batch)) /\
  wf_db (outcome_db (cluster_new_faces_loop (1 # 4) 30 10 before_batch)).
Proof.
  assert (H : wf_db before_batch) by well_formed.
  split; [exact H|].
  exact (@engine_keeps_keys QNumerics (1 # 4) (38 # 100) 30 2 10 2 "Alice"
           before_batch H).
Defined.

Lemma engine_keeps_references_witness :
  refs_ok before_batch /\
  refs_ok (label_person 2 "Alice" before_batch) /\
  refs_ok (delete_unconfirmed_people before_batch) /\
  refs_ok (cluster_faces (38 # 100) 2 before_batch) /\
  refs_ok (fst (cluster_new_faces (1 # 4) 30 before_batch)) /\
  refs_ok (outcome_db (cluster_new_faces_loop (1 # 4) 30 10 before_batch)).
Proof.
  assert (H : refs_ok before_batch) by references_ok.
  split; [exact H|].
  exact (@engine_keeps_references QNumerics (1 # 4) (38 # 100) 30 2 10 2 "Alice"
           before_batch H).
Defined.

Lemma loop_only_assigns_new_witness :
  NoDup (map f_id (faces slow_start_rest)) /\
  let d' := outcome_db (cluster_new_faces_loop (1 # 4) 30 10 slow_start_rest) in
  (exists news, persons d' = persons slow_start_rest ++ news) /\
  Forall2 (newly_assigned d') (faces slow_start_rest) (faces d').
Proof.
  assert (H : NoDup (map f_id (faces slow_start_rest)))
    by (apply distinct_sound; reflexivity).
  split; [exact H|].
  exact (@loop_only_assigns_new QNumerics (1 # 4) 30 10 slow_start_rest H).
Defined.

Lemma loop_totals_witness :
  cluster_new_faces_loop (1 # 4) 30 10 slow_start_rest =
    Returned 2 0 3 true slow_start_rest_done /\
  (2%nat, 0%nat) = totals (1 # 4) 30 3 slow_start_rest /\
  slow_start_rest_done = db_after (1 # 4) 30 3 slow_start_rest /\
  List.length (persons slow_start_rest_done) =
    (List.length (persons slow_start_rest) + 0)%nat.
Proof.
  assert (H : cluster_new_faces_loop (1 # 4) 30 10 slow_start_rest =
              Returned 2 0 3 true slow_start_rest_done)
    by reflexivity.
  split; [exact H|].
  exact (@loop_totals QNumerics (1 # 4) 30 10 slow_start_rest
           2%nat 0%nat 3%nat true slow_start_rest_done H).
Defined.

Lemma pass_accounting_witness :
  NoDup (map f_id (faces slow_start)) /\
  snd (cluster_new_faces (1 # 4) 30 slow_start) = Some (1%nat, 0%nat) /\
  let d' := fst (cluster_new_faces (1 # 4) 30 slow_start) in
  (List.length (select_new_faces d') + 1 <=
   List.length (select_new_faces slow_start))%nat /\
  (0%nat = 0%nat ->
   (List.length (select_new_faces d') + 1 =
    List.length (select_new_faces slow_start))%nat) /\
  (1 <= List.length (select_new_faces slow_start))%nat.
Proof.
  assert (H1 : NoDup (map f_id (faces slow_start)))
    by (apply distinct_sound; reflexivity).
  assert (H2 : snd (cluster_new_faces (1 # 4) 30 slow_start) =
               Some (1%nat, 0%nat)) by reflexivity.
  split; [exact H1|]. split; [exact H2|].
  exact (@pass_accounting QNumerics (1 # 4) 30 slow_start 1%nat 0%nat H1 H2).
Defined.

Lemma loop_assigns_at_most_the_pool_witness :
  NoDup (map f_id (faces slow_start_rest)) /\
  cluster_new_faces_loop (1 # 4) 30 10 slow_start_rest =
    Returned 2 0 3 true slow_start_rest_done /\
  (2 <= List.length (select_new_faces slow_start_rest))%nat.
Proof.
  assert (H1 : NoDup (map f_id (faces slow_start_rest)))
    by (apply distinct_sound; reflexivity).
  assert (H2 : cluster_new_faces_loop (1 # 4) 30 10 slow_start_rest =
               Returned 2 0 3 true slow_start_rest_done)
    by reflexivity.
  split; [exact H1|]. split; [exact H2|].
  exact (@loop_assigns_at_most_the_pool QNumerics (1 # 4) 30 10 slow_start_rest
           2%nat 0%nat 3%nat true slow_start_rest_done H1 H2).
Defined.

(** ** Centroids and the batch run *)

Lemma centroids_are_means_witness :
  NoDup (map p_id (persons bob_and_alice)) /\
  (In 5 (map p_id (persons bob_and_alice)) ->
   dict_get 5 (person_centroids_of (select_existing bob_and_alice)) =
   match member_embeddings 5 bob_and_alice with
   | [] => None
   | es => Some (np_mean es)
   end) /\
  (~ In 5 (map p_id (persons bob_and_alice)) ->
   dict_get 5 (person_centroids_of (select_existing bob_and_alice)) = None).
Proof.
  assert (H : NoDup (map p_id (persons bob_and_alice)))
    by (apply distinct_sound; reflexivity).
  split; [exact H|].
  exact (@centroids_are_means QNumerics bob_and_alice 5 H).
Defined.

Lemma cluster_faces_membership_witness :
  NoDup (map f_id (faces before_batch)) /\
  2 <= Z.of_nat (List.length (select_embedded before_batch)) /\
  let face_ids := map fst (select_embedded before_batch) in
  let labels := DBSCAN (38 # 100) 2 (map snd (select_embedded before_batch)) in
  let d' := cluster_faces (38 # 100) 2 before_batch in
  exists made : list (Z * Z),
    map fst made = unique_clusters labels /\
    NoDup (map snd made) /\
    persons d' = map cluster_person made /\
    (forall fid, In fid (map f_id (faces before_batch)) -> ~ In fid face_ids ->
                 person_of fid d' = Some None) /\
    (forall fid l, In (fid, l) (combine face_ids labels) ->
       (l = -1 -> person_of fid d' = Some None) /\
       (l <> -1 ->
        exists pid, dict_get l made = Some pid /\
                    person_of fid d' = Some (Some pid))) /\
    (forall fid l fid' l',
       In (fid, l) (combine face_ids labels) ->
       In (fid', l') (combine face_ids labels) ->
       l <> -1 -> l' <> -1 ->
       (person_of fid d' = person_of fid' d' <-> l = l')).
Proof.
  assert (H1 : NoDup (map f_id (faces before_batch)))
    by (apply distinct_sound; reflexivity).
  assert (H2 : 2 <= Z.of_nat (List.length (select_embedded before_batch)))
    by (vm_compute; discriminate).
  split; [exact H1|]. split; [exact H2|].
  exact (@cluster_faces_membership QNumerics (38 # 100) 2 before_batch H1 H2).
Defined.

(** ** Counting *)

Lemma get_people_stats_counts_each_face_once_witness :
  NoDup (map p_id (persons before_batch)) /\
  refs_ok before_batch /\
  list_sum (map s_face_count (get_people_stats before_batch)) =
  List.length (filter is_assigned (faces before_batch)).
Proof.
  assert (H1 : NoDup (map p_id (persons before_batch)))
    by (apply distinct_sound; reflexivity).
  assert (H2 : refs_ok before_batch) by references_ok.
  split; [exact H1|]. split; [exact H2|].
  exact (@get_people_stats_counts_each_face_once QNumerics before_batch H1 H2).
Defined.

Lemma label_person_merge_adds_counts_witness :
  In 4 (map p_id (persons two_person_3)) /\
  find (fun p => name_is "Person 3" p && negb (Z.eqb (p_id p) 4))
       (persons two_person_3)
  = Some (mkPerson 3 (Some "Person 3"%string) false) /\
  let d' := label_person 4 "Person 3" two_person_3 in
  face_count 3 d' = (face_count 3 two_person_3 + face_count 4 two_person_3)%nat /\
  face_count 4 d' = 0%nat /\
  (forall q, q <> 4 -> q <> 3 -> face_count q d' = face_count q two_person_3) /\
  List.length (filter is_assigned (faces d')) =
  List.length (filter is_assigned (faces two_person_3)).
Proof.
  assert (H1 : In 4 (map p_id (persons two_person_3))) by (cbn; tauto).
  assert (H2 : find (fun p => name_is "Person 3" p && negb (Z.eqb (p_id p) 4))
                    (persons two_person_3)
               = Some (mkPerson 3 (Some "Person 3"%string) false))
    by reflexivity.
  split; [exact H1|]. split; [exact H2|].
  exact (@label_person_merge_adds_counts QNumerics two_person_3 4 "Person 3"
           (mkPerson 3 (Some "Person 3"%string) false) H1 H2).
Defined.

(** ** The API server *)

Lemma get_faces_for_image_listing_witness :
  NoDup (map p_id (persons before_batch)) /\
  let listed := get_faces_for_image 1 before_batch in
  Permutation (map fe_id listed)
              (map f_id (filter (shown_in 1) (faces before_batch))) /\
  StronglySorted at_least_as_confident listed /\
  (forall e, In e listed ->
     fe_ignored e = false /\
     (exists f, In f (faces before_batch) /\ f_image_id f = 1 /\
                f_ignored f = false /\ fe_id e = f_id f /\
                fe_x e = f_x f /\ fe_y e = f_y f /\
                fe_width e = f_width f /\ fe_height e = f_height f /\
                fe_confidence e = f_confidence f /\
                fe_person_id e = f_person_id f) /\
     (forall p, In p (persons before_batch) -> fe_person_id e = Some (p_id p) ->
                fe_person_name e = p_name p /\ fe_confirmed e = p_confirmed p) /\
     ((forall p, In p (persons before_batch) -> fe_person_id e <> Some (p_id p)) ->
      fe_person_name e = None /\ fe_confirmed e = false)).
Proof.
  assert (H : NoDup (map p_id (persons before_batch)))
    by (apply distinct_sound; reflexivity).
  split; [exact H|].
  exact (@get_faces_for_image_listing QNumerics 1 before_batch H).
Defined.

Lemma assigned_face_is_listed_witness :
  let f := qface 3 None (Some north) false in
  let p := mkPerson 1 (Some "Alice"%string) true in
  (NoDup (map f_id (faces before_batch)) /\
   NoDup (map p_id (persons before_batch)) /\
   In f (faces before_batch) /\ f_id f = 3 /\ f_ignored f = false /\
   In p (persons before_batch) /\ p_id p = 1 /\ 3 <> 0 /\ 1 <> 0) /\
  let r := assign_face_to_person (Some 3) (Some 1) before_batch in
  snd r = true /\
  (exists e, In e (get_faces_for_image (f_image_id f) (fst r)) /\
             fe_id e = 3 /\ fe_person_id e = Some 1 /\
             fe_person_name e = p_name p /\ fe_confirmed e = p_confirmed p) /\
  face_count 1 (fst r) =
  (face_count 1 before_batch + if opt_Z_eqb (f_person_id f) 1 then 0 else 1)%nat.
Proof.
  intros f p.
  assert (H1 : NoDup (map f_id (faces before_batch)))
    by (apply distinct_sound; reflexivity).
  assert (H2 : NoDup (map p_id (persons before_batch)))
    by (apply distinct_sound; reflexivity).
  assert (H3 : In f (faces before_batch)) by (cbn; tauto).
  assert (H4 : f_id f = 3) by reflexivity.
  assert (H5 : f_ignored f = false) by reflexivity.
  assert (H6 : In p (persons before_batch)) by (cbn; tauto).
  assert (H7 : p_id p = 1) by reflexivity.
  assert (H8 : 3 <> 0) by lia.
  assert (H9 : 1 <> 0) by lia.
  split; [repeat (split; [assumption|]); assumption|].
  exact (@assigned_face_is_listed QNumerics 3 1 before_batch f p
           H1 H2 H3 H4 H5 H6 H7 H8 H9).
Defined.

Lemma ignored_face_is_hidden_witness :
  NoDup (map f_id (faces before_batch)) /\
  snd (ignore_face (Some 3) before_batch) = true /\
  let d' := fst (ignore_face (Some 3) before_batch) in
  (forall image_id e, In e (get_faces_for_image image_id d') ->
                      Some (fe_id e) <> Some 3) /\
  (forall image_id e, In e (get_faces_for_image image_id before_batch) ->
                      Some (fe_id e) <> Some 3 ->
                      In e (get_faces_for_image image_id d')) /\
  Forall2 (fun e e' => e_id e' = e_id e /\ e_name e' = e_name e /\
                       e_confirmed e' = e_confirmed e /\
                       (e_face_count e' <= e_face_count e)%nat /\
                       (e_face_count e <= e_face_count e' + 1)%nat)
          (get_all_people before_batch) (get_all_people d').
Proof.
  assert (H1 : NoDup (map f_id (faces before_batch)))
    by (apply distinct_sound; reflexivity).
  assert (H2 : snd (ignore_face (Some 3) before_batch) = true) by reflexivity.
  split; [exact H1|]. split; [exact H2|].
  exact (@ignored_face_is_hidden QNumerics (Some 3) before_batch H1 H2).
Defined.

(** ** [clear_mediapipe_data] *)

Lemma clear_mediapipe_data_then_witness :
  wf_db before_batch /\ 0 < 2 /\ 0 < 10 /\
  let d0 := clear_mediapipe_data before_batch in
  get_people_stats d0 = [] /\ get_all_people d0 = [] /\
  (forall image_id, get_faces_for_image image_id d0 = []) /\
  label_person 1 "Ann" d0 = d0 /\
  delete_unconfirmed_people d0 = d0 /\
  cluster_faces (38 # 100) 2 d0 = d0 /\
  cluster_new_faces (1 # 4) 30 d0 = (d0, None) /\
  cluster_new_faces_loop (1 # 4) 30 10 d0 = TypeError 1 d0 /\
  Forall (fun p => p_id p < snd (insert_person "Ann" d0)) (persons before_batch).
Proof.
  assert (H1 : wf_db before_batch) by well_formed.
  assert (H2 : 0 < 2) by lia.
  assert (H3 : 0 < 10) by lia.
  split; [exact H1|]. split; [exact H2|]. split; [exact H3|].
  exact (@clear_mediapipe_data_then QNumerics (1 # 4) (38 # 100) 30 2 10 1 "Ann"
           before_batch H1 H2 H3).
Defined.

End FurtherRuns.
